(** * License service: lifecycle engine, seat ledger and activation protocol

    A shallow embedding of [licenses/models.py], [licenses/views.py],
    [licenses/serializers.py] and [licenses/urls.py].

    - A database table is the list of its rows; a Django query is a filter
      over that list ([QuerySet]).  [Model.objects.get] raises
      [DoesNotExist] or [MultipleObjectsReturned] exactly as Django does.
    - A model method that ends in [self.save()] takes the rows of its own
      table and returns the instance together with the rows after the save.
    - [timezone.now()] is the parameter [now]; datetimes are integers.
    - A view takes the validated request data and the store and returns the
      store after the request together with the [Response], or the exception
      that escapes the view.  [logger.info] calls have no effect on the
      store and are left out. *)

From Stdlib Require Import ZArith List String Bool Lia DecimalString.
Import ListNotations.
Set Warnings "-register-all".
Local Open Scope string_scope.
Local Open Scope list_scope.
Local Open Scope Z_scope.

Infix "+:+" := String.append (at level 60, right associativity).

(** [f"{n}"] for a Python int. *)
Definition str_int (n : Z) : string := NilZero.string_of_int (Z.to_int n).

(** Truthiness of an optional string: [None] and [''] are falsy. *)
Definition truthy (o : option string) : bool :=
  match o with
  | Some s => negb (String.eqb s EmptyString)
  | None => false
  end.

(** [reason or ''] *)
Definition or_empty (reason : option string) : string :=
  if truthy reason
  then match reason with Some r => r | None => EmptyString end
  else EmptyString.

(** ** Exceptions *)

Inductive Exn :=
| ValueError (msg : string)
| ValidationError (msg : string)
| DoesNotExist
| MultipleObjectsReturned
| IntegrityError
| Http404.

Inductive Result (A : Type) :=
| Ok (a : A)
| Raise (e : Exn).
Arguments Ok {A} a.
Arguments Raise {A} e.

Definition bind {A B : Type} (m : Result A) (k : A -> Result B) : Result B :=
  match m with
  | Ok a => k a
  | Raise e => Raise e
  end.

Notation "x <- m ;; k" := (bind m (fun x => k))
  (at level 61, m at next level, right associativity).

(** [str(e)] of an exception caught by a view. *)
Definition exn_str (e : Exn) : string :=
  match e with
  | ValueError msg => msg
  | ValidationError msg => msg
  | DoesNotExist => "Activation matching query does not exist."
  | MultipleObjectsReturned => "get() returned more than one Activation"
  | IntegrityError => "UNIQUE constraint failed"
  | Http404 => "Not found."
  end.

(** ** Queries over the rows of a table *)

Module QuerySet.

Definition get {A : Type} (cond : A -> bool) (rows : list A) : Result A :=
  match filter cond rows with
  | [] => Raise DoesNotExist
  | [x] => Ok x
  | _ :: _ :: _ => Raise MultipleObjectsReturned
  end.

Definition count {A : Type} (rows : list A) : Z := Z.of_nat (List.length rows).

Definition exists_ {A : Type} (rows : list A) : bool :=
  match rows with
  | [] => false
  | _ :: _ => true
  end.

(** [Meta.ordering = ['-field']]: rows by descending [key]; rows with equal
    keys keep their table order. *)
Fixpoint insert_desc {A : Type} (key : A -> Z) (x : A) (sorted : list A) : list A :=
  match sorted with
  | [] => [x]
  | y :: rest =>
      if key y <? key x then x :: y :: rest
      else y :: insert_desc key x rest
  end.

Definition order_desc {A : Type} (key : A -> Z) (rows : list A) : list A :=
  fold_right (insert_desc key) [] rows.

Definition first {A : Type} (key : A -> Z) (rows : list A) : option A :=
  match order_desc key rows with
  | [] => None
  | x :: _ => Some x
  end.

End QuerySet.

(** ** models.py *)

Module Status.

(** [License.STATUS_CHOICES] *)
Inductive t := valid | suspended | cancelled | expired | pending | renewed.

Definition str (s : t) : string :=
  match s with
  | valid => "valid"
  | suspended => "suspended"
  | cancelled => "cancelled"
  | expired => "expired"
  | pending => "pending"
  | renewed => "renewed"
  end.

Definition STATUS_CHOICES : list t :=
  [valid; suspended; cancelled; expired; pending; renewed].

Definition eqb (a b : t) : bool := String.eqb (str a) (str b).

(** [status in [...]] *)
Definition is_in (s : t) (l : list t) : bool := existsb (eqb s) l.

(** The status a request string denotes, if it is a key of
    [dict(License.STATUS_CHOICES)]. *)
Definition of_str (x : string) : option t :=
  find (fun s => String.eqb (str s) x) STATUS_CHOICES.

End Status.

Module User.
Record t := mk {
  username : string;
  email : string;
  is_license_admin : bool;
  is_staff : bool
}.
End User.

Module Brand.
Record t := mk {
  id : Z;
  name : string;
  slug : string;
  is_active : bool
}.
End Brand.

Module Product.
Record t := mk {
  id : Z;
  name : string;
  slug : string;
  brand : Z;
  is_active : bool
}.
End Product.

Module LicenseKey.
Record t := mk {
  id : Z;
  key : string;
  customer_email : string;
  brand : Z;
  is_active : bool
}.
End LicenseKey.

Module Activation.

Record t := mk {
  id : Z;
  license : Z;
  instance_identifier : string;
  instance_type : string;
  is_active : bool;
  activated_at : Z;
  deactivated_at : option Z;
  deactivation_reason : string
}.

(** [self.save()] of an instance read from the table: the rows with this
    primary key take the instance's fields; an instance with no row is
    inserted. *)
Definition save (self : t) (objects : list t) : list t :=
  if existsb (fun r => id r =? id self) objects
  then map (fun r => if id r =? id self then self else r) objects
  else objects ++ [self].

(** [Activation.objects.create(license=, instance_identifier=,
    instance_type=)] with primary key [pk] drawn from the table's sequence.
    [Meta.unique_together = ['license', 'instance_identifier']] is checked by
    the store over every row of the table, active or not. *)
Definition create (pk now license_id : Z) (instance_identifier_ instance_type_ : string)
    (objects : list t) : Result (t * list t) :=
  if existsb (fun r => (license r =? license_id)
                       && String.eqb (instance_identifier r) instance_identifier_) objects
  then Raise IntegrityError
  else
    let activation := mk pk license_id instance_identifier_ instance_type_ true now None EmptyString in
    Ok (activation, objects ++ [activation]).

Definition deactivate (self : t) (reason : option string) (now : Z) (objects : list t)
    : t * list t :=
  let self :=
    mk (id self) (license self) (instance_identifier self) (instance_type self)
       false
       (activated_at self)
       (Some now)
       (or_empty reason) in
  (self, save self objects).

End Activation.

Module License.

Record t := mk {
  id : Z;
  license_key : Z;
  product : Z;
  status : Status.t;
  seats : nat;                          (* PositiveIntegerField *)
  expiration_date : Z;
  original_expiration_date : option Z;
  renewal_count : nat;                  (* PositiveIntegerField *)
  suspension_reason : string;
  cancellation_reason : string;
  cancelled_at : option Z;
  suspended_at : option Z;
  created_at : Z
}.

(** [self.save()]: the row of this primary key takes the instance's fields.
    An instance with no row is appended as it is, where Django would stamp
    [created_at] anew on the insert.  [updated_at], which every save
    refreshes, is not a field of the record. *)
Definition save (self : t) (objects : list t) : list t :=
  if existsb (fun r => id r =? id self) objects
  then map (fun r => if id r =? id self then self else r) objects
  else objects ++ [self].

(** The related manager [self.activations]. *)
Definition activations (self : t) (table : list Activation.t) : list Activation.t :=
  filter (fun a => Activation.license a =? id self) table.

Definition is_expired (self : t) (now : Z) : bool :=
  expiration_date self <? now.

Definition available_seats (self : t) (table : list Activation.t) : Z :=
  let used_seats := QuerySet.count (filter Activation.is_active (activations self table)) in
  Z.max 0 (Z.of_nat (seats self) - used_seats).

Definition renew (self : t) (new_expiration_date : Z) (reason : option string)
    (objects : list t) : Result (t * list t) :=
  if negb (Status.is_in (status self) [Status.valid; Status.expired])
  then Raise (ValueError ("Cannot renew license with status: " +:+ Status.str (status self)))
  else
    let original :=
      match original_expiration_date self with
      | None => Some (expiration_date self)
      | Some d => Some d
      end in
    let self :=
      mk (id self) (license_key self) (product self)
         Status.renewed
         (seats self)
         new_expiration_date
         original
         (S (renewal_count self))
         (suspension_reason self) (cancellation_reason self)
         (cancelled_at self) (suspended_at self) (created_at self) in
    Ok (self, save self objects).

Definition suspend (self : t) (reason : string) (now : Z) (objects : list t)
    : Result (t * list t) :=
  if negb (Status.is_in (status self) [Status.valid; Status.renewed])
  then Raise (ValueError ("Cannot suspend license with status: " +:+ Status.str (status self)))
  else
    let self :=
      mk (id self) (license_key self) (product self)
         Status.suspended
         (seats self) (expiration_date self) (original_expiration_date self)
         (renewal_count self)
         reason
         (cancellation_reason self) (cancelled_at self)
         (Some now)
         (created_at self) in
    Ok (self, save self objects).

Definition resume (self : t) (objects : list t) : Result (t * list t) :=
  if negb (Status.eqb (status self) Status.suspended)
  then Raise (ValueError ("Cannot resume license with status: " +:+ Status.str (status self)))
  else
    let self :=
      mk (id self) (license_key self) (product self)
         Status.valid
         (seats self) (expiration_date self) (original_expiration_date self)
         (renewal_count self)
         EmptyString
         (cancellation_reason self) (cancelled_at self)
         None
         (created_at self) in
    Ok (self, save self objects).

Definition cancel (self : t) (reason : string) (now : Z) (objects : list t)
    : Result (t * list t) :=
  if Status.is_in (status self) [Status.cancelled; Status.expired]
  then Raise (ValueError ("Cannot cancel license with status: " +:+ Status.str (status self)))
  else
    let self :=
      mk (id self) (license_key self) (product self)
         Status.cancelled
         (seats self) (expiration_date self) (original_expiration_date self)
         (renewal_count self)
         (suspension_reason self)
         reason
         (Some now)
         (suspended_at self) (created_at self) in
    Ok (self, save self objects).

(** [license_obj.status = new_status] *)
Definition set_status (self : t) (new_status : Status.t) : t :=
  mk (id self) (license_key self) (product self)
     new_status
     (seats self) (expiration_date self) (original_expiration_date self)
     (renewal_count self) (suspension_reason self) (cancellation_reason self)
     (cancelled_at self) (suspended_at self) (created_at self).

End License.

(** ** The store: one list of rows per table, and the primary-key sequence
    of the activations table *)

Record Store := mkStore {
  brands : list Brand.t;
  products : list Product.t;
  license_keys : list LicenseKey.t;
  licenses : list License.t;
  activations : list Activation.t;
  activation_seq : Z
}.

Definition with_licenses (rows : list License.t) (s : Store) : Store :=
  mkStore (brands s) (products s) (license_keys s) rows (activations s) (activation_seq s).

Definition with_activations (rows : list Activation.t) (s : Store) : Store :=
  mkStore (brands s) (products s) (license_keys s) (licenses s) rows (activation_seq s).

(** The row inserted by [objects.create] took the next value of the sequence. *)
Definition with_new_activation (rows : list Activation.t) (s : Store) : Store :=
  mkStore (brands s) (products s) (license_keys s) (licenses s) rows (activation_seq s + 1).

(** Lookups across foreign keys, named as in the query keyword arguments. *)
Definition license_key__customer_email (s : Store) (l : License.t) (email : string) : bool :=
  existsb (fun k => (LicenseKey.id k =? License.license_key l)
                    && String.eqb (LicenseKey.customer_email k) email) (license_keys s).

Definition product__slug (s : Store) (l : License.t) (slug : string) : bool :=
  existsb (fun p => (Product.id p =? License.product l)
                    && String.eqb (Product.slug p) slug) (products s).

Definition license__license_key__customer_email (s : Store) (a : Activation.t)
    (email : string) : bool :=
  existsb (fun l => (License.id l =? Activation.license a)
                    && license_key__customer_email s l email) (licenses s).

(** The related manager [license_key_obj.licenses]. *)
Definition LicenseKey_licenses (k : LicenseKey.t) (s : Store) : list License.t :=
  filter (fun l => License.license_key l =? LicenseKey.id k) (licenses s).

(** ** Responses *)

Inductive Value :=
| VNone
| VBool (b : bool)
| VInt (n : Z)
| VStr (x : string)
| VTime (t : Z)
| VList (l : list Value)
| VDict (d : list (string * Value))
| VLicense (l : License.t)            (* LicenseSerializer(l).data *)
| VActivation (a : Activation.t).     (* ActivationSerializer(a).data *)

Record Response := mkResponse {
  status_code : Z;
  data : Value
}.

Definition HTTP_200_OK : Z := 200.
Definition HTTP_400_BAD_REQUEST : Z := 400.
Definition HTTP_404_NOT_FOUND : Z := 404.

(** What a request leaves behind: the store, and the response or the
    exception that escaped the view. *)
Definition Outcome : Type := Store * Result Response.

(** ** views.py *)

Module LicenseViewSet.

Definition get_queryset (user : User.t) (s : Store) : list License.t :=
  if User.is_license_admin user || User.is_staff user
  then licenses s
  else filter (fun l => license_key__customer_email s l (User.email user)) (licenses s).

Definition get_object (user : User.t) (pk : Z) (s : Store) : Result License.t :=
  match QuerySet.get (fun l => License.id l =? pk) (get_queryset user s) with
  | Ok l => Ok l
  | Raise DoesNotExist => Raise Http404
  | Raise e => Raise e
  end.

Definition failure (e : Exn) (s : Store) : Outcome :=
  match e with
  | ValueError msg =>
      (s, Ok (mkResponse HTTP_400_BAD_REQUEST
                (VDict [("success", VBool false); ("error", VStr msg)])))
  | _ => (s, Raise e)
  end.

Definition renew (user : User.t) (pk new_expiration_date : Z) (reason : option string)
    (now : Z) (s : Store) : Outcome :=
  match get_object user pk s with
  | Raise e => (s, Raise e)
  | Ok license_obj =>
      if new_expiration_date <=? now
      then (s, Raise (ValidationError "New expiration date must be in the future."))
      else
        match License.renew license_obj new_expiration_date reason (licenses s) with
        | Ok (license_obj, rows) =>
            (with_licenses rows s,
             Ok (mkResponse HTTP_200_OK
                   (VDict [("success", VBool true);
                           ("message", VStr "License renewed successfully");
                           ("license", VLicense license_obj)])))
        | Raise e => failure e s
        end
  end.

Definition suspend (user : User.t) (pk : Z) (reason : string) (now : Z) (s : Store)
    : Outcome :=
  match get_object user pk s with
  | Raise e => (s, Raise e)
  | Ok license_obj =>
      match License.suspend license_obj reason now (licenses s) with
      | Ok (license_obj, rows) =>
          (with_licenses rows s,
           Ok (mkResponse HTTP_200_OK
                 (VDict [("success", VBool true);
                         ("message", VStr "License suspended successfully");
                         ("license", VLicense license_obj)])))
      | Raise e => failure e s
      end
  end.

Definition resume (user : User.t) (pk : Z) (s : Store) : Outcome :=
  match get_object user pk s with
  | Raise e => (s, Raise e)
  | Ok license_obj =>
      match License.resume license_obj (licenses s) with
      | Ok (license_obj, rows) =>
          (with_licenses rows s,
           Ok (mkResponse HTTP_200_OK
                 (VDict [("success", VBool true);
                         ("message", VStr "License resumed successfully");
                         ("license", VLicense license_obj)])))
      | Raise e => failure e s
      end
  end.

Definition cancel (user : User.t) (pk : Z) (reason : string) (now : Z) (s : Store)
    : Outcome :=
  match get_object user pk s with
  | Raise e => (s, Raise e)
  | Ok license_obj =>
      match License.cancel license_obj reason now (licenses s) with
      | Ok (license_obj, rows) =>
          (with_licenses rows s,
           Ok (mkResponse HTTP_200_OK
                 (VDict [("success", VBool true);
                         ("message", VStr "License cancelled successfully");
                         ("license", VLicense license_obj)])))
      | Raise e => failure e s
      end
  end.

(** "legacy method - kept for backward compatibility": [new_status] is
    [request.data.get('status')]. *)
Definition change_status (user : User.t) (pk : Z) (new_status : option string) (s : Store)
    : Outcome :=
  match get_object user pk s with
  | Raise e => (s, Raise e)
  | Ok license_obj =>
      match match new_status with Some x => Status.of_str x | None => None end with
      | None => (s, Raise (ValidationError "Invalid status value."))
      | Some st =>
          let license_obj := License.set_status license_obj st in
          (with_licenses (License.save license_obj (licenses s)) s,
           Ok (mkResponse HTTP_200_OK (VLicense license_obj)))
      end
  end.

End LicenseViewSet.

Module ActivationViewSet.

Definition get_queryset (user : User.t) (s : Store) : list Activation.t :=
  if User.is_license_admin user || User.is_staff user
  then activations s
  else filter (fun a => license__license_key__customer_email s a (User.email user))
              (activations s).

Definition get_object (user : User.t) (pk : Z) (s : Store) : Result Activation.t :=
  match QuerySet.get (fun a => Activation.id a =? pk) (get_queryset user s) with
  | Ok a => Ok a
  | Raise DoesNotExist => Raise Http404
  | Raise e => Raise e
  end.

Definition deactivate (user : User.t) (pk : Z) (reason : option string) (now : Z)
    (s : Store) : Outcome :=
  match get_object user pk s with
  | Raise e => (s, Raise e)
  | Ok activation =>
      if negb (Activation.is_active activation)
      then (s, Raise (ValidationError "Activation is already deactivated."))
      else
        let '(activation, rows) := Activation.deactivate activation reason now (activations s) in
        (with_activations rows s,
         Ok (mkResponse HTTP_200_OK
               (VDict [("success", VBool true);
                       ("message", VStr "Activation deactivated successfully");
                       ("activation", VActivation activation)])))
  end.

(** [Activation.objects.get(id=activation_id,
    license__license_key__customer_email=request.user.email)] *)
Definition get_owned (user : User.t) (activation_id : Z) (s : Store) : Result Activation.t :=
  QuerySet.get
    (fun a => (Activation.id a =? activation_id)
              && license__license_key__customer_email s a (User.email user))
    (activations s).

(** The body of [for activation_id in activation_ids], threading
    [deactivated_count], [errors] and the store. *)
Fixpoint bulk_deactivate_loop (user : User.t) (reason : string) (now : Z)
    (activation_ids : list Z) (deactivated_count : Z) (errors : list string) (s : Store)
    : Z * list string * Store :=
  match activation_ids with
  | [] => (deactivated_count, errors, s)
  | activation_id :: rest =>
      match get_owned user activation_id s with
      | Ok activation =>
          if Activation.is_active activation
          then
            let '(_, rows) := Activation.deactivate activation (Some reason) now (activations s) in
            bulk_deactivate_loop user reason now rest (deactivated_count + 1) errors
              (with_activations rows s)
          else
            bulk_deactivate_loop user reason now rest deactivated_count
              (errors ++ ["Activation " +:+ str_int activation_id +:+ " is already deactivated"])
              s
      | Raise DoesNotExist =>
          bulk_deactivate_loop user reason now rest deactivated_count
            (errors ++ ["Activation " +:+ str_int activation_id +:+ " not found or access denied"])
            s
      | Raise e =>
          bulk_deactivate_loop user reason now rest deactivated_count
            (errors ++ ["Error deactivating activation " +:+ str_int activation_id
                        +:+ ": " +:+ exn_str e])
            s
      end
  end.

Definition bulk_deactivate (user : User.t) (activation_ids : list Z) (reason : string)
    (now : Z) (s : Store) : Outcome :=
  match activation_ids with
  | [] =>
      (s, Ok (mkResponse HTTP_400_BAD_REQUEST
                (VDict [("success", VBool false);
                        ("error", VStr "No activation IDs provided")])))
  | _ :: _ =>
      let '(deactivated_count, errors, s) :=
        bulk_deactivate_loop user reason now activation_ids 0 [] s in
      (s, Ok (mkResponse HTTP_200_OK
                (VDict [("success", VBool true);
                        ("message", VStr ("Successfully deactivated "
                                          +:+ str_int deactivated_count +:+ " activations"));
                        ("deactivated_count", VInt deactivated_count);
                        ("errors", VList (map VStr errors))])))
  end.

End ActivationViewSet.

Module LicenseServiceViewSet.

(** [LicenseStatusSerializer.validate_license_key] and
    [LicenseActivationSerializer.validate_license_key] *)
Definition validate_license_key (value : string) : Result string :=
  if String.eqb value EmptyString || (String.length value <? 10)%nat
  then Raise (ValidationError "Invalid license key format.")
  else Ok value.

(** [LicenseKey.objects.get(key=license_key, is_active=True)] *)
Definition get_license_key (license_key : string) (s : Store) : Result LicenseKey.t :=
  QuerySet.get (fun k => String.eqb (LicenseKey.key k) license_key
                         && LicenseKey.is_active k) (license_keys s).

Fixpoint map_result {A B : Type} (f : A -> Result B) (l : list A) : Result (list B) :=
  match l with
  | [] => Ok []
  | x :: rest =>
      y <- f x ;;
      ys <- map_result f rest ;;
      Ok (y :: ys)
  end.

(** The licenses [check_status] reports for a resolved license key. *)
Definition check_status_licenses (license_key_obj : LicenseKey.t)
    (product_slug : option string) (now : Z) (s : Store) : list License.t :=
  let licenses :=
    filter (fun l => Status.eqb (License.status l) Status.valid
                     && (now <? License.expiration_date l))
           (LicenseKey_licenses license_key_obj s) in
  if truthy product_slug
  then filter (fun l => product__slug s l
                          (match product_slug with Some x => x | None => EmptyString end)) licenses
  else licenses.

(** [check_status].  [now] is the clock read of the filter; the clock reads
    behind each entry's [is_expired], which come after it, are taken at the
    same instant. *)
Definition check_status (license_key : string) (product_slug instance_identifier : option string)
    (now : Z) (s : Store) : Outcome :=
  match validate_license_key license_key with
  | Raise e => (s, Raise e)
  | Ok license_key =>
  match get_license_key license_key s with
  | Raise DoesNotExist =>
      (s, Ok (mkResponse HTTP_404_NOT_FOUND
                (VDict [("valid", VBool false);
                        ("error", VStr "Invalid or inactive license key")])))
  | Raise e => (s, Raise e)
  | Ok license_key_obj =>
      let licenses := check_status_licenses license_key_obj product_slug now s in
      if negb (QuerySet.exists_ licenses)
      then
        (s, Ok (mkResponse HTTP_404_NOT_FOUND
                  (VDict [("valid", VBool false);
                          ("error", VStr "No valid licenses found for this key")])))
      else
        let instance_info :=
          if truthy instance_identifier
          then
            match QuerySet.first Activation.activated_at
                    (filter (fun a =>
                               existsb (fun l => License.id l =? Activation.license a) licenses
                               && String.eqb (Activation.instance_identifier a)
                                    (match instance_identifier with Some x => x | None => EmptyString end)
                               && Activation.is_active a)
                            (activations s)) with
            | Some activation =>
                VDict [("instance_identifier", VStr (Activation.instance_identifier activation));
                       ("instance_type", VStr (Activation.instance_type activation));
                       ("activated_at", VTime (Activation.activated_at activation))]
            | None => VNone
            end
          else VNone in
        let license_data (license_obj : License.t) : Result Value :=
          product <- QuerySet.get (fun p => Product.id p =? License.product license_obj)
                       (products s) ;;
          Ok (VDict ([("product", VStr (Product.name product));
                      ("product_slug", VStr (Product.slug product));
                      ("status", VStr (Status.str (License.status license_obj)));
                      ("seats", VInt (Z.of_nat (License.seats license_obj)));
                      ("available_seats",
                       VInt (License.available_seats license_obj (activations s)));
                      ("expiration_date", VTime (License.expiration_date license_obj));
                      ("is_expired", VBool (License.is_expired license_obj now))]
                     ++ (if truthy instance_identifier
                         then [("instance_info", instance_info)]
                         else []))) in
        match
          brand <- QuerySet.get (fun b => Brand.id b =? LicenseKey.brand license_key_obj)
                     (brands s) ;;
          rows <- map_result license_data (QuerySet.order_desc License.created_at licenses) ;;
          Ok (mkResponse HTTP_200_OK
                (VDict [("valid", VBool true);
                        ("license_key", VStr license_key);
                        ("customer_email", VStr (LicenseKey.customer_email license_key_obj));
                        ("brand", VStr (Brand.name brand));
                        ("licenses", VList rows)]))
        with
        | Ok r => (s, Ok r)
        | Raise e => (s, Raise e)
        end
  end
  end.

(** [activate] in three parts.  [activate_resolve] resolves the license key
    and the license; [activate_check] adds the lookup of an existing
    activation and the seat check; both only read the store.
    [activate_create] is the [with transaction.atomic()] block and the
    response built after it. *)
Inductive Checked :=
| Respond (r : Result Response)
| Proceed (license_obj : License.t).

Definition activate_resolve (license_key product_slug : string) (now : Z) (s : Store)
    : Checked :=
  match validate_license_key license_key with
  | Raise e => Respond (Raise e)
  | Ok license_key =>
  match get_license_key license_key s with
  | Raise DoesNotExist =>
      Respond (Ok (mkResponse HTTP_404_NOT_FOUND
                     (VDict [("success", VBool false);
                             ("error", VStr "Invalid or inactive license key")])))
  | Raise e => Respond (Raise e)
  | Ok license_key_obj =>
  match QuerySet.get (fun l => product__slug s l product_slug
                               && Status.eqb (License.status l) Status.valid
                               && (now <? License.expiration_date l))
                     (LicenseKey_licenses license_key_obj s) with
  | Raise DoesNotExist =>
      Respond (Ok (mkResponse HTTP_404_NOT_FOUND
                     (VDict [("success", VBool false);
                             ("error", VStr "No valid license found for this product")])))
  | Raise e => Respond (Raise e)
  | Ok license_obj => Proceed license_obj
  end
  end
  end.

Definition activate_check (license_key product_slug instance_identifier : string)
    (now : Z) (s : Store) : Checked :=
  match activate_resolve license_key product_slug now s with
  | Respond r => Respond r
  | Proceed license_obj =>
      match QuerySet.first Activation.activated_at
              (filter (fun a => (Activation.license a =? License.id license_obj)
                                && String.eqb (Activation.instance_identifier a)
                                              instance_identifier
                                && Activation.is_active a)
                      (activations s)) with
      | Some existing_activation =>
          Respond (Ok (mkResponse HTTP_200_OK
                         (VDict [("success", VBool true);
                                 ("message", VStr "License already activated for this instance");
                                 ("activation_id", VInt (Activation.id existing_activation))])))
      | None =>
          if License.available_seats license_obj (activations s) <=? 0
          then
            Respond (Ok (mkResponse HTTP_400_BAD_REQUEST
                           (VDict [("success", VBool false);
                                   ("error", VStr "No available seats for this license")])))
          else Proceed license_obj
      end
  end.

Definition activate_create (instance_identifier instance_type : string)
    (license_obj : License.t) (now : Z) (s : Store) : Outcome :=
  match Activation.create (activation_seq s) now (License.id license_obj)
          instance_identifier instance_type (activations s) with
  | Raise e => (s, Raise e)
  | Ok (activation, rows) =>
      let s := with_new_activation rows s in
      (s, Ok (mkResponse HTTP_200_OK
                (VDict [("success", VBool true);
                        ("message", VStr "License activated successfully");
                        ("activation_id", VInt (Activation.id activation));
                        ("available_seats",
                         VInt (License.available_seats license_obj (activations s) - 1))])))
  end.

Definition activate (license_key product_slug instance_identifier instance_type : string)
    (now : Z) (s : Store) : Outcome :=
  match activate_check license_key product_slug instance_identifier now s with
  | Respond r => (s, r)
  | Proceed license_obj => activate_create instance_identifier instance_type license_obj now s
  end.

(** [provision].  The request user is [None] for an anonymous request.
    [request.data] is read field by field; a field that is absent is [None].
    The primary keys of the two rows the view may insert and the value of
    [uuid.uuid4()] for a new key are what the store hands out ([Fresh]). *)
Record ProvisionData := mkProvisionData {
  customer_email : option string;
  brand_id : option Z;
  product_id : option Z;
  seats : option Z;
  expiration_date : option Z
}.

Record Fresh := mkFresh {
  license_key_pk : Z;
  uuid4 : string;
  license_pk : Z
}.

Inductive Provisioned :=
| Denied (detail : string)            (* raise PermissionDenied(detail) *)
| Answered (r : Result Response).

Definition HTTP_201_CREATED : Z := 201.

(** Truthiness of an optional integer: [None] and [0] are falsy. *)
Definition truthy_int (o : option Z) : bool :=
  match o with
  | Some n => negb (n =? 0)
  | None => false
  end.

(** [LicenseKey.objects.get_or_create(customer_email=, brand=,
    defaults={'is_active': True})]; a created row takes [uuid4] as its key,
    which the store requires to be unique. *)
Definition get_or_create_license_key (email : string) (brand : Brand.t) (fresh : Fresh)
    (s : Store) : Result (LicenseKey.t * list LicenseKey.t) :=
  match QuerySet.get (fun k => String.eqb (LicenseKey.customer_email k) email
                               && (LicenseKey.brand k =? Brand.id brand))
                     (license_keys s) with
  | Ok license_key => Ok (license_key, license_keys s)
  | Raise DoesNotExist =>
      if existsb (fun k => String.eqb (LicenseKey.key k) (uuid4 fresh)) (license_keys s)
      then Raise IntegrityError
      else
        let license_key :=
          LicenseKey.mk (license_key_pk fresh) (uuid4 fresh) email (Brand.id brand) true in
        Ok (license_key, license_keys s ++ [license_key])
  | Raise e => Raise e
  end.

Definition provision (user : option User.t) (data : ProvisionData) (fresh : Fresh)
    (now : Z) (s : Store) : Store * Provisioned :=
  if negb (match user with
           | Some u => User.is_license_admin u || User.is_staff u
           | None => false
           end)
  then (s, Denied "Only license admins can provision licenses.")
  else
    match customer_email data, brand_id data, product_id data, expiration_date data with
    | Some email, Some brand_id_, Some product_id_, Some expiration =>
        if negb (truthy (customer_email data) && truthy_int (brand_id data)
                 && truthy_int (product_id data))
        then (s, Answered (Raise (ValidationError
               "Missing required fields: customer_email, brand_id, product_id, expiration_date")))
        else
          match
            brand <- QuerySet.get (fun b => (Brand.id b =? brand_id_) && Brand.is_active b)
                       (brands s) ;;
            product <- QuerySet.get (fun p => (Product.id p =? product_id_)
                                              && (Product.brand p =? Brand.id brand)
                                              && Product.is_active p) (products s) ;;
            Ok (brand, product)
          with
          | Raise DoesNotExist =>
              (s, Answered (Raise (ValidationError "Invalid brand or product")))
          | Raise e => (s, Answered (Raise e))
          | Ok (brand, product) =>
              match get_or_create_license_key email brand fresh s with
              | Raise e => (s, Answered (Raise e))
              | Ok (license_key, keys) =>
                  let seats_ := match seats data with Some n => n | None => 1 end in
                  (* PositiveIntegerField: the store refuses a negative value *)
                  if seats_ <? 0
                  then (s, Answered (Raise IntegrityError))
                  else
                    let license_obj :=
                      License.mk (license_pk fresh) (LicenseKey.id license_key)
                        (Product.id product) Status.valid (Z.to_nat seats_) expiration
                        None 0 EmptyString EmptyString None None now in
                    (mkStore (brands s) (products s) keys (licenses s ++ [license_obj])
                       (activations s) (activation_seq s),
                     Answered
                       (Ok (mkResponse HTTP_201_CREATED
                              (VDict [("success", VBool true);
                                      ("license_key", VStr (LicenseKey.key license_key));
                                      ("license_id", VInt (License.id license_obj));
                                      ("message", VStr "License provisioned successfully")]))))
              end
          end
    | _, _, _, _ =>
        (s, Answered (Raise (ValidationError
           "Missing required fields: customer_email, brand_id, product_id, expiration_date")))
    end.

End LicenseServiceViewSet.

(** ** urls.py: the actions of the view sets

    The nine [@action] methods that take validated request data and answer
    with a [Response].  [provision], which may also refuse with
    [PermissionDenied], is above; the router's other routes, the generic
    endpoints of the five resources, follow under [router]. *)

Module urls.

Inductive Request :=
| licenses_renew (user : User.t) (pk new_expiration_date : Z) (reason : option string)
| licenses_suspend (user : User.t) (pk : Z) (reason : string)
| licenses_resume (user : User.t) (pk : Z)
| licenses_cancel (user : User.t) (pk : Z) (reason : string)
| licenses_change_status (user : User.t) (pk : Z) (new_status : option string)
| activations_deactivate (user : User.t) (pk : Z) (reason : option string)
| activations_bulk_deactivate (user : User.t) (activation_ids : list Z) (reason : string)
| service_check_status (license_key : string) (product_slug instance_identifier : option string)
| service_activate (license_key product_slug instance_identifier instance_type : string).

Definition dispatch (req : Request) (now : Z) (s : Store) : Outcome :=
  match req with
  | licenses_renew user pk new_expiration_date reason =>
      LicenseViewSet.renew user pk new_expiration_date reason now s
  | licenses_suspend user pk reason => LicenseViewSet.suspend user pk reason now s
  | licenses_resume user pk => LicenseViewSet.resume user pk s
  | licenses_cancel user pk reason => LicenseViewSet.cancel user pk reason now s
  | licenses_change_status user pk new_status =>
      LicenseViewSet.change_status user pk new_status s
  | activations_deactivate user pk reason =>
      ActivationViewSet.deactivate user pk reason now s
  | activations_bulk_deactivate user activation_ids reason =>
      ActivationViewSet.bulk_deactivate user activation_ids reason now s
  | service_check_status license_key product_slug instance_identifier =>
      LicenseServiceViewSet.check_status license_key product_slug instance_identifier now s
  | service_activate license_key product_slug instance_identifier instance_type =>
      LicenseServiceViewSet.activate license_key product_slug instance_identifier
        instance_type now s
  end.

End urls.

(** ** Request handlers running in parallel

    Each handler runs its view from top to bottom; the store serialises the
    individual queries, but nothing holds the store between the seat check of
    [activate] and its [transaction.atomic()] block, so another handler may
    run in between.  A schedule names, step by step, which handler moves. *)

Module Concurrent.

Record ActivateRequest := mkRequest {
  license_key : string;
  product_slug : string;
  instance_identifier : string;
  instance_type : string
}.

Inductive Handler :=
| Arrived (req : ActivateRequest)
| SeatChecked (req : ActivateRequest) (license_obj : License.t)
| Finished (r : Result Response).

Definition step (now : Z) (h : Handler) (s : Store) : Handler * Store :=
  match h with
  | Arrived req =>
      match LicenseServiceViewSet.activate_check (license_key req) (product_slug req)
              (instance_identifier req) now s with
      | LicenseServiceViewSet.Respond r => (Finished r, s)
      | LicenseServiceViewSet.Proceed license_obj => (SeatChecked req license_obj, s)
      end
  | SeatChecked req license_obj =>
      let '(s, r) :=
        LicenseServiceViewSet.activate_create (instance_identifier req) (instance_type req)
          license_obj now s in
      (Finished r, s)
  | Finished r => (Finished r, s)
  end.

Fixpoint step_nth (now : Z) (i : nat) (handlers : list Handler) (s : Store)
    : list Handler * Store :=
  match handlers, i with
  | [], _ => ([], s)
  | h :: rest, O => let '(h, s) := step now h s in (h :: rest, s)
  | h :: rest, S j => let '(rest, s) := step_nth now j rest s in (h :: rest, s)
  end.

Fixpoint run (now : Z) (schedule : list nat) (handlers : list Handler) (s : Store)
    : list Handler * Store :=
  match schedule with
  | [] => (handlers, s)
  | i :: schedule =>
      let '(handlers, s) := step_nth now i handlers s in
      run now schedule handlers s
  end.

(** A handler that answered 200 with ['success': True]. *)
Definition succeeded (h : Handler) : bool :=
  match h with
  | Finished (Ok (mkResponse 200 (VDict (("success", VBool true) :: _)))) => true
  | _ => false
  end.

Definition active_activations (license_obj : License.t) (s : Store) : Z :=
  QuerySet.count (filter Activation.is_active (License.activations license_obj (activations s))).

End Concurrent.

(** ** Fixtures (tests/conftest.py), with days as the unit of time *)

Module conftest.

Definition now : Z := 20000.

Definition admin_user : User.t := User.mk "testadmin" "test@example.com" false true.

Definition brand : Brand.t := Brand.mk 1 "Test Brand" "test-brand" true.

Definition product : Product.t := Product.mk 1 "Test Product" "test-product" 1 true.

Definition license_key : LicenseKey.t :=
  LicenseKey.mk 1 "TEST-LICENSE-KEY-12345" "test@example.com" 1 true.

Definition license_with (status : Status.t) (seats : nat) : License.t :=
  License.mk 1 1 1 status seats (now + 365) None 0 EmptyString EmptyString None None now.

Definition license : License.t := license_with Status.valid 5.

Definition activation_with (pk : Z) (instance : string) (is_active : bool) : Activation.t :=
  Activation.mk pk 1 instance "website" is_active now
    (if is_active then None else Some now)
    (if is_active then EmptyString else "Testing deactivation").

Definition activation : Activation.t := activation_with 1 "https://test.example.com" true.

Definition store_with (license_obj : License.t) (rows : list Activation.t) : Store :=
  mkStore [brand] [product] [license_key] [license_obj] rows
    (1 + Z.of_nat (List.length rows)).

End conftest.

(** ** Predicates of the specification *)

Module Spec.

(** Entitlement as the views test it: [status='valid'] and
    [expiration_date__gt=timezone.now()]. *)
Definition entitled (now : Z) (l : License.t) : bool :=
  Status.eqb (License.status l) Status.valid && (now <? License.expiration_date l).

(** Entitlement in the specification's words: status valid or renewed, and
    expiration in the future. *)
Definition entitled_spec (now : Z) (l : License.t) : bool :=
  Status.is_in (License.status l) [Status.valid; Status.renewed]
  && (now <? License.expiration_date l).

(** The statuses the specification's transition table lets [renew] start from. *)
Definition renew_legal_spec (st : Status.t) : bool :=
  Status.is_in st [Status.valid; Status.expired; Status.renewed].

(** The statuses the specification's transition table lets [cancel] start from. *)
Definition cancel_legal_spec (st : Status.t) : bool :=
  negb (Status.eqb st Status.cancelled).

(** The activations of a license that hold a seat, counted in one pass. *)
Definition active_count (l : License.t) (table : list Activation.t) : nat :=
  List.length (filter (fun a => (Activation.license a =? License.id l)
                                && Activation.is_active a) table).

(** The key of [Activation.Meta.unique_together]. *)
Definition pair (a : Activation.t) : Z * string :=
  (Activation.license a, Activation.instance_identifier a).

(** The fields an [Activation.deactivate] writes. *)
Definition deactivated (a : Activation.t) (reason : string) (now : Z) : Activation.t :=
  Activation.mk (Activation.id a) (Activation.license a) (Activation.instance_identifier a)
    (Activation.instance_type a) false (Activation.activated_at a) (Some now) reason.

(** A lifecycle operation on license [pk] moving its stored status from
    [before] to [after] under the guard of its model method. *)
Definition lifecycle_transition (req : urls.Request) (pk : Z) (before after : Status.t)
    : Prop :=
  match req with
  | urls.licenses_renew _ pk' _ _ =>
      pk' = pk /\ (before = Status.valid \/ before = Status.expired)
      /\ after = Status.renewed
  | urls.licenses_suspend _ pk' _ =>
      pk' = pk /\ (before = Status.valid \/ before = Status.renewed)
      /\ after = Status.suspended
  | urls.licenses_resume _ pk' =>
      pk' = pk /\ before = Status.suspended /\ after = Status.valid
  | urls.licenses_cancel _ pk' _ =>
      pk' = pk /\ before <> Status.cancelled /\ before <> Status.expired
      /\ after = Status.cancelled
  | _ => False
  end.

(** A [change_status] request on license [pk] writing the status [after]
    that its request string names. *)
Definition legacy_write (req : urls.Request) (pk : Z) (after : Status.t) : Prop :=
  match req with
  | urls.licenses_change_status _ pk' (Some x) => pk' = pk /\ Status.of_str x = Some after
  | _ => False
  end.

End Spec.

(** ** More of models.py and serializers.py *)

(** [sum(...)] over Python ints. *)
Definition sum (l : list Z) : Z := fold_left Z.add l 0.

(** [LicenseKey.get_active_licenses] *)
Definition LicenseKey_get_active_licenses (k : LicenseKey.t) (s : Store) : list License.t :=
  filter (fun l => Status.eqb (License.status l) Status.valid) (LicenseKey_licenses k s).

(** [LicenseKey.get_total_seats] *)
Definition LicenseKey_get_total_seats (k : LicenseKey.t) (s : Store) : Z :=
  sum (map (fun l => Z.of_nat (License.seats l)) (LicenseKey_licenses k s)).

Module LicenseKeyDetailSerializer.

Definition get_total_seats (obj : LicenseKey.t) (s : Store) : Z :=
  LicenseKey_get_total_seats obj s.

Definition get_active_seats (obj : LicenseKey.t) (s : Store) : Z :=
  sum (map (fun l => License.available_seats l (activations s)) (LicenseKey_licenses obj s)).

End LicenseKeyDetailSerializer.

(** ** Sequences of lifecycle calls on one license instance *)

Module Lifecycle.

Inductive Call :=
| renew (new_expiration_date : Z) (reason : option string)
| suspend (reason : string) (now : Z)
| resume
| cancel (reason : string) (now : Z).

Definition call (c : Call) (self : License.t) (objects : list License.t)
    : Result (License.t * list License.t) :=
  match c with
  | renew new_expiration_date reason => License.renew self new_expiration_date reason objects
  | suspend reason now => License.suspend self reason now objects
  | resume => License.resume self objects
  | cancel reason now => License.cancel self reason now objects
  end.

(** A caller that makes the calls in turn and goes on with the instance as
    it is when a call raises. *)
Fixpoint run (calls : list Call) (self : License.t) (objects : list License.t)
    : License.t * list License.t :=
  match calls with
  | [] => (self, objects)
  | c :: rest =>
      match call c self objects with
      | Ok (self', objects') => run rest self' objects'
      | Raise _ => run rest self objects
      end
  end.

End Lifecycle.

(** The calls a sequence of lifecycle calls has to contain, in this order,
    before it can renew a license whose stored status is [st]: the guards of
    [renew], [suspend] and [resume] read backwards from a successful
    [renew]. *)
Definition renewal_path (st : Status.t) (calls : list Lifecycle.Call) : Prop :=
  match st with
  | Status.valid | Status.expired =>
      exists c3 e w c4, calls = c3 ++ Lifecycle.renew e w :: c4
  | Status.suspended =>
      exists c2 c3 e w c4,
        calls = c2 ++ Lifecycle.resume :: c3 ++ Lifecycle.renew e w :: c4
  | Status.renewed =>
      exists c1 r n c2 c3 e w c4,
        calls = c1 ++ Lifecycle.suspend r n :: c2 ++ Lifecycle.resume
                     :: c3 ++ Lifecycle.renew e w :: c4
  | Status.cancelled | Status.pending => False
  end.

(** A string made of graphic ASCII characters (codes 33 to 126): it has
    no surrounding whitespace and no null character, and its [len] is its
    number of bytes. *)
Definition graphic_ascii (value : string) : bool :=
  forallb (fun c => (33 <=? Ascii.nat_of_ascii c)%nat && (Ascii.nat_of_ascii c <=? 126)%nat)
          (list_ascii_of_string value).

(** A value that a serializer's [CharField(max_length=...)] hands on as it
    was sent: graphic, not blank, and within the length. *)
Definition char_field (max_length : nat) (value : string) : bool :=
  graphic_ascii value
  && (1 <=? String.length value)%nat && (String.length value <=? max_length)%nat.

(** The same for a field with [required=False], which may be absent. *)
Definition optional_char_field (max_length : nat) (value : option string) : bool :=
  match value with
  | Some v => char_field max_length v
  | None => true
  end.

(** ** Invariants of the store and readers of a response *)

Module Invariant.

(** No license has more active activations than seats. *)
Definition seats_respected (s : Store) : Prop :=
  forall l, In l (licenses s) ->
            (Spec.active_count l (activations s) <= License.seats l)%nat.

(** Primary keys of the activations table. *)
Definition activation_pks (s : Store) : list Z := map Activation.id (activations s).

(** Primary keys of the licenses table. *)
Definition license_pks (s : Store) : list Z := map License.id (licenses s).

(** Requests served one after another, each at its own time. *)
Fixpoint serve (requests : list (urls.Request * Z)) (s : Store) : Store :=
  match requests with
  | [] => s
  | (req, now) :: rest => serve rest (fst (urls.dispatch req now s))
  end.

End Invariant.

(** [d[name]] of a response dictionary. *)
Definition item (name : string) (v : Value) : option Value :=
  match v with
  | VDict d =>
      match find (fun entry => String.eqb (fst entry) name) d with
      | Some entry => Some (snd entry)
      | None => None
      end
  | _ => None
  end.

(** ** The generic endpoints of the five resources

    [BrandViewSet], [ProductViewSet], [LicenseKeyViewSet], [LicenseViewSet]
    and [ActivationViewSet] are [ModelViewSet]s registered with the router
    of urls.py: besides their own actions they serve list, retrieve, create,
    update, partial update and delete through the model serializer of their
    resource (serializers.py).  A request carries the serializer's writable
    fields, each present or absent and already of its field's type; what a
    serializer declares read-only is ignored.  These endpoints are modelled
    by what they write: the store they leave behind, or the exception that
    escapes, which leaves the store as it was. *)

Definition absent {A : Type} (o : option A) : bool :=
  match o with
  | Some _ => false
  | None => true
  end.

Definition given {A : Type} (o : option A) (default : A) : A :=
  match o with
  | Some x => x
  | None => default
  end.

(** [get_object_or_404] over the view set's queryset. *)
Definition get_object_or_404 {A : Type} (pk_of : A -> Z) (queryset : list A) (pk : Z)
    : Result A :=
  match QuerySet.get (fun r => pk_of r =? pk) queryset with
  | Ok r => Ok r
  | Raise DoesNotExist => Raise Http404
  | Raise e => Raise e
  end.

(** [instance.save()] of an instance read from its table. *)
Definition save_over {A : Type} (pk_of : A -> Z) (self : A) (objects : list A) : list A :=
  if existsb (fun r => pk_of r =? pk_of self) objects
  then map (fun r => if pk_of r =? pk_of self then self else r) objects
  else objects ++ [self].

Definition with_brands (rows : list Brand.t) (s : Store) : Store :=
  mkStore rows (products s) (license_keys s) (licenses s) (activations s) (activation_seq s).

Definition with_products (rows : list Product.t) (s : Store) : Store :=
  mkStore (brands s) rows (license_keys s) (licenses s) (activations s) (activation_seq s).

Definition with_license_keys (rows : list LicenseKey.t) (s : Store) : Store :=
  mkStore (brands s) (products s) rows (licenses s) (activations s) (activation_seq s).

Module BrandViewSet.

Definition get_queryset (user : User.t) (s : Store) : list Brand.t :=
  if User.is_license_admin user || User.is_staff user
  then brands s
  else filter Brand.is_active (brands s).

Definition get_object (user : User.t) (pk : Z) (s : Store) : Result Brand.t :=
  get_object_or_404 Brand.id (get_queryset user s) pk.

End BrandViewSet.

Module ProductViewSet.

Definition get_queryset (user : User.t) (s : Store) : list Product.t :=
  if User.is_license_admin user || User.is_staff user
  then products s
  else filter (fun p => Product.is_active p
                        && existsb (fun b => (Brand.id b =? Product.brand p)
                                             && Brand.is_active b) (brands s))
              (products s).

Definition get_object (user : User.t) (pk : Z) (s : Store) : Result Product.t :=
  get_object_or_404 Product.id (get_queryset user s) pk.

End ProductViewSet.

Module LicenseKeyViewSet.

Definition get_queryset (user : User.t) (s : Store) : list LicenseKey.t :=
  if User.is_license_admin user || User.is_staff user
  then license_keys s
  else filter (fun k => String.eqb (LicenseKey.customer_email k) (User.email user))
              (license_keys s).

Definition get_object (user : User.t) (pk : Z) (s : Store) : Result LicenseKey.t :=
  get_object_or_404 LicenseKey.id (get_queryset user s) pk.

End LicenseKeyViewSet.

(** [instance.delete()]: the row goes, and with it every row that refers
    to it through a foreign key, all of which models.py declares
    [on_delete=models.CASCADE]. *)
Module Delete.

(** The licenses [doomed] picks go, and their activations with them. *)
Definition of_licenses (doomed : License.t -> bool) (s : Store) : Store :=
  mkStore (brands s) (products s) (license_keys s)
    (filter (fun l => negb (doomed l)) (licenses s))
    (filter (fun a => negb (existsb (fun l => doomed l
                                              && (License.id l =? Activation.license a))
                                    (licenses s)))
            (activations s))
    (activation_seq s).

Definition activation (self : Activation.t) (s : Store) : Store :=
  with_activations
    (filter (fun a => negb (Activation.id a =? Activation.id self)) (activations s)) s.

Definition license (self : License.t) (s : Store) : Store :=
  of_licenses (fun l => License.id l =? License.id self) s.

Definition license_key (self : LicenseKey.t) (s : Store) : Store :=
  let s := of_licenses (fun l => License.license_key l =? LicenseKey.id self) s in
  with_license_keys
    (filter (fun k => negb (LicenseKey.id k =? LicenseKey.id self)) (license_keys s)) s.

Definition product (self : Product.t) (s : Store) : Store :=
  let s := of_licenses (fun l => License.product l =? Product.id self) s in
  with_products (filter (fun p => negb (Product.id p =? Product.id self)) (products s)) s.

Definition brand (self : Brand.t) (s : Store) : Store :=
  let of_brand_p := fun p => Product.brand p =? Brand.id self in
  let of_brand_k := fun k => LicenseKey.brand k =? Brand.id self in
  let s :=
    of_licenses
      (fun l => existsb (fun p => of_brand_p p && (Product.id p =? License.product l))
                        (products s)
                || existsb (fun k => of_brand_k k && (LicenseKey.id k =? License.license_key l))
                           (license_keys s)) s in
  mkStore (filter (fun b => negb (Brand.id b =? Brand.id self)) (brands s))
    (filter (fun p => negb (of_brand_p p)) (products s))
    (filter (fun k => negb (of_brand_k k)) (license_keys s))
    (licenses s) (activations s) (activation_seq s).

End Delete.

(** *** serializers.py: the model serializers *)

Module BrandSerializer.

(** Writable: name, slug, description, is_active.  [description] is not a
    column of [Brand.t]. *)
Record Data := mkData {
  name : option string;
  slug : option string;
  is_active : option bool
}.

(** [is_valid(raise_exception=True)].  [Brand.name] and [Brand.slug] are
    declared [unique=True]; the serializer checks them against the other
    rows of the table. *)
Definition is_valid (partial : bool) (instance : option Brand.t) (data : Data) (now : Z)
    (s : Store) : Result Data :=
  let others :=
    match instance with
    | Some b => filter (fun r => negb (Brand.id r =? Brand.id b)) (brands s)
    | None => brands s
    end in
  if negb partial && (absent (name data) || absent (slug data))
  then Raise (ValidationError "This field is required.")
  else if match name data with
          | Some n => existsb (fun r => String.eqb (Brand.name r) n) others
          | None => false
          end
  then Raise (ValidationError "brand with this name already exists.")
  else if match slug data with
          | Some x => existsb (fun r => String.eqb (Brand.slug r) x) others
          | None => false
          end
  then Raise (ValidationError "brand with this slug already exists.")
  else Ok data.

(** [Brand.objects.create] with the validated data. *)
Definition create (validated : Data) (pk : Z) (now : Z) (s : Store) : Result Store :=
  let instance :=
    Brand.mk pk (given (name validated) EmptyString) (given (slug validated) EmptyString)
      (given (is_active validated) true) in
  Ok (with_brands (brands s ++ [instance]) s).

(** [setattr(instance, attr, value)] for each validated field, then
    [instance.save()]. *)
Definition update (instance : Brand.t) (validated : Data) (s : Store) : Result Store :=
  let instance :=
    Brand.mk (Brand.id instance)
      (given (name validated) (Brand.name instance))
      (given (slug validated) (Brand.slug instance))
      (given (is_active validated) (Brand.is_active instance)) in
  Ok (with_brands (save_over Brand.id instance (brands s)) s).

End BrandSerializer.

Module ProductSerializer.

(** Writable: name, slug, brand_id, description, is_active. *)
Record Data := mkData {
  name : option string;
  slug : option string;
  brand_id : option Z;
  is_active : option bool
}.

Definition is_valid (partial : bool) (instance : option Product.t) (data : Data) (now : Z)
    (s : Store) : Result Data :=
  if negb partial && (absent (name data) || absent (slug data) || absent (brand_id data))
  then Raise (ValidationError "This field is required.")
  else Ok data.

(** What the store checks of a product row: its brand exists, and
    [Meta.unique_together = ['brand', 'slug']] against the other rows. *)
Definition accepted (instance : Product.t) (s : Store) : bool :=
  existsb (fun b => Brand.id b =? Product.brand instance) (brands s)
  && negb (existsb (fun r => negb (Product.id r =? Product.id instance)
                             && (Product.brand r =? Product.brand instance)
                             && String.eqb (Product.slug r) (Product.slug instance))
                   (products s)).

Definition create (validated : Data) (pk : Z) (now : Z) (s : Store) : Result Store :=
  match brand_id validated with
  | None => Raise IntegrityError
  | Some brand =>
      let instance :=
        Product.mk pk (given (name validated) EmptyString)
          (given (slug validated) EmptyString) brand (given (is_active validated) true) in
      if accepted instance s
      then Ok (with_products (products s ++ [instance]) s)
      else Raise IntegrityError
  end.

Definition update (instance : Product.t) (validated : Data) (s : Store) : Result Store :=
  let instance :=
    Product.mk (Product.id instance)
      (given (name validated) (Product.name instance))
      (given (slug validated) (Product.slug instance))
      (given (brand_id validated) (Product.brand instance))
      (given (is_active validated) (Product.is_active instance)) in
  if accepted instance s
  then Ok (with_products (save_over Product.id instance (products s)) s)
  else Raise IntegrityError.

End ProductSerializer.

Module LicenseKeySerializer.

(** Writable: customer_email, brand_id, is_active; [key] is read-only. *)
Record Data := mkData {
  customer_email : option string;
  brand_id : option Z;
  is_active : option bool
}.

Definition is_valid (partial : bool) (instance : option LicenseKey.t) (data : Data)
    (now : Z) (s : Store) : Result Data :=
  if negb partial && (absent (customer_email data) || absent (brand_id data))
  then Raise (ValidationError "This field is required.")
  else Ok data.

(** What the store checks of a license key row: its brand exists, and
    [key] is unique. *)
Definition accepted (instance : LicenseKey.t) (s : Store) : bool :=
  existsb (fun b => Brand.id b =? LicenseKey.brand instance) (brands s)
  && negb (existsb (fun r => negb (LicenseKey.id r =? LicenseKey.id instance)
                             && String.eqb (LicenseKey.key r) (LicenseKey.key instance))
                   (license_keys s)).

(** The new row takes [uuid.uuid4()] as its key. *)
Definition create (validated : Data) (fresh : Z * string) (now : Z) (s : Store)
    : Result Store :=
  match brand_id validated with
  | None => Raise IntegrityError
  | Some brand =>
      let instance :=
        LicenseKey.mk (fst fresh) (snd fresh) (given (customer_email validated) EmptyString)
          brand (given (is_active validated) true) in
      if accepted instance s
      then Ok (with_license_keys (license_keys s ++ [instance]) s)
      else Raise IntegrityError
  end.

Definition update (instance : LicenseKey.t) (validated : Data) (s : Store) : Result Store :=
  let instance :=
    LicenseKey.mk (LicenseKey.id instance) (LicenseKey.key instance)
      (given (customer_email validated) (LicenseKey.customer_email instance))
      (given (brand_id validated) (LicenseKey.brand instance))
      (given (is_active validated) (LicenseKey.is_active instance)) in
  if accepted instance s
  then Ok (with_license_keys (save_over LicenseKey.id instance (license_keys s)) s)
  else Raise IntegrityError.

End LicenseKeySerializer.

Module LicenseSerializer.

(** Writable: license_key_id, product_id, status, seats, expiration_date.
    The lifecycle fields (original expiration, renewal count, suspension and
    cancellation data) are declared [ReadOnlyField]; [status] is not. *)
Record Data := mkData {
  license_key_id : option Z;
  product_id : option Z;
  status : option Status.t;
  seats : option Z;
  expiration_date : option Z
}.

(** [validate] *)
Definition validate (data : Data) (now : Z) : Result Data :=
  if match expiration_date data with
     | Some d => d <=? now
     | None => false
     end
  then Raise (ValidationError "Expiration date must be in the future.")
  else if match seats data with
          | Some n => n <=? 0
          | None => false
          end
  then Raise (ValidationError "Seats must be a positive number.")
  else Ok data.

(** [is_valid(raise_exception=True)]: the fields first ([seats] carries the
    model's [MinValueValidator(1)]), then [validate]. *)
Definition is_valid (partial : bool) (instance : option License.t) (data : Data) (now : Z)
    (s : Store) : Result Data :=
  if negb partial && (absent (license_key_id data) || absent (product_id data)
                      || absent (expiration_date data))
  then Raise (ValidationError "This field is required.")
  else if match seats data with
          | Some n => n <? 1
          | None => false
          end
  then Raise (ValidationError "Ensure this value is greater than or equal to 1.")
  else validate data now.

(** What the store checks of a license row: its license key and its product
    exist. *)
Definition accepted (instance : License.t) (s : Store) : bool :=
  existsb (fun k => LicenseKey.id k =? License.license_key instance) (license_keys s)
  && existsb (fun p => Product.id p =? License.product instance) (products s).

(** [License.objects.create] with the validated data: what the request
    leaves out takes the model's default. *)
Definition create (validated : Data) (pk : Z) (now : Z) (s : Store) : Result Store :=
  match license_key_id validated, product_id validated, expiration_date validated with
  | Some key_id, Some prod_id, Some expiration =>
      let seats_ := given (seats validated) 1 in
      let instance :=
        License.mk pk key_id prod_id (given (status validated) Status.valid)
          (Z.to_nat seats_) expiration None 0 EmptyString EmptyString None None now in
      if accepted instance s && (0 <=? seats_)
      then Ok (with_licenses (licenses s ++ [instance]) s)
      else Raise IntegrityError
  | _, _, _ => Raise IntegrityError
  end.

(** [setattr(instance, attr, value)] for each validated field, then
    [instance.save()]: the status the request names is stored as it is. *)
Definition update (instance : License.t) (validated : Data) (s : Store) : Result Store :=
  let seats_ := given (seats validated) (Z.of_nat (License.seats instance)) in
  let instance :=
    License.mk (License.id instance)
      (given (license_key_id validated) (License.license_key instance))
      (given (product_id validated) (License.product instance))
      (given (status validated) (License.status instance))
      (Z.to_nat seats_)
      (given (expiration_date validated) (License.expiration_date instance))
      (License.original_expiration_date instance) (License.renewal_count instance)
      (License.suspension_reason instance) (License.cancellation_reason instance)
      (License.cancelled_at instance) (License.suspended_at instance)
      (License.created_at instance) in
  if accepted instance s && (0 <=? seats_)
  then Ok (with_licenses (License.save instance (licenses s)) s)
  else Raise IntegrityError.

End LicenseSerializer.

Module ActivationSerializer.

(** Writable: license_id, instance_identifier, instance_type, is_active,
    deactivation_reason. *)
Record Data := mkData {
  license_id : option Z;
  instance_identifier : option string;
  instance_type : option string;
  is_active : option bool;
  deactivation_reason : option string
}.

(** [validate] *)
Definition validate (data : Data) (s : Store) : Result Data :=
  if LicenseServiceViewSet.truthy_int (license_id data) && truthy (instance_identifier data)
     && QuerySet.exists_
          (filter (fun a => (Activation.license a =? given (license_id data) 0)
                            && String.eqb (Activation.instance_identifier a)
                                 (given (instance_identifier data) EmptyString)
                            && Activation.is_active a)
                  (activations s))
  then Raise (ValidationError
                "An active activation already exists for this license and instance.")
  else Ok data.

Definition is_valid (partial : bool) (instance : option Activation.t) (data : Data)
    (now : Z) (s : Store) : Result Data :=
  if negb partial && (absent (license_id data) || absent (instance_identifier data))
  then Raise (ValidationError "This field is required.")
  else validate data s.

(** What the store checks of an activation row: its license exists, and
    [Meta.unique_together = ['license', 'instance_identifier']] against the
    other rows, active or not. *)
Definition accepted (instance : Activation.t) (s : Store) : bool :=
  existsb (fun l => License.id l =? Activation.license instance) (licenses s)
  && negb (existsb (fun r => negb (Activation.id r =? Activation.id instance)
                             && (Activation.license r =? Activation.license instance)
                             && String.eqb (Activation.instance_identifier r)
                                  (Activation.instance_identifier instance))
                   (activations s)).

(** The new row takes its primary key from the table's sequence. *)
Definition create (validated : Data) (fresh : unit) (now : Z) (s : Store) : Result Store :=
  match license_id validated with
  | None => Raise IntegrityError
  | Some license =>
      let instance :=
        Activation.mk (activation_seq s) license
          (given (instance_identifier validated) EmptyString)
          (given (instance_type validated) EmptyString)
          (given (is_active validated) true)
          now None
          (given (deactivation_reason validated) EmptyString) in
      if accepted instance s
      then Ok (with_new_activation (activations s ++ [instance]) s)
      else Raise IntegrityError
  end.

Definition update (instance : Activation.t) (validated : Data) (s : Store) : Result Store :=
  let instance :=
    Activation.mk (Activation.id instance)
      (given (license_id validated) (Activation.license instance))
      (given (instance_identifier validated) (Activation.instance_identifier instance))
      (given (instance_type validated) (Activation.instance_type instance))
      (given (is_active validated) (Activation.is_active instance))
      (Activation.activated_at instance) (Activation.deactivated_at instance)
      (given (deactivation_reason validated) (Activation.deactivation_reason instance)) in
  if accepted instance s
  then Ok (with_activations (Activation.save instance (activations s)) s)
  else Raise IntegrityError.

End ActivationSerializer.

(** *** rest_framework's [ModelViewSet]: the create, update and destroy
    mixins, over a view set's [get_object] and its serializer *)

Module ModelViewSet.

Section Mixins.

Context {Row Data Fresh : Type}.
Variable get_object : User.t -> Z -> Store -> Result Row.
Variable is_valid : bool -> option Row -> Data -> Z -> Store -> Result Data.
Variable serializer_create : Data -> Fresh -> Z -> Store -> Result Store.
Variable serializer_update : Row -> Data -> Store -> Result Store.
Variable delete : Row -> Store -> Store.

Definition create (user : User.t) (data : Data) (fresh : Fresh) (now : Z) (s : Store)
    : Result Store :=
  validated <- is_valid false None data now s ;;
  serializer_create validated fresh now s.

(** [update], and [partial_update], which is [update] with [partial=True]. *)
Definition update (partial : bool) (user : User.t) (pk : Z) (data : Data) (now : Z)
    (s : Store) : Result Store :=
  instance <- get_object user pk s ;;
  validated <- is_valid partial (Some instance) data now s ;;
  serializer_update instance validated s.

Definition destroy (user : User.t) (pk : Z) (s : Store) : Result Store :=
  instance <- get_object user pk s ;;
  Ok (delete instance s).

End Mixins.

End ModelViewSet.

(** ** urls.py: every route of the router *)

Module router.

(** The five resources registered with a [ModelViewSet]. *)
Inductive Resource := brand | product | licensekey | license | activation.

Inductive Route :=
| api_root (user : User.t)
| list_ (resource : Resource) (user : User.t)
| retrieve (resource : Resource) (user : User.t) (pk : Z)
| destroy (resource : Resource) (user : User.t) (pk : Z)
| brand_create (user : User.t) (data : BrandSerializer.Data) (pk : Z)
| brand_update (partial : bool) (user : User.t) (pk : Z) (data : BrandSerializer.Data)
| product_create (user : User.t) (data : ProductSerializer.Data) (pk : Z)
| product_update (partial : bool) (user : User.t) (pk : Z) (data : ProductSerializer.Data)
| licensekey_create (user : User.t) (data : LicenseKeySerializer.Data) (pk : Z)
    (uuid4 : string)
| licensekey_update (partial : bool) (user : User.t) (pk : Z)
    (data : LicenseKeySerializer.Data)
| licensekey_by_email (user : User.t) (email : option string)
| license_create (user : User.t) (data : LicenseSerializer.Data) (pk : Z)
| license_update (partial : bool) (user : User.t) (pk : Z) (data : LicenseSerializer.Data)
| activation_create (user : User.t) (data : ActivationSerializer.Data)
| activation_update (partial : bool) (user : User.t) (pk : Z)
    (data : ActivationSerializer.Data)
| action (req : urls.Request)
| service_provision (user : option User.t) (data : LicenseServiceViewSet.ProvisionData)
    (fresh : LicenseServiceViewSet.Fresh).

Definition left_by (m : Result Store) (s : Store) : Store :=
  match m with
  | Ok s' => s'
  | Raise _ => s
  end.

(** The store a routed request leaves behind.  List, retrieve, by_email and
    the API root only read. *)
Definition store_after (route : Route) (now : Z) (s : Store) : Store :=
  match route with
  | api_root _ | list_ _ _ | retrieve _ _ _ | licensekey_by_email _ _ => s
  | destroy brand user pk =>
      left_by (ModelViewSet.destroy BrandViewSet.get_object Delete.brand user pk s) s
  | destroy product user pk =>
      left_by (ModelViewSet.destroy ProductViewSet.get_object Delete.product user pk s) s
  | destroy licensekey user pk =>
      left_by (ModelViewSet.destroy LicenseKeyViewSet.get_object Delete.license_key user pk s) s
  | destroy license user pk =>
      left_by (ModelViewSet.destroy LicenseViewSet.get_object Delete.license user pk s) s
  | destroy activation user pk =>
      left_by (ModelViewSet.destroy ActivationViewSet.get_object Delete.activation user pk s) s
  | brand_create user data pk =>
      left_by (ModelViewSet.create BrandSerializer.is_valid BrandSerializer.create
                 user data pk now s) s
  | brand_update partial user pk data =>
      left_by (ModelViewSet.update BrandViewSet.get_object BrandSerializer.is_valid
                 BrandSerializer.update partial user pk data now s) s
  | product_create user data pk =>
      left_by (ModelViewSet.create ProductSerializer.is_valid ProductSerializer.create
                 user data pk now s) s
  | product_update partial user pk data =>
      left_by (ModelViewSet.update ProductViewSet.get_object ProductSerializer.is_valid
                 ProductSerializer.update partial user pk data now s) s
  | licensekey_create user data pk uuid4 =>
      left_by (ModelViewSet.create LicenseKeySerializer.is_valid LicenseKeySerializer.create
                 user data (pk, uuid4) now s) s
  | licensekey_update partial user pk data =>
      left_by (ModelViewSet.update LicenseKeyViewSet.get_object LicenseKeySerializer.is_valid
                 LicenseKeySerializer.update partial user pk data now s) s
  | license_create user data pk =>
      left_by (ModelViewSet.create LicenseSerializer.is_valid LicenseSerializer.create
                 user data pk now s) s
  | license_update partial user pk data =>
      left_by (ModelViewSet.update LicenseViewSet.get_object LicenseSerializer.is_valid
                 LicenseSerializer.update partial user pk data now s) s
  | activation_create user data =>
      left_by (ModelViewSet.create ActivationSerializer.is_valid ActivationSerializer.create
                 user data tt now s) s
  | activation_update partial user pk data =>
      left_by (ModelViewSet.update ActivationViewSet.get_object ActivationSerializer.is_valid
                 ActivationSerializer.update partial user pk data now s) s
  | action req => fst (urls.dispatch req now s)
  | service_provision user data fresh =>
      fst (LicenseServiceViewSet.provision user data fresh now s)
  end.

(** A lifecycle operation on license [pk] that moves its stored status from
    [before] to [after] under the guard of its model method. *)
Definition lifecycle_transition (route : Route) (pk : Z) (before after : Status.t) : Prop :=
  match route with
  | action req => Spec.lifecycle_transition req pk before after
  | _ => False
  end.

(** A request on license [pk] that names the status [after] and has it
    stored with no rule: [change_status], update and partial update. *)
Definition free_write (route : Route) (pk : Z) (after : Status.t) : Prop :=
  match route with
  | action req => Spec.legacy_write req pk after
  | license_update _ _ pk' data => pk' = pk /\ LicenseSerializer.status data = Some after
  | _ => False
  end.

(** The license row a create or a provision has inserted. *)
Definition inserted (route : Route) (l : License.t) : Prop :=
  match route with
  | license_create _ data pk =>
      License.id l = pk
      /\ License.status l = given (LicenseSerializer.status data) Status.valid
  | service_provision _ _ fresh =>
      License.id l = LicenseServiceViewSet.license_pk fresh
      /\ License.status l = Status.valid
  | _ => False
  end.

End router.

(** * Theorems *)

(** ** Seat ledger *)

Lemma filter_filter {A : Type} (f g : A -> bool) (l : list A) :
  filter g (filter f l) = filter (fun x => f x && g x) l.
Proof.
  induction l as [|x l IH]; simpl; [reflexivity|].
  destruct (f x); simpl; [destruct (g x)|]; rewrite ?IH; reflexivity.
Qed.

Lemma used_seats_active_count (l : License.t) (table : list Activation.t) :
  QuerySet.count (filter Activation.is_active (License.activations l table))
  = Z.of_nat (Spec.active_count l table).
Proof.
  unfold QuerySet.count, License.activations, Spec.active_count.
  now rewrite filter_filter.
Qed.

(** C1: [available_seats] of a license is max(0, seats - number of its
    active activations) over the activations table it is given, lies in
    [0, seats], and reads nothing of the license but its primary key and
    seat count: a stale instance of the same row gets the current value. *)
Theorem available_seats_in_range :
  forall (l : License.t) (s : Store),
    License.available_seats l (activations s)
    = Z.max 0 (Z.of_nat (License.seats l) - Z.of_nat (Spec.active_count l (activations s)))
    /\ 0 <= License.available_seats l (activations s) <= Z.of_nat (License.seats l)
    /\ (forall stale : License.t,
          License.id stale = License.id l ->
          License.seats stale = License.seats l ->
          License.available_seats stale (activations s)
          = License.available_seats l (activations s)).
Proof.
  intros l s. unfold License.available_seats.
  rewrite used_seats_active_count. split; [reflexivity|]. split; [lia|].
  intros stale Hid Hseats. rewrite used_seats_active_count.
  unfold Spec.active_count. now rewrite Hid, Hseats.
Qed.

Lemma available_seats_in_range_witness :
  License.available_seats conftest.license
    (activations (conftest.store_with conftest.license [conftest.activation])) = 4
  /\ License.available_seats (conftest.license_with Status.suspended 5)
       (activations (conftest.store_with conftest.license [conftest.activation])) = 4.
Proof.
  pose proof (available_seats_in_range conftest.license
                (conftest.store_with conftest.license [conftest.activation])) as [Heq [_ Hstale]].
  split.
  - rewrite Heq. reflexivity.
  - rewrite (Hstale (conftest.license_with Status.suspended 5)); [|reflexivity|reflexivity].
    rewrite Heq. reflexivity.
Defined.

(** ** Lifecycle engine *)

Lemma status_eqb_eq (a b : Status.t) : Status.eqb a b = true <-> a = b.
Proof. destruct a, b; split; intro H; try reflexivity; discriminate H. Qed.

(** C3 (as the specification states it, refuted): a license renewed once has
    status renewed, which the specification lists as a legal source of
    [renew]; the second [renew] raises and nothing is saved. *)
Lemma renew_of_renewed_license_raises :
  Spec.renew_legal_spec (License.status (conftest.license_with Status.renewed 5)) = true
  /\ License.renew (conftest.license_with Status.renewed 5) (conftest.now + 395) None
       [conftest.license_with Status.renewed 5]
     = Raise (ValueError "Cannot renew license with status: renewed")
  /\ (exists l1 rows1,
        License.renew conftest.license (conftest.now + 395) None [conftest.license]
        = Ok (l1, rows1)
        /\ License.renew l1 (conftest.now + 425) None rows1
           = Raise (ValueError "Cannot renew license with status: renewed")).
Proof.
  split; [reflexivity|]. split; [reflexivity|].
  eexists. eexists. split; reflexivity.
Qed.

(** C3 (amended): [renew] succeeds exactly from the stored statuses valid and
    expired.  It then sets the expiration, keeps an original expiration that
    is already stored and otherwise stores the old expiration, increments the
    renewal counter, sets status renewed and saves.  From every other stored
    status (suspended, cancelled, pending, renewed) it raises an error naming
    the status and saves nothing; in particular a second [renew] directly
    after a successful one raises. *)
Theorem renew_from_valid_or_expired_only :
  forall (l : License.t) (new_expiration_date : Z) (reason : option string)
         (objects : list License.t),
    (License.status l = Status.valid \/ License.status l = Status.expired ->
     exists l1,
       License.renew l new_expiration_date reason objects = Ok (l1, License.save l1 objects)
       /\ l1 = License.mk (License.id l) (License.license_key l) (License.product l)
                 Status.renewed (License.seats l) new_expiration_date
                 (match License.original_expiration_date l with
                  | None => Some (License.expiration_date l)
                  | Some first_expiration => Some first_expiration
                  end)
                 (S (License.renewal_count l))
                 (License.suspension_reason l) (License.cancellation_reason l)
                 (License.cancelled_at l) (License.suspended_at l) (License.created_at l)
       /\ forall later reason2 rows,
            License.renew l1 later reason2 rows
            = Raise (ValueError "Cannot renew license with status: renewed"))
    /\ (License.status l <> Status.valid -> License.status l <> Status.expired ->
        License.renew l new_expiration_date reason objects
        = Raise (ValueError ("Cannot renew license with status: "
                             +:+ Status.str (License.status l)))).
Proof.
  intros l new reason objects. split.
  - intros Hst. eexists. split; [|split; [reflexivity|]].
    + unfold License.renew. destruct Hst as [-> | ->]; reflexivity.
    + intros later reason2 rows. reflexivity.
  - intros Hv He. unfold License.renew.
    destruct (License.status l); try reflexivity; congruence.
Qed.

Lemma renew_from_valid_or_expired_only_witness :
  (exists l1,
     License.renew conftest.license (conftest.now + 395) None [conftest.license]
     = Ok (l1, License.save l1 [conftest.license])
     /\ License.renewal_count l1 = 1%nat
     /\ License.original_expiration_date l1 = Some (conftest.now + 365))
  /\ License.renew (conftest.license_with Status.suspended 5) (conftest.now + 395) None
       [conftest.license_with Status.suspended 5]
     = Raise (ValueError "Cannot renew license with status: suspended").
Proof.
  pose proof (renew_from_valid_or_expired_only conftest.license (conftest.now + 395) None
                [conftest.license]) as [Hok _].
  pose proof (renew_from_valid_or_expired_only (conftest.license_with Status.suspended 5)
                (conftest.now + 395) None [conftest.license_with Status.suspended 5])
    as [_ Hraise].
  split.
  - destruct (Hok (or_introl eq_refl)) as [l1 [Hrun [Hl1 _]]].
    exists l1. split; [exact Hrun|]. rewrite Hl1. split; reflexivity.
  - apply Hraise; discriminate.
Defined.

(** C4 (as the specification states it, refuted): a license whose stored
    status is expired is not cancelled, although the specification lets
    [cancel] start from every status but cancelled. *)
Lemma cancel_of_expired_license_raises :
  Spec.cancel_legal_spec (License.status (conftest.license_with Status.expired 5)) = true
  /\ License.cancel (conftest.license_with Status.expired 5) "Testing cancellation"
       conftest.now [conftest.license_with Status.expired 5]
     = Raise (ValueError "Cannot cancel license with status: expired").
Proof. split; reflexivity. Qed.

(** C4 (amended): [cancel] succeeds from every stored status except
    cancelled and expired (so from valid, renewed, suspended and pending): it
    sets status cancelled, records the reason and the time, and saves.  From
    cancelled and from expired it raises an error naming the status; the
    view answers 400 with that error and the store is unchanged. *)
Theorem cancel_from_any_but_cancelled_or_expired :
  forall (l : License.t) (reason : string) (now : Z) (objects : list License.t),
    (License.status l <> Status.cancelled -> License.status l <> Status.expired ->
     exists l1,
       License.cancel l reason now objects = Ok (l1, License.save l1 objects)
       /\ l1 = License.mk (License.id l) (License.license_key l) (License.product l)
                 Status.cancelled (License.seats l) (License.expiration_date l)
                 (License.original_expiration_date l) (License.renewal_count l)
                 (License.suspension_reason l) reason (Some now)
                 (License.suspended_at l) (License.created_at l))
    /\ (License.status l = Status.cancelled \/ License.status l = Status.expired ->
        License.cancel l reason now objects
        = Raise (ValueError ("Cannot cancel license with status: "
                             +:+ Status.str (License.status l)))
        /\ forall (user : User.t) (pk : Z) (s : Store),
             LicenseViewSet.get_object user pk s = Ok l ->
             LicenseViewSet.cancel user pk reason now s
             = (s, Ok (mkResponse HTTP_400_BAD_REQUEST
                         (VDict [("success", VBool false);
                                 ("error", VStr ("Cannot cancel license with status: "
                                                 +:+ Status.str (License.status l)))])))).
Proof.
  intros l reason now objects. split.
  - intros Hc He. eexists. split; [|reflexivity].
    unfold License.cancel.
    destruct (License.status l); try reflexivity; congruence.
  - intros Hst.
    assert (Hraise : forall rows,
               License.cancel l reason now rows
               = Raise (ValueError ("Cannot cancel license with status: "
                                    +:+ Status.str (License.status l)))).
    { intros rows. unfold License.cancel. destruct Hst as [-> | ->]; reflexivity. }
    split; [apply Hraise|].
    intros user pk s Hget. unfold LicenseViewSet.cancel.
    rewrite Hget, Hraise. reflexivity.
Qed.

Lemma cancel_from_any_but_cancelled_or_expired_witness :
  (exists l1,
     License.cancel (conftest.license_with Status.suspended 5) "Testing cancellation"
       conftest.now [conftest.license_with Status.suspended 5]
     = Ok (l1, License.save l1 [conftest.license_with Status.suspended 5])
     /\ License.status l1 = Status.cancelled
     /\ License.cancellation_reason l1 = "Testing cancellation"
     /\ License.cancelled_at l1 = Some conftest.now)
  /\ LicenseViewSet.cancel conftest.admin_user 1 "again" conftest.now
       (conftest.store_with (conftest.license_with Status.cancelled 5) [])
     = (conftest.store_with (conftest.license_with Status.cancelled 5) [],
        Ok (mkResponse HTTP_400_BAD_REQUEST
              (VDict [("success", VBool false);
                      ("error", VStr "Cannot cancel license with status: cancelled")]))).
Proof.
  pose proof (cancel_from_any_but_cancelled_or_expired
                (conftest.license_with Status.suspended 5) "Testing cancellation"
                conftest.now [conftest.license_with Status.suspended 5]) as [Hok _].
  pose proof (cancel_from_any_but_cancelled_or_expired
                (conftest.license_with Status.cancelled 5) "again"
                conftest.now []) as [_ Hraise].
  split.
  - destruct Hok as [l1 [Hrun Hl1]]; [discriminate|discriminate|].
    exists l1. split; [exact Hrun|]. rewrite Hl1. repeat split.
  - destruct (Hraise (or_introl eq_refl)) as [_ Hview].
    apply (Hview conftest.admin_user 1
             (conftest.store_with (conftest.license_with Status.cancelled 5) [])).
    reflexivity.
Defined.

(** ** Activation protocol *)

Lemma active_count_app (l : License.t) (rows more : list Activation.t) :
  Spec.active_count l (rows ++ more)
  = (Spec.active_count l rows + Spec.active_count l more)%nat.
Proof. unfold Spec.active_count. now rewrite filter_app, length_app. Qed.

Lemma available_seats_active_count (l : License.t) (table : list Activation.t) :
  License.available_seats l table
  = Z.max 0 (Z.of_nat (License.seats l) - Z.of_nat (Spec.active_count l table)).
Proof. unfold License.available_seats. now rewrite used_seats_active_count. Qed.

(** C10: when [activate] passes its checks for license [l] and the insert
    succeeds, the new activation is counted before the response is built, and
    the reported [available_seats] is max(0, seats - active count including
    the new activation) - 1: one less than the license's available seats at
    that moment, and -1 when the new activation took the last seat. *)
Theorem activate_reports_one_seat_less :
  forall (license_key product_slug instance_identifier instance_type : string)
         (now : Z) (s s' : Store) (l : License.t) (r : Response),
    LicenseServiceViewSet.activate_check license_key product_slug instance_identifier now s
    = LicenseServiceViewSet.Proceed l ->
    LicenseServiceViewSet.activate license_key product_slug instance_identifier
      instance_type now s = (s', Ok r) ->
    let created :=
      Activation.mk (activation_seq s) (License.id l) instance_identifier instance_type
        true now None EmptyString in
    let reported :=
      Z.max 0 (Z.of_nat (License.seats l)
               - Z.of_nat (Spec.active_count l (activations s'))) - 1 in
    activations s' = activations s ++ [created]
    /\ Spec.active_count l (activations s') = S (Spec.active_count l (activations s))
    /\ r = mkResponse HTTP_200_OK
             (VDict [("success", VBool true);
                     ("message", VStr "License activated successfully");
                     ("activation_id", VInt (Activation.id created));
                     ("available_seats", VInt reported)])
    /\ reported = License.available_seats l (activations s') - 1
    /\ (Spec.active_count l (activations s') = License.seats l -> reported = -1).
Proof.
  intros key slug inst type now s s' l r Hcheck Hrun created reported.
  unfold LicenseServiceViewSet.activate in Hrun. rewrite Hcheck in Hrun.
  unfold LicenseServiceViewSet.activate_create, Activation.create in Hrun.
  destruct (existsb _ (activations s)); [discriminate Hrun|].
  injection Hrun as Hs Hr. subst s'. cbn [activations with_new_activation] in *.
  fold created in Hr |- *.
  assert (Hcount : Spec.active_count l (activations s ++ [created])
                   = S (Spec.active_count l (activations s))).
  { rewrite active_count_app. unfold Spec.active_count at 2. simpl.
    rewrite Z.eqb_refl. simpl. lia. }
  split; [reflexivity|]. split; [exact Hcount|]. split; [|split].
  - subst r. rewrite available_seats_active_count. reflexivity.
  - subst reported. now rewrite available_seats_active_count.
  - intros Hfull. subst reported. cbn [activations with_new_activation].
    fold created. rewrite Hfull. lia.
Qed.

Lemma activate_reports_one_seat_less_witness :
  snd (LicenseServiceViewSet.activate "TEST-LICENSE-KEY-12345" "test-product"
         "https://last.example.com" "website" conftest.now
         (conftest.store_with (conftest.license_with Status.valid 1) []))
  = Ok (mkResponse HTTP_200_OK
          (VDict [("success", VBool true);
                  ("message", VStr "License activated successfully");
                  ("activation_id", VInt 1);
                  ("available_seats", VInt (-1))])).
Proof.
  destruct (LicenseServiceViewSet.activate "TEST-LICENSE-KEY-12345" "test-product"
              "https://last.example.com" "website" conftest.now
              (conftest.store_with (conftest.license_with Status.valid 1) []))
    as [s' [r|e]] eqn:Hrun; [|vm_compute in Hrun; discriminate Hrun].
  assert (Hcheck :
            LicenseServiceViewSet.activate_check "TEST-LICENSE-KEY-12345" "test-product"
              "https://last.example.com" conftest.now
              (conftest.store_with (conftest.license_with Status.valid 1) [])
            = LicenseServiceViewSet.Proceed (conftest.license_with Status.valid 1))
    by reflexivity.
  destruct (activate_reports_one_seat_less _ _ _ _ _ _ _ _ _ Hcheck Hrun)
    as [Hrows [_ [Hr _]]].
  simpl snd. rewrite Hr, Hrows. reflexivity.
Defined.

Section Ordering.

Context {A : Type} (key : A -> Z).

Lemma insert_desc_In (x y : A) (sorted : list A) :
  In x (QuerySet.insert_desc key y sorted) <-> x = y \/ In x sorted.
Proof.
  induction sorted as [|z rest IH]; simpl.
  - intuition congruence.
  - destruct (key z <? key y); simpl; [intuition congruence|].
    rewrite IH. intuition congruence.
Qed.

Lemma order_desc_In (x : A) (rows : list A) :
  In x (QuerySet.order_desc key rows) <-> In x rows.
Proof.
  induction rows as [|y rows IH]; simpl; [tauto|].
  rewrite insert_desc_In, IH. intuition congruence.
Qed.

Lemma first_In (x : A) (rows : list A) :
  QuerySet.first key rows = Some x -> In x rows.
Proof.
  unfold QuerySet.first. intros H. apply order_desc_In.
  destruct (QuerySet.order_desc key rows); [discriminate|].
  injection H as ->. now left.
Qed.

Lemma first_None (rows : list A) :
  QuerySet.first key rows = None -> rows = [].
Proof.
  unfold QuerySet.first. intros H.
  destruct rows as [|y rows]; [reflexivity|exfalso].
  assert (Hin : In y (QuerySet.order_desc key (y :: rows)))
    by (apply order_desc_In; now left).
  destruct (QuerySet.order_desc key (y :: rows)); [destruct Hin|discriminate].
Qed.

End Ordering.

Lemma NoDup_map_eq {A B : Type} (f : A -> B) (l : list A) (x y : A) :
  NoDup (map f l) -> In x l -> In y l -> f x = f y -> x = y.
Proof.
  induction l as [|z l IH]; simpl; [tauto|].
  intros Hnd Hx Hy Hf. inversion Hnd as [|? ? Hnotin Hnd']; subst.
  destruct Hx as [-> | Hx], Hy as [-> | Hy]; auto.
  - exfalso. apply Hnotin. rewrite Hf. now apply in_map.
  - exfalso. apply Hnotin. rewrite <- Hf. now apply in_map.
Qed.

Lemma iter_fixed {S : Type} (f : S -> S) (s : S) (n : nat) :
  f s = s -> Nat.iter n f s = s.
Proof. intros H. induction n as [|n IH]; simpl; [reflexivity|]. now rewrite IH. Qed.

(** C5 (as the specification states it, refuted): an instance activates a
    license, and the license is then suspended; its activation stays active.
    A further [activate] for the same pair is answered 404 "No valid license
    found for this product" and carries no activation id.  The same happens,
    with no suspension, once the license's expiration has passed: the key and
    license lookups of [activate] come before its lookup of an existing
    activation. *)
Lemma activate_existing_on_unentitled_license_is_refused :
  let s := conftest.store_with conftest.license [] in
  let s1 := fst (LicenseServiceViewSet.activate "TEST-LICENSE-KEY-12345" "test-product"
                   "https://test.example.com" "website" conftest.now s) in
  let s2 := fst (LicenseViewSet.suspend conftest.admin_user 1 "Testing suspension"
                   conftest.now s1) in
  let refused :=
    Ok (mkResponse HTTP_404_NOT_FOUND
          (VDict [("success", VBool false);
                  ("error", VStr "No valid license found for this product")])) in
  activations s1 = [conftest.activation]
  /\ activations s2 = [conftest.activation]
  /\ Activation.is_active conftest.activation = true
  /\ Spec.pair conftest.activation = (1, "https://test.example.com")
  /\ LicenseServiceViewSet.activate "TEST-LICENSE-KEY-12345" "test-product"
       "https://test.example.com" "website" conftest.now s2
     = (s2, refused)
  /\ LicenseServiceViewSet.activate "TEST-LICENSE-KEY-12345" "test-product"
       "https://test.example.com" "website" (conftest.now + 365) s1
     = (s1, refused).
Proof. repeat split. Qed.

(** C5 (amended): when [activate] resolves the request to license [l] (the
    key is active and [l] is the key's one license for the product with
    status valid and its expiration in the future) and the activations table
    holds an active activation [a] for the pair ([l], instance identifier),
    the call answers 200 with the id of an existing active activation for
    that pair (of [a] itself under the table's uniqueness constraint), and
    the store is left as it was: no row is created and no seat consumed,
    however often the call is repeated. *)
Theorem activate_existing_is_idempotent :
  forall (license_key product_slug instance_identifier instance_type : string)
         (now : Z) (s : Store) (l : License.t) (a : Activation.t),
    LicenseServiceViewSet.activate_resolve license_key product_slug now s
    = LicenseServiceViewSet.Proceed l ->
    In a (activations s) ->
    Activation.license a = License.id l ->
    Activation.instance_identifier a = instance_identifier ->
    Activation.is_active a = true ->
    exists existing : Activation.t,
      In existing (activations s)
      /\ Activation.license existing = License.id l
      /\ Activation.instance_identifier existing = instance_identifier
      /\ Activation.is_active existing = true
      /\ (NoDup (map Spec.pair (activations s)) -> existing = a)
      /\ LicenseServiceViewSet.activate license_key product_slug instance_identifier
           instance_type now s
         = (s, Ok (mkResponse HTTP_200_OK
                     (VDict [("success", VBool true);
                             ("message", VStr "License already activated for this instance");
                             ("activation_id", VInt (Activation.id existing))])))
      /\ forall n : nat,
           Nat.iter n
             (fun st => fst (LicenseServiceViewSet.activate license_key product_slug
                               instance_identifier instance_type now st)) s
           = s.
Proof.
  intros key slug inst type now s l a Hres Hin Hlic Hinst Hact.
  destruct (QuerySet.first Activation.activated_at
              (filter (fun x => (Activation.license x =? License.id l)
                                && String.eqb (Activation.instance_identifier x) inst
                                && Activation.is_active x) (activations s)))
    as [existing|] eqn:Hfirst.
  - assert (Hrun : LicenseServiceViewSet.activate key slug inst type now s
                   = (s, Ok (mkResponse HTTP_200_OK
                               (VDict [("success", VBool true);
                                       ("message",
                                        VStr "License already activated for this instance");
                                       ("activation_id", VInt (Activation.id existing))])))).
    { unfold LicenseServiceViewSet.activate, LicenseServiceViewSet.activate_check.
      rewrite Hres, Hfirst. reflexivity. }
    apply first_In in Hfirst. apply filter_In in Hfirst as [Hex Hcond].
    apply andb_prop in Hcond as [Hcond Hex_act].
    apply andb_prop in Hcond as [Hex_lic Hex_inst].
    apply Z.eqb_eq in Hex_lic. apply String.eqb_eq in Hex_inst.
    exists existing. repeat split; auto.
    + intros Hnd. apply (NoDup_map_eq Spec.pair (activations s)); auto.
      unfold Spec.pair. congruence.
    + intros n. apply iter_fixed. now rewrite Hrun.
  - apply first_None in Hfirst. exfalso.
    assert (Hmem : In a (filter (fun x => (Activation.license x =? License.id l)
                                          && String.eqb (Activation.instance_identifier x) inst
                                          && Activation.is_active x) (activations s))).
    { apply filter_In. split; [exact Hin|].
      rewrite Hlic, Hinst, Hact, Z.eqb_refl, String.eqb_refl. reflexivity. }
    rewrite Hfirst in Hmem. destruct Hmem.
Qed.

Lemma activate_existing_is_idempotent_witness :
  LicenseServiceViewSet.activate "TEST-LICENSE-KEY-12345" "test-product"
    "https://test.example.com" "website" conftest.now
    (conftest.store_with conftest.license [conftest.activation])
  = (conftest.store_with conftest.license [conftest.activation],
     Ok (mkResponse HTTP_200_OK
           (VDict [("success", VBool true);
                   ("message", VStr "License already activated for this instance");
                   ("activation_id", VInt 1)]))).
Proof.
  destruct (activate_existing_is_idempotent
              "TEST-LICENSE-KEY-12345" "test-product" "https://test.example.com" "website"
              conftest.now (conftest.store_with conftest.license [conftest.activation])
              conftest.license conftest.activation
              eq_refl (or_introl eq_refl) eq_refl eq_refl eq_refl)
    as [existing [_ [_ [_ [_ [Hsame [Hrun _]]]]]]].
  rewrite Hrun, Hsame; [reflexivity|].
  simpl. constructor; [intros []|constructor].
Defined.

Lemma get_Ok {A : Type} (cond : A -> bool) (rows : list A) (x : A) :
  QuerySet.get cond rows = Ok x -> filter cond rows = [x].
Proof.
  unfold QuerySet.get. destruct (filter cond rows) as [|y [|z rest]]; try discriminate.
  now intros [= ->].
Qed.

Lemma get_Ok_In {A : Type} (cond : A -> bool) (rows : list A) (x : A) :
  QuerySet.get cond rows = Ok x -> In x rows /\ cond x = true.
Proof.
  intros H. apply get_Ok in H. apply filter_In. rewrite H. now left.
Qed.

Lemma filter_none {A : Type} (cond : A -> bool) (rows : list A) :
  (forall x, In x rows -> cond x = false) -> filter cond rows = [].
Proof.
  induction rows as [|y rows IH]; simpl; [reflexivity|]. intros H.
  rewrite (H y (or_introl eq_refl)). apply IH. intros x Hx. apply H. now right.
Qed.

Lemma activation_save_In (x a : Activation.t) (rows : list Activation.t) :
  In a rows -> Activation.id a = Activation.id x -> In x (Activation.save x rows).
Proof.
  intros Hin Hid. unfold Activation.save.
  destruct (existsb _ rows) eqn:Hex.
  - apply in_map_iff. exists a. split; [|exact Hin]. now rewrite Hid, Z.eqb_refl.
  - apply in_or_app. right. now left.
Qed.

Lemma activation_get_object_In (user : User.t) (pk : Z) (s : Store) (a : Activation.t) :
  ActivationViewSet.get_object user pk s = Ok a ->
  In a (activations s) /\ Activation.id a = pk.
Proof.
  unfold ActivationViewSet.get_object. intros H.
  destruct (QuerySet.get _ _) as [b|e] eqn:Hget; [|destruct e; discriminate].
  injection H as ->. apply get_Ok_In in Hget as [Hin Hid]. apply Z.eqb_eq in Hid.
  split; [|exact Hid]. unfold ActivationViewSet.get_queryset in Hin.
  destruct (_ || _); [exact Hin|]. now apply filter_In in Hin.
Qed.

(** C6 (the code at the failing input): a license with five seats has one
    activation, which is deactivated.  The license is still entitled and all
    five seats are free.  [activate] for the same pair finds no active
    activation, passes the seat check and inserts a fresh row, as the claim
    says it should; but [Activation.Meta.unique_together] counts the
    deactivated row too, so the insert is refused, the integrity error
    escapes the view, and no record is created. *)
Lemma reactivation_after_deactivate_raises :
  let s := conftest.store_with conftest.license [conftest.activation] in
  let s1 := fst (ActivationViewSet.deactivate conftest.admin_user 1
                   (Some "Testing") conftest.now s) in
  Spec.entitled_spec conftest.now conftest.license = true
  /\ License.available_seats conftest.license (activations s1) = 5
  /\ LicenseServiceViewSet.activate "TEST-LICENSE-KEY-12345" "test-product"
       "https://test.example.com" "website" (conftest.now + 1) s1
     = (s1, Raise IntegrityError)
  /\ activations s1 = [Spec.deactivated conftest.activation "Testing" conftest.now].
Proof. repeat split. Qed.

(** The same at every store: once the activation for a pair has been
    deactivated, an [activate] call that resolves to the same license and
    pair creates no activation record and leaves the store, with the
    deactivated record's reason and timestamp, unchanged; when the license
    has a free seat and the pair has no active activation, the call ends in
    the store's integrity error. *)
Theorem reactivation_after_deactivate_creates_nothing :
  forall (user : User.t) (pk : Z) (reason : option string) (now : Z) (s : Store)
         (a : Activation.t),
    ActivationViewSet.get_object user pk s = Ok a ->
    Activation.is_active a = true ->
    let s1 := fst (ActivationViewSet.deactivate user pk reason now s) in
    In (Spec.deactivated a (or_empty reason) now) (activations s1)
    /\ forall (license_key product_slug instance_type : string) (later : Z) (l : License.t),
         LicenseServiceViewSet.activate_resolve license_key product_slug later s1
         = LicenseServiceViewSet.Proceed l ->
         License.id l = Activation.license a ->
         fst (LicenseServiceViewSet.activate license_key product_slug
                (Activation.instance_identifier a) instance_type later s1) = s1
         /\ ((forall x, In x (activations s1) -> Spec.pair x = Spec.pair a ->
                        Activation.is_active x = false) ->
             0 < License.available_seats l (activations s1) ->
             LicenseServiceViewSet.activate license_key product_slug
               (Activation.instance_identifier a) instance_type later s1
             = (s1, Raise IntegrityError)).
Proof.
  intros user pk reason now s a Hget Hact s1.
  assert (Hgone : In (Spec.deactivated a (or_empty reason) now) (activations s1)).
  { subst s1. unfold ActivationViewSet.deactivate. rewrite Hget, Hact. simpl.
    apply activation_get_object_In in Hget as [Hin _].
    now apply activation_save_In with (a := a). }
  split; [exact Hgone|].
  intros key slug type later l Hres Hl.
  assert (Hcreate : forall pk',
             Activation.create pk' later (License.id l) (Activation.instance_identifier a)
               type (activations s1) = Raise IntegrityError).
  { intros pk'. unfold Activation.create.
    replace (existsb _ (activations s1)) with true; [reflexivity|].
    symmetry. apply existsb_exists. eexists. split; [exact Hgone|].
    simpl. now rewrite Hl, Z.eqb_refl, String.eqb_refl. }
  split.
  - unfold LicenseServiceViewSet.activate, LicenseServiceViewSet.activate_check.
    rewrite Hres. destruct (QuerySet.first _ _); [reflexivity|].
    destruct (_ <=? 0); [reflexivity|].
    unfold LicenseServiceViewSet.activate_create. now rewrite Hcreate.
  - intros Hnone Hseats.
    unfold LicenseServiceViewSet.activate, LicenseServiceViewSet.activate_check.
    rewrite Hres. rewrite filter_none.
    + simpl. destruct (_ <=? 0) eqn:Hle; [apply Z.leb_le in Hle; lia|].
      unfold LicenseServiceViewSet.activate_create. now rewrite Hcreate.
    + intros x Hx.
      destruct (Activation.license x =? License.id l) eqn:E1; [|reflexivity].
      destruct (String.eqb (Activation.instance_identifier x)
                  (Activation.instance_identifier a)) eqn:E2; [|reflexivity].
      apply Z.eqb_eq in E1. apply String.eqb_eq in E2. simpl.
      apply Hnone; [exact Hx|]. unfold Spec.pair. congruence.
Qed.

Lemma reactivation_after_deactivate_creates_nothing_witness :
  let s := conftest.store_with conftest.license [conftest.activation] in
  let s1 := fst (ActivationViewSet.deactivate conftest.admin_user 1
                   (Some "Testing") conftest.now s) in
  fst (LicenseServiceViewSet.activate "TEST-LICENSE-KEY-12345" "test-product"
         "https://test.example.com" "website" (conftest.now + 1) s1) = s1.
Proof.
  intros s s1.
  destruct (reactivation_after_deactivate_creates_nothing conftest.admin_user 1
              (Some "Testing") conftest.now s conftest.activation eq_refl eq_refl)
    as [_ Hnothing].
  destruct (Hnothing "TEST-LICENSE-KEY-12345" "test-product" "website" (conftest.now + 1)
              conftest.license eq_refl eq_refl) as [Hsame _].
  exact Hsame.
Defined.

(** ** Entitlement *)

Lemma entitled_iff (now : Z) (l : License.t) :
  Spec.entitled now l = true
  <-> License.status l = Status.valid /\ now < License.expiration_date l.
Proof.
  unfold Spec.entitled. rewrite andb_true_iff, status_eqb_eq, Z.ltb_lt. tauto.
Qed.




(** ** Bulk deactivation *)

Section ActivationSave.

Variable x : Activation.t.

Lemma filter_save_other (cond : Activation.t -> bool) (rows : list Activation.t) :
  (forall r, Activation.id r = Activation.id x -> cond r = false) ->
  filter cond (Activation.save x rows) = filter cond rows.
Proof.
  intros Hcond. unfold Activation.save. destruct (existsb _ rows).
  - induction rows as [|r rows IH]; simpl; [reflexivity|].
    destruct (Activation.id r =? Activation.id x) eqn:E.
    + apply Z.eqb_eq in E. rewrite (Hcond x eq_refl), (Hcond r E). exact IH.
    + now rewrite IH.
  - rewrite filter_app. simpl. rewrite (Hcond x eq_refl). apply app_nil_r.
Qed.


Lemma save_other_id (r : Activation.t) (rows : list Activation.t) :
  Activation.id r <> Activation.id x ->
  In r (Activation.save x rows) <-> In r rows.
Proof.
  intros Hne. unfold Activation.save. destruct (existsb _ rows).
  - rewrite in_map_iff. split.
    + intros [r0 [Hr0 Hin]].
      destruct (Activation.id r0 =? Activation.id x); [congruence|now subst r0].
    + intros Hin. exists r. split; [|exact Hin].
      apply Z.eqb_neq in Hne. now rewrite Hne.
  - rewrite in_app_iff. simpl. intuition congruence.
Qed.

End ActivationSave.

Lemma get_owned_after_save (user : User.t) (j : Z) (s : Store) (x b : Activation.t) :
  Activation.id x <> j ->
  ActivationViewSet.get_owned user j s = Ok b ->
  ActivationViewSet.get_owned user j (with_activations (Activation.save x (activations s)) s)
  = Ok b.
Proof.
  intros Hne Hget. unfold ActivationViewSet.get_owned, QuerySet.get in *.
  cbn [activations with_activations].
  rewrite filter_save_other; [exact Hget|].
  intros r Hr. replace (Activation.id r =? j) with false; [reflexivity|].
  symmetry. apply Z.eqb_neq. congruence.
Qed.


(** Each id adds one to the count or one string to the errors, whatever
    happened to the ids before it; the licenses table is never written. *)
Lemma bulk_deactivate_loop_accounts (user : User.t) (reason : string) (now : Z)
    (ids : list Z) :
  forall (count : Z) (errors : list string) (s : Store),
    let '(count', errors', s') :=
      ActivationViewSet.bulk_deactivate_loop user reason now ids count errors s in
    count' - count + Z.of_nat (List.length errors') - Z.of_nat (List.length errors)
    = Z.of_nat (List.length ids)
    /\ count <= count'
    /\ licenses s' = licenses s.
Proof.
  induction ids as [|i ids IH]; intros count errors s.
  - simpl. repeat split; lia.
  - cbn [ActivationViewSet.bulk_deactivate_loop].
    destruct (ActivationViewSet.get_owned user i s) as [a|e].
    + destruct (Activation.is_active a).
      * cbn [Activation.deactivate].
        set (s1 := with_activations _ s).
        specialize (IH (count + 1) errors s1).
        destruct (ActivationViewSet.bulk_deactivate_loop _ _ _ ids _ _ s1) as [[c' e'] s'].
        destruct IH as [H1 [H2 H3]]. rewrite H3. cbn [List.length].
        repeat split; lia.
      * specialize (IH count (errors ++ ["Activation " +:+ str_int i
                                         +:+ " is already deactivated"]) s).
        destruct (ActivationViewSet.bulk_deactivate_loop _ _ _ ids _ _ s) as [[c' e'] s'].
        rewrite length_app in IH. cbn [List.length] in *.
        destruct IH as [H1 [H2 H3]]. repeat split; [lia|lia|exact H3].
    + assert (Herr : forall msg,
                 let '(c', e', s') :=
                   ActivationViewSet.bulk_deactivate_loop user reason now ids count
                     (errors ++ [msg]) s in
                 c' - count + Z.of_nat (List.length e') - Z.of_nat (List.length errors)
                 = Z.of_nat (List.length (i :: ids))
                 /\ count <= c' /\ licenses s' = licenses s).
      { intros msg. specialize (IH count (errors ++ [msg]) s).
        destruct (ActivationViewSet.bulk_deactivate_loop _ _ _ ids _ _ s) as [[c' e'] s'].
        rewrite length_app in IH. cbn [List.length] in *.
        destruct IH as [H1 [H2 H3]]. repeat split; [lia|lia|exact H3]. }
      destruct e; apply Herr.
Qed.

Lemma or_empty_Some (reason : string) : or_empty (Some reason) = reason.
Proof.
  unfold or_empty, truthy. destruct (String.eqb reason EmptyString) eqn:E; [|reflexivity].
  apply String.eqb_eq in E. now subst reason.
Qed.

Section BulkStep.

Variables (user : User.t) (reason : string) (now : Z).

Lemma bulk_step_active (i : Z) (rest : list Z) (count : Z) (errors : list string)
    (s : Store) (a : Activation.t) :
  ActivationViewSet.get_owned user i s = Ok a ->
  Activation.is_active a = true ->
  ActivationViewSet.bulk_deactivate_loop user reason now (i :: rest) count errors s
  = ActivationViewSet.bulk_deactivate_loop user reason now rest (count + 1) errors
      (with_activations (Activation.save (Spec.deactivated a reason now) (activations s)) s).
Proof.
  intros Hget Hact. cbn [ActivationViewSet.bulk_deactivate_loop].
  rewrite Hget, Hact. unfold Activation.deactivate. now rewrite or_empty_Some.
Qed.


End BulkStep.



(** ** Who writes the status of a license *)

Lemma license_get_object_In (user : User.t) (pk : Z) (s : Store) (l : License.t) :
  LicenseViewSet.get_object user pk s = Ok l ->
  In l (licenses s) /\ License.id l = pk.
Proof.
  unfold LicenseViewSet.get_object. intros H.
  destruct (QuerySet.get _ _) as [b|e] eqn:Hget; [|destruct e; discriminate].
  injection H as ->. apply get_Ok_In in Hget as [Hin Hid]. apply Z.eqb_eq in Hid.
  split; [|exact Hid]. unfold LicenseViewSet.get_queryset in Hin.
  destruct (_ || _); [exact Hin|]. now apply filter_In in Hin.
Qed.

Lemma Forall2_same {A : Type} (R : A -> A -> Prop) (l : list A) :
  (forall x, R x x) -> Forall2 R l l.
Proof. intros H. induction l; constructor; auto. Qed.

Lemma Forall2_map_In {A : Type} (R : A -> A -> Prop) (f : A -> A) (l : list A) :
  (forall x, In x l -> R x (f x)) -> Forall2 R l (map f l).
Proof.
  induction l as [|y l IH]; intros H; simpl; constructor.
  - apply H. now left.
  - apply IH. intros x Hx. apply H. now right.
Qed.

(** Saving [l1] over the row [l0] it was read from relates every row to
    itself, except [l0], which it relates to [l1]. *)
Lemma license_save_rows (R : License.t -> License.t -> Prop) (l0 l1 : License.t)
    (rows : list License.t) :
  NoDup (map License.id rows) ->
  In l0 rows ->
  License.id l1 = License.id l0 ->
  (forall l, R l l) ->
  R l0 l1 ->
  Forall2 R rows (License.save l1 rows).
Proof.
  intros Hnd Hin Hid Hrefl Hstep. unfold License.save.
  replace (existsb _ rows) with true.
  - apply Forall2_map_In. intros l Hl.
    destruct (License.id l =? License.id l1) eqn:E; [|apply Hrefl].
    apply Z.eqb_eq in E.
    replace l with l0; [exact Hstep|].
    apply (NoDup_map_eq License.id rows); auto. congruence.
  - symmetry. apply existsb_exists. exists l0. split; [exact Hin|].
    apply Z.eqb_eq. congruence.
Qed.

Section LifecycleMethods.

Variables (l0 l1 : License.t) (rows rows1 : list License.t).

Lemma renew_Ok (new_expiration_date : Z) (reason : option string) :
  License.renew l0 new_expiration_date reason rows = Ok (l1, rows1) ->
  rows1 = License.save l1 rows /\ License.id l1 = License.id l0
  /\ (License.status l0 = Status.valid \/ License.status l0 = Status.expired)
  /\ License.status l1 = Status.renewed.
Proof.
  unfold License.renew. destruct (License.status l0); simpl; intros [= <- <-]; auto.
Qed.

Lemma suspend_Ok (reason : string) (now : Z) :
  License.suspend l0 reason now rows = Ok (l1, rows1) ->
  rows1 = License.save l1 rows /\ License.id l1 = License.id l0
  /\ (License.status l0 = Status.valid \/ License.status l0 = Status.renewed)
  /\ License.status l1 = Status.suspended.
Proof.
  unfold License.suspend. destruct (License.status l0); simpl; intros [= <- <-]; auto.
Qed.

Lemma resume_Ok :
  License.resume l0 rows = Ok (l1, rows1) ->
  rows1 = License.save l1 rows /\ License.id l1 = License.id l0
  /\ License.status l0 = Status.suspended
  /\ License.status l1 = Status.valid.
Proof.
  unfold License.resume. destruct (License.status l0); simpl; intros [= <- <-]; auto.
Qed.

Lemma cancel_Ok (reason : string) (now : Z) :
  License.cancel l0 reason now rows = Ok (l1, rows1) ->
  rows1 = License.save l1 rows /\ License.id l1 = License.id l0
  /\ License.status l0 <> Status.cancelled /\ License.status l0 <> Status.expired
  /\ License.status l1 = Status.cancelled.
Proof.
  unfold License.cancel. destruct (License.status l0) eqn:E; simpl; intros [= <- <-];
    repeat split; auto; discriminate.
Qed.

End LifecycleMethods.

Lemma failure_keeps_store (e : Exn) (s : Store) : fst (LicenseViewSet.failure e s) = s.
Proof. destruct e; reflexivity. Qed.

(** C9 (as the specification states it, refuted): [change_status] is none
    of the four lifecycle operations, and it moves a cancelled license back
    to valid. *)
Lemma change_status_revives_cancelled_license :
  let s := conftest.store_with (conftest.license_with Status.cancelled 5) [] in
  let req := urls.licenses_change_status conftest.admin_user 1 (Some "valid") in
  map License.status (licenses s) = [Status.cancelled]
  /\ map License.status (licenses (fst (urls.dispatch req conftest.now s))) = [Status.valid]
  /\ ~ Spec.lifecycle_transition req 1 Status.cancelled Status.valid.
Proof. split; [reflexivity|]. split; [reflexivity|]. intros []. Qed.

(** The nine actions of [urls.Request], over a licenses table with unique
    primary keys: each leaves every license row in place with its primary
    key, and the stored status of a row changes only through renew, suspend,
    resume or cancel on that license under the guard of its model method, or
    through change_status on that license, which writes whichever of the six
    statuses the request names.  The activation actions and check_status
    never change a license's status. *)
Lemma action_status_changes :
  forall (req : urls.Request) (now : Z) (s : Store),
    NoDup (map License.id (licenses s)) ->
    Forall2
      (fun l l' =>
         License.id l' = License.id l
         /\ (License.status l' = License.status l
             \/ Spec.lifecycle_transition req (License.id l) (License.status l)
                  (License.status l')
             \/ Spec.legacy_write req (License.id l) (License.status l')))
      (licenses s) (licenses (fst (urls.dispatch req now s))).
Proof.
  intros req now s Hnd.
  assert (Hsame : forall R : License.t -> License.t -> Prop,
             (forall l, R l l) -> Forall2 R (licenses s) (licenses s))
    by (intros R HR; now apply Forall2_same).
  destruct req as [user pk new reason|user pk reason|user pk|user pk reason
                  |user pk new_status|user pk reason|user ids reason
                  |key slug inst|key slug inst type];
    cbn [urls.dispatch].
  - (* renew *)
    unfold LicenseViewSet.renew.
    destruct (LicenseViewSet.get_object user pk s) as [l0|e] eqn:Hget;
      [|apply Hsame; auto].
    apply license_get_object_In in Hget as [Hin Hid].
    destruct (new <=? now); [apply Hsame; auto|].
    destruct (License.renew l0 new reason (licenses s)) as [[l1 rows1]|e] eqn:Hrun.
    + apply renew_Ok in Hrun as [-> [Hid1 [Hfrom Hto]]]. cbn [fst licenses with_licenses].
      apply license_save_rows with (l0 := l0); auto.
      split; [exact Hid1|]. right. left. cbn. rewrite Hto. auto.
    + rewrite failure_keeps_store. apply Hsame; auto.
  - (* suspend *)
    unfold LicenseViewSet.suspend.
    destruct (LicenseViewSet.get_object user pk s) as [l0|e] eqn:Hget;
      [|apply Hsame; auto].
    apply license_get_object_In in Hget as [Hin Hid].
    destruct (License.suspend l0 reason now (licenses s)) as [[l1 rows1]|e] eqn:Hrun.
    + apply suspend_Ok in Hrun as [-> [Hid1 [Hfrom Hto]]]. cbn [fst licenses with_licenses].
      apply license_save_rows with (l0 := l0); auto.
      split; [exact Hid1|]. right. left. cbn. rewrite Hto. auto.
    + rewrite failure_keeps_store. apply Hsame; auto.
  - (* resume *)
    unfold LicenseViewSet.resume.
    destruct (LicenseViewSet.get_object user pk s) as [l0|e] eqn:Hget;
      [|apply Hsame; auto].
    apply license_get_object_In in Hget as [Hin Hid].
    destruct (License.resume l0 (licenses s)) as [[l1 rows1]|e] eqn:Hrun.
    + apply resume_Ok in Hrun as [-> [Hid1 [Hfrom Hto]]]. cbn [fst licenses with_licenses].
      apply license_save_rows with (l0 := l0); auto.
      split; [exact Hid1|]. right. left. cbn. rewrite Hto. auto.
    + rewrite failure_keeps_store. apply Hsame; auto.
  - (* cancel *)
    unfold LicenseViewSet.cancel.
    destruct (LicenseViewSet.get_object user pk s) as [l0|e] eqn:Hget;
      [|apply Hsame; auto].
    apply license_get_object_In in Hget as [Hin Hid].
    destruct (License.cancel l0 reason now (licenses s)) as [[l1 rows1]|e] eqn:Hrun.
    + apply cancel_Ok in Hrun as [-> [Hid1 [Hnc [Hne Hto]]]].
      cbn [fst licenses with_licenses].
      apply license_save_rows with (l0 := l0); auto.
      split; [exact Hid1|]. right. left. cbn. rewrite Hto. auto.
    + rewrite failure_keeps_store. apply Hsame; auto.
  - (* change_status *)
    unfold LicenseViewSet.change_status.
    destruct (LicenseViewSet.get_object user pk s) as [l0|e] eqn:Hget;
      [|apply Hsame; auto].
    apply license_get_object_In in Hget as [Hin Hid].
    destruct new_status as [x|]; [|apply Hsame; auto].
    destruct (Status.of_str x) as [st|] eqn:Hst; [|apply Hsame; auto].
    cbn [fst licenses with_licenses].
    apply license_save_rows with (l0 := l0); auto.
    split; [reflexivity|]. right. right. cbn. auto.
  - (* deactivate *)
    unfold ActivationViewSet.deactivate.
    destruct (ActivationViewSet.get_object user pk s); [|apply Hsame; auto].
    destruct (negb _); apply Hsame; auto.
  - (* bulk_deactivate *)
    unfold ActivationViewSet.bulk_deactivate.
    destruct ids as [|i ids]; [apply Hsame; auto|].
    pose proof (bulk_deactivate_loop_accounts user reason now (i :: ids) 0 [] s) as Hacc.
    destruct (ActivationViewSet.bulk_deactivate_loop user reason now (i :: ids) 0 [] s)
      as [[count errors] s'].
    destruct Hacc as [_ [_ Hlic]]. cbn [fst]. rewrite Hlic. apply Hsame; auto.
  - (* check_status *)
    replace (fst (LicenseServiceViewSet.check_status key slug inst now s)) with s;
      [apply Hsame; auto|].
    unfold LicenseServiceViewSet.check_status.
    destruct (LicenseServiceViewSet.validate_license_key key) as [key'|]; [|reflexivity].
    destruct (LicenseServiceViewSet.get_license_key key' s) as [k|[]]; try reflexivity.
    destruct (negb _); [reflexivity|].
    destruct (bind _ _); reflexivity.
  - (* activate *)
    unfold LicenseServiceViewSet.activate.
    destruct (LicenseServiceViewSet.activate_check key slug inst now s);
      [apply Hsame; auto|].
    unfold LicenseServiceViewSet.activate_create.
    destruct (Activation.create _ _ _ _ _ _) as [[a rows]|e]; apply Hsame; auto.
Qed.

(** ** Parallel activations *)

(** A handler that runs its two steps back to back is the view itself. *)
Lemma handler_alone_is_activate (now : Z) (req : Concurrent.ActivateRequest) (s : Store) :
  Concurrent.run now [0; 0]%nat [Concurrent.Arrived req] s
  = let '(s', r) :=
      LicenseServiceViewSet.activate (Concurrent.license_key req)
        (Concurrent.product_slug req) (Concurrent.instance_identifier req)
        (Concurrent.instance_type req) now s in
    ([Concurrent.Finished r], s').
Proof.
  unfold LicenseServiceViewSet.activate. cbn.
  destruct (LicenseServiceViewSet.activate_check _ _ _ now s) as [r|l]; cbn.
  - reflexivity.
  - destruct (LicenseServiceViewSet.activate_create _ _ l now s). reflexivity.
Qed.

(** Run without interruption, [activate] keeps the active activations of
    the license it proceeds with within the seats of that license. *)
Lemma activate_alone_within_seats
    (license_key product_slug instance_identifier instance_type : string)
    (now : Z) (s : Store) (l : License.t) :
  LicenseServiceViewSet.activate_check license_key product_slug instance_identifier now s
  = LicenseServiceViewSet.Proceed l ->
  (Spec.active_count l
     (activations (fst (LicenseServiceViewSet.activate license_key product_slug
                          instance_identifier instance_type now s)))
   <= License.seats l)%nat.
Proof.
  intros Hcheck.
  assert (Hseats : 0 < License.available_seats l (activations s)).
  { unfold LicenseServiceViewSet.activate_check in Hcheck.
    destruct (LicenseServiceViewSet.activate_resolve _ _ now s) as [r|l']; [discriminate|].
    destruct (QuerySet.first _ _); [discriminate|].
    destruct (_ <=? 0) eqn:Hle; [discriminate|].
    injection Hcheck as ->. now apply Z.leb_gt in Hle. }
  rewrite available_seats_active_count in Hseats.
  unfold LicenseServiceViewSet.activate. rewrite Hcheck.
  unfold LicenseServiceViewSet.activate_create, Activation.create.
  destruct (existsb _ (activations s)); cbn [fst activations with_new_activation]; [lia|].
  rewrite active_count_app. unfold Spec.active_count at 2. simpl.
  rewrite Z.eqb_refl. simpl. lia.
Qed.

(** Three handlers for three instances on a license with two seats, one
    after the other: the first two are activated, the third is refused for
    lack of seats, and no seat is left. *)
Lemma activate_in_turn_respects_seats :
  let l := conftest.license_with Status.valid 2 in
  let s := conftest.store_with l [] in
  let req instance :=
    Concurrent.mkRequest "TEST-LICENSE-KEY-12345" "test-product" instance "website" in
  let '(handlers, s') :=
    Concurrent.run conftest.now [0; 0; 1; 1; 2; 2]%nat
      [Concurrent.Arrived (req "https://a.example.com");
       Concurrent.Arrived (req "https://b.example.com");
       Concurrent.Arrived (req "https://c.example.com")] s in
  map Concurrent.succeeded handlers = [true; true; false]
  /\ nth_error handlers 2
     = Some (Concurrent.Finished
               (Ok (mkResponse HTTP_400_BAD_REQUEST
                      (VDict [("success", VBool false);
                              ("error", VStr "No available seats for this license")]))))
  /\ Concurrent.active_activations l s' = 2
  /\ License.available_seats l (activations s') = 0.
Proof. vm_compute. repeat split. Qed.

(** C2 (the code at the failing input): a license with two seats and three
    handlers activating three distinct instances.  When all three pass the
    seat check before any of them inserts, all three answer 200 with
    success and the license ends with three active activations on its two
    seats. *)
Theorem activate_race_oversubscribes :
  let l := conftest.license_with Status.valid 2 in
  let s := conftest.store_with l [] in
  let req instance :=
    Concurrent.mkRequest "TEST-LICENSE-KEY-12345" "test-product" instance "website" in
  let '(handlers, s') :=
    Concurrent.run conftest.now [0; 1; 2; 0; 1; 2]%nat
      [Concurrent.Arrived (req "https://a.example.com");
       Concurrent.Arrived (req "https://b.example.com");
       Concurrent.Arrived (req "https://c.example.com")] s in
  map Concurrent.succeeded handlers = [true; true; true]
  /\ License.seats l = 2%nat
  /\ Concurrent.active_activations l s' = 3
  /\ map Activation.instance_identifier (filter Activation.is_active (activations s'))
     = ["https://a.example.com"; "https://b.example.com"; "https://c.example.com"]
  /\ License.available_seats l (activations s') = 0.
Proof. vm_compute. repeat split. Qed.

(** * Further properties of the code *)

(** ** Suspension and resumption *)

(** A save of an instance whose row is in the table is an update: the table
    keeps its primary keys, row by row. *)
Lemma license_save_stored (l1 : License.t) (rows : list License.t) :
  In (License.id l1) (map License.id rows) ->
  map License.id (License.save l1 rows) = map License.id rows.
Proof.
  intros Hin. apply in_map_iff in Hin as [l0 [Hid Hin]]. unfold License.save.
  replace (existsb _ rows) with true
    by (symmetry; apply existsb_exists; exists l0; split; [exact Hin|];
        now apply Z.eqb_eq).
  rewrite map_map. apply map_ext. intros r.
  destruct (License.id r =? License.id l1) eqn:E; [|reflexivity].
  apply Z.eqb_eq in E. congruence.
Qed.

(** X1: for a license whose row is in the table, [suspend] succeeds from
    valid and renewed, recording the reason and the time, and leaves the row
    in the table; [resume] of the suspended license on that table succeeds
    and lands on valid with the suspension reason and time cleared, so a
    renewed license comes back as valid, and a valid license with no
    suspension data comes back with every field of the record as it was
    ([updated_at], which every save refreshes, is not a field of the
    record).  From any other status [suspend] raises, and [resume] raises
    from any status but suspended. *)
Theorem suspend_then_resume :
  forall (l : License.t) (reason : string) (now : Z) (objects : list License.t),
    (In (License.id l) (map License.id objects) ->
     License.status l = Status.valid \/ License.status l = Status.renewed ->
     exists l1 l2 objects1,
       License.suspend l reason now objects = Ok (l1, objects1)
       /\ objects1 = License.save l1 objects
       /\ In (License.id l1) (map License.id objects1)
       /\ License.status l1 = Status.suspended
       /\ License.suspension_reason l1 = reason
       /\ License.suspended_at l1 = Some now
       /\ License.resume l1 objects1 = Ok (l2, License.save l2 objects1)
       /\ l2 = License.mk (License.id l) (License.license_key l) (License.product l)
                 Status.valid (License.seats l) (License.expiration_date l)
                 (License.original_expiration_date l) (License.renewal_count l)
                 EmptyString (License.cancellation_reason l) (License.cancelled_at l)
                 None (License.created_at l)
       /\ (License.status l = Status.valid ->
           License.suspension_reason l = EmptyString ->
           License.suspended_at l = None ->
           l2 = l))
    /\ (License.status l <> Status.valid -> License.status l <> Status.renewed ->
        License.suspend l reason now objects
        = Raise (ValueError ("Cannot suspend license with status: "
                             +:+ Status.str (License.status l))))
    /\ (License.status l <> Status.suspended ->
        License.resume l objects
        = Raise (ValueError ("Cannot resume license with status: "
                             +:+ Status.str (License.status l)))).
Proof.
  intros l reason now objects. split; [|split].
  - intros Hin Hst. eexists. eexists. eexists.
    split; [|split; [|split; [|split; [|split; [|split; [|split; [|split]]]]]]].
    + unfold License.suspend. destruct Hst as [-> | ->]; reflexivity.
    + reflexivity.
    + rewrite license_save_stored; exact Hin.
    + reflexivity.
    + reflexivity.
    + reflexivity.
    + reflexivity.
    + reflexivity.
    + intros Hv Hr Ht. destruct l. simpl in *. now subst.
  - intros Hv Hr. unfold License.suspend.
    destruct (License.status l); try reflexivity; congruence.
  - intros Hs. unfold License.resume.
    destruct (License.status l); try reflexivity; congruence.
Qed.

Lemma suspend_then_resume_witness :
  exists l1 objects1,
    License.suspend conftest.license "billing" conftest.now [conftest.license]
    = Ok (l1, objects1)
    /\ License.resume l1 objects1 = Ok (conftest.license, [conftest.license]).
Proof.
  destruct (suspend_then_resume conftest.license "billing" conftest.now [conftest.license])
    as [Hok _].
  destruct (Hok (or_introl eq_refl) (or_introl eq_refl))
    as (l1 & l2 & objects1 & Hrun & Hrows & _ & _ & _ & _ & Hres & _ & Hback).
  exists l1, objects1. split; [exact Hrun|].
  rewrite Hres, (Hback eq_refl eq_refl eq_refl), Hrows.
  unfold License.suspend in Hrun. simpl in Hrun. injection Hrun as <- _. reflexivity.
Defined.

(** ** Sequences of lifecycle calls *)

Section LifecycleCalls.

Variables (c : Lifecycle.Call) (l l1 : License.t) (objects objects1 : list License.t).

Lemma call_Ok :
  Lifecycle.call c l objects = Ok (l1, objects1) ->
  License.id l1 = License.id l
  /\ License.license_key l1 = License.license_key l
  /\ License.product l1 = License.product l
  /\ License.seats l1 = License.seats l
  /\ License.created_at l1 = License.created_at l
  /\ (License.renewal_count l <= License.renewal_count l1)%nat
  /\ (forall d, License.original_expiration_date l = Some d ->
                License.original_expiration_date l1 = Some d)
  /\ License.status l1 <> Status.pending
  /\ License.status l1 <> Status.expired
  /\ License.status l <> Status.cancelled.
Proof.
  destruct c; simpl;
    [unfold License.renew|unfold License.suspend|unfold License.resume|unfold License.cancel];
    destruct (License.status l) eqn:Hst; simpl; intros [= <- <-]; simpl;
    repeat split; try discriminate; try lia; try (intros d ->; reflexivity); auto.
Qed.

End LifecycleCalls.

(** X2: cancelled is terminal.  Whatever lifecycle calls are made on a
    cancelled license, in whatever order, every one of them raises and
    neither the instance nor the table changes. *)
Theorem cancelled_is_terminal :
  forall (calls : list Lifecycle.Call) (l : License.t) (objects : list License.t),
    License.status l = Status.cancelled ->
    Lifecycle.run calls l objects = (l, objects)
    /\ Forall (fun c => exists msg, Lifecycle.call c l objects = Raise (ValueError msg)) calls.
Proof.
  intros calls l objects Hst.
  assert (Hraise : forall c, exists msg, Lifecycle.call c l objects = Raise (ValueError msg)).
  { intros c. destruct c; simpl;
      [unfold License.renew|unfold License.suspend|unfold License.resume|unfold License.cancel];
      rewrite Hst; simpl; eexists; reflexivity. }
  split.
  - induction calls as [|c calls IH]; simpl; [reflexivity|].
    destruct (Hraise c) as [msg ->]. exact IH.
  - apply Forall_forall. intros c _. apply Hraise.
Qed.

Lemma cancelled_is_terminal_witness :
  Lifecycle.run
    [Lifecycle.resume; Lifecycle.renew (conftest.now + 395) None;
     Lifecycle.suspend "billing" conftest.now; Lifecycle.cancel "again" conftest.now]
    (conftest.license_with Status.cancelled 5) [conftest.license_with Status.cancelled 5]
  = (conftest.license_with Status.cancelled 5, [conftest.license_with Status.cancelled 5]).
Proof.
  apply (cancelled_is_terminal _ (conftest.license_with Status.cancelled 5)). reflexivity.
Defined.

Lemma call_Ok_rows (c : Lifecycle.Call) (l l1 : License.t)
    (objects objects1 : list License.t) :
  Lifecycle.call c l objects = Ok (l1, objects1) ->
  objects1 = License.save l1 objects.
Proof.
  destruct c; simpl;
    [unfold License.renew|unfold License.suspend|unfold License.resume|unfold License.cancel];
    match goal with |- (if ?g then _ else _) = _ -> _ => destruct g end;
    intros [= <- <-]; reflexivity.
Qed.

(** X3: no sequence of lifecycle calls changes a license's primary key,
    license key, product or seat count, nor, when the license has its row
    in the table (so that every save is an update), its creation time; the
    renewal counter never decreases; an original expiration, once stored,
    is never overwritten; and the statuses pending and expired are never
    written: a license that ends pending or expired is the license it
    started as. *)
Theorem lifecycle_calls_keep_identity :
  forall (calls : list Lifecycle.Call) (l : License.t) (objects : list License.t),
    let l' := fst (Lifecycle.run calls l objects) in
    License.id l' = License.id l
    /\ License.license_key l' = License.license_key l
    /\ License.product l' = License.product l
    /\ License.seats l' = License.seats l
    /\ (In (License.id l) (map License.id objects) ->
        License.created_at l' = License.created_at l)
    /\ (License.renewal_count l <= License.renewal_count l')%nat
    /\ (forall d, License.original_expiration_date l = Some d ->
                  License.original_expiration_date l' = Some d)
    /\ (License.status l' = Status.pending \/ License.status l' = Status.expired -> l' = l).
Proof.
  induction calls as [|c calls IH]; intros l objects; simpl.
  - repeat split; auto.
  - destruct (Lifecycle.call c l objects) as [[l1 objects1]|e] eqn:Hcall; [|apply IH].
    pose proof (call_Ok_rows _ _ _ _ _ Hcall) as Hrows.
    apply call_Ok in Hcall as (Hid & Hkey & Hprod & Hseats & Hcreated & Hcount & Horig
                               & Hnp & Hne & _).
    specialize (IH l1 objects1). simpl in IH.
    destruct IH as (IHid & IHkey & IHprod & IHseats & IHcreated & IHcount & IHorig & IHst).
    repeat split; try congruence; try lia.
    + intros Hin. rewrite IHcreated; [exact Hcreated|].
      rewrite Hrows, license_save_stored; rewrite Hid; exact Hin.
    + intros d Hd. apply IHorig. now apply Horig.
    + intros Hst. specialize (IHst Hst). rewrite IHst in Hst.
      destruct Hst; contradiction.
Qed.

Lemma renewal_path_cons (st : Status.t) (c : Lifecycle.Call) (calls : list Lifecycle.Call) :
  renewal_path st calls -> renewal_path st (c :: calls).
Proof.
  destruct st; simpl; try tauto.
  - intros (c3 & e & w & c4 & ->). now exists (c :: c3), e, w, c4.
  - intros (c2 & c3 & e & w & c4 & ->). now exists (c :: c2), c3, e, w, c4.
  - intros (c3 & e & w & c4 & ->). now exists (c :: c3), e, w, c4.
  - intros (c1 & r & n & c2 & c3 & e & w & c4 & ->).
    now exists (c :: c1), r, n, c2, c3, e, w, c4.
Qed.

(** A sequence of lifecycle calls that raises the renewal counter contains
    the calls the license's status asks for. *)
Lemma renewal_needs_path (calls : list Lifecycle.Call) :
  forall (l : License.t) (objects : list License.t),
    (License.renewal_count l
     < License.renewal_count (fst (Lifecycle.run calls l objects)))%nat ->
    renewal_path (License.status l) calls.
Proof.
  induction calls as [|c calls IH]; intros l objects; simpl; [lia|].
  destruct (Lifecycle.call c l objects) as [[l1 objects1]|e] eqn:Hcall.
  2:{ intros Hup. apply renewal_path_cons. now apply (IH l objects). }
  intros Hup. specialize (IH l1 objects1).
  destruct c as [new why|reason now| |reason now]; simpl in Hcall.
  - unfold License.renew in Hcall.
    destruct (License.status l); simpl in Hcall; try discriminate;
      now exists [], new, why, calls.
  - unfold License.suspend in Hcall.
    destruct (License.status l); simpl in Hcall; try discriminate;
      injection Hcall as <- <-; simpl in IH; specialize (IH Hup);
      destruct IH as (c2 & c3 & e & w & c4 & ->).
    + exists (Lifecycle.suspend reason now :: c2 ++ Lifecycle.resume :: c3), e, w, c4.
      simpl. rewrite <- app_assoc. reflexivity.
    + now exists [], reason, now, c2, c3, e, w, c4.
  - unfold License.resume in Hcall.
    destruct (License.status l); simpl in Hcall; try discriminate.
    injection Hcall as <- <-. simpl in IH. specialize (IH Hup).
    destruct IH as (c3 & e & w & c4 & ->). now exists [], c3, e, w, c4.
  - unfold License.cancel in Hcall.
    destruct (License.status l); simpl in Hcall; try discriminate;
      injection Hcall as <- <-; simpl in IH; destruct (IH Hup).
Qed.

(** X4: by calls of the model's lifecycle methods, a renewed license is
    renewed again only by going through suspend and resume.  From valid, on
    a license whose row is in the table, the calls renew, suspend, resume,
    renew all succeed: the counter goes up by two, the expiration is that
    of the second renew, and the original expiration is the one stored at
    the first renew (or before it).  And every sequence of lifecycle calls
    that raises the renewal counter of a license whose stored status is
    renewed contains a suspend, later a resume and later a renew. *)
Theorem renew_again_through_suspend_resume :
  (forall (l : License.t) (first second : Z) (why1 why2 : option string)
          (reason : string) (now : Z) (objects : list License.t),
      In (License.id l) (map License.id objects) ->
      License.status l = Status.valid ->
      fst (Lifecycle.run
             [Lifecycle.renew first why1; Lifecycle.suspend reason now;
              Lifecycle.resume; Lifecycle.renew second why2] l objects)
      = License.mk (License.id l) (License.license_key l) (License.product l)
          Status.renewed (License.seats l) second
          (match License.original_expiration_date l with
           | None => Some (License.expiration_date l)
           | Some d => Some d
           end)
          (S (S (License.renewal_count l)))
          EmptyString (License.cancellation_reason l) (License.cancelled_at l)
          None (License.created_at l))
  /\ (forall (calls : list Lifecycle.Call) (l : License.t) (objects : list License.t),
         License.status l = Status.renewed ->
         (License.renewal_count l
          < License.renewal_count (fst (Lifecycle.run calls l objects)))%nat ->
         exists c1 reason now c2 c3 new why c4,
           calls = c1 ++ Lifecycle.suspend reason now :: c2 ++ Lifecycle.resume
                        :: c3 ++ Lifecycle.renew new why :: c4).
Proof.
  split.
  - intros l n1 n2 w1 w2 reason now objects _ Hst.
    unfold Lifecycle.run, Lifecycle.call, License.renew at 1. rewrite Hst. simpl.
    destruct (License.original_expiration_date l); reflexivity.
  - intros calls l objects Hst Hup. apply renewal_needs_path in Hup.
    rewrite Hst in Hup. exact Hup.
Qed.

Lemma renew_again_through_suspend_resume_witness :
  License.renewal_count
    (fst (Lifecycle.run
            [Lifecycle.renew (conftest.now + 395) None;
             Lifecycle.suspend "billing" conftest.now;
             Lifecycle.resume; Lifecycle.renew (conftest.now + 425) None]
            conftest.license [conftest.license])) = 2%nat
  /\ exists c1 reason now c2 c3 new why c4,
       [Lifecycle.renew (conftest.now + 395) None; Lifecycle.suspend "billing" conftest.now;
        Lifecycle.resume; Lifecycle.renew (conftest.now + 425) None]
       = c1 ++ Lifecycle.suspend reason now :: c2 ++ Lifecycle.resume
               :: c3 ++ Lifecycle.renew new why :: c4.
Proof.
  destruct renew_again_through_suspend_resume as [Hpath Honly]. split.
  - rewrite (Hpath conftest.license _ _ _ _ _ _ [conftest.license]
               (or_introl eq_refl) eq_refl).
    reflexivity.
  - apply (Honly _ (conftest.license_with Status.renewed 5)
                 [conftest.license_with Status.renewed 5]); [reflexivity|].
    vm_compute. lia.
Defined.

Lemma lifecycle_calls_keep_identity_witness :
  License.seats
    (fst (Lifecycle.run
            [Lifecycle.suspend "billing" conftest.now; Lifecycle.cancel "left" conftest.now]
            conftest.license [conftest.license])) = 5%nat
  /\ License.created_at
       (fst (Lifecycle.run
               [Lifecycle.suspend "billing" conftest.now; Lifecycle.cancel "left" conftest.now]
               conftest.license [conftest.license])) = conftest.now
  /\ (forall d, License.original_expiration_date conftest.license = Some d ->
                License.original_expiration_date
                  (fst (Lifecycle.run
                          [Lifecycle.suspend "billing" conftest.now;
                           Lifecycle.cancel "left" conftest.now]
                          conftest.license [conftest.license])) = Some d).
Proof.
  destruct (lifecycle_calls_keep_identity
              [Lifecycle.suspend "billing" conftest.now; Lifecycle.cancel "left" conftest.now]
              conftest.license [conftest.license])
    as (_ & _ & _ & Hseats & Hcreated & _ & Horig & _).
  split; [exact Hseats|]. split; [|exact Horig].
  apply Hcreated. now left.
Defined.

(** ** Requests that fail *)

(** X5: a request that ends in an exception, or in a response whose status
    is not 200, has written nothing: the store after it is the store before
    it. *)
Theorem failed_request_leaves_store :
  forall (req : urls.Request) (now : Z) (s s' : Store) (out : Result Response),
    urls.dispatch req now s = (s', out) ->
    (forall r, out = Ok r -> status_code r <> HTTP_200_OK) ->
    s' = s.
Proof.
  intros req now s s' out Hrun Hfail.
  assert (Hnot200 : forall (s1 : Store) (d : Value),
             (s1, Ok (mkResponse HTTP_200_OK d)) = (s', out) -> s' = s).
  { intros s1 d [= <- <-]. exfalso. now apply (Hfail _ eq_refl). }
  assert (Hsame : forall o, (s, o) = (s', out) -> s' = s) by (now intros o [= <- _]).
  assert (Hfailure : forall e, LicenseViewSet.failure e s = (s', out) -> s' = s).
  { intros e He. destruct e; simpl in He; now injection He as <- _. }
  destruct req as [user pk new reason|user pk reason|user pk|user pk reason
                  |user pk new_status|user pk reason|user ids reason
                  |key slug inst|key slug inst type];
    cbn [urls.dispatch] in Hrun.
  - unfold LicenseViewSet.renew in Hrun.
    destruct (LicenseViewSet.get_object user pk s) as [l0|e]; [|now apply Hsame in Hrun].
    destruct (new <=? now); [now apply Hsame in Hrun|].
    destruct (License.renew l0 new reason (licenses s)) as [[l1 rows]|e];
      [now apply Hnot200 in Hrun|now apply Hfailure in Hrun].
  - unfold LicenseViewSet.suspend in Hrun.
    destruct (LicenseViewSet.get_object user pk s) as [l0|e]; [|now apply Hsame in Hrun].
    destruct (License.suspend l0 reason now (licenses s)) as [[l1 rows]|e];
      [now apply Hnot200 in Hrun|now apply Hfailure in Hrun].
  - unfold LicenseViewSet.resume in Hrun.
    destruct (LicenseViewSet.get_object user pk s) as [l0|e]; [|now apply Hsame in Hrun].
    destruct (License.resume l0 (licenses s)) as [[l1 rows]|e];
      [now apply Hnot200 in Hrun|now apply Hfailure in Hrun].
  - unfold LicenseViewSet.cancel in Hrun.
    destruct (LicenseViewSet.get_object user pk s) as [l0|e]; [|now apply Hsame in Hrun].
    destruct (License.cancel l0 reason now (licenses s)) as [[l1 rows]|e];
      [now apply Hnot200 in Hrun|now apply Hfailure in Hrun].
  - unfold LicenseViewSet.change_status in Hrun.
    destruct (LicenseViewSet.get_object user pk s) as [l0|e]; [|now apply Hsame in Hrun].
    destruct new_status as [x|]; [|now apply Hsame in Hrun].
    destruct (Status.of_str x); [now apply Hnot200 in Hrun|now apply Hsame in Hrun].
  - unfold ActivationViewSet.deactivate in Hrun.
    destruct (ActivationViewSet.get_object user pk s) as [a|e]; [|now apply Hsame in Hrun].
    destruct (negb _); [now apply Hsame in Hrun|].
    cbn [Activation.deactivate] in Hrun. now apply Hnot200 in Hrun.
  - unfold ActivationViewSet.bulk_deactivate in Hrun.
    destruct ids as [|i ids]; [now apply Hsame in Hrun|].
    destruct (ActivationViewSet.bulk_deactivate_loop _ _ _ _ _ _ _) as [[count errors] s1].
    now apply Hnot200 in Hrun.
  - unfold LicenseServiceViewSet.check_status in Hrun.
    destruct (LicenseServiceViewSet.validate_license_key key) as [key'|];
      [|now apply Hsame in Hrun].
    destruct (LicenseServiceViewSet.get_license_key key' s) as [k|[]];
      try (now apply Hsame in Hrun).
    destruct (negb _); [now apply Hsame in Hrun|].
    destruct (bind _ _); now apply Hsame in Hrun.
  - unfold LicenseServiceViewSet.activate in Hrun.
    destruct (LicenseServiceViewSet.activate_check key slug inst now s);
      [now apply Hsame in Hrun|].
    unfold LicenseServiceViewSet.activate_create in Hrun.
    destruct (Activation.create _ _ _ _ _ _) as [[a rows]|e];
      [now apply Hnot200 in Hrun|now apply Hsame in Hrun].
Qed.

Lemma failed_request_leaves_store_witness :
  fst (urls.dispatch (urls.licenses_resume conftest.admin_user 1) conftest.now
         (conftest.store_with conftest.license []))
  = conftest.store_with conftest.license [].
Proof.
  destruct (urls.dispatch (urls.licenses_resume conftest.admin_user 1) conftest.now
              (conftest.store_with conftest.license [])) as [s' out] eqn:Hrun.
  apply (failed_request_leaves_store _ _ _ _ _ Hrun).
  intros r Hr. vm_compute in Hrun. injection Hrun as _ <-. injection Hr as <-.
  discriminate.
Defined.

(** ** Scope of a request user *)

Lemma get_filtered_none {A : Type} (owned cond : A -> bool) (rows : list A) :
  (forall x, In x rows -> cond x = true -> owned x = false) ->
  QuerySet.get cond (filter owned rows) = Raise DoesNotExist.
Proof.
  intros H. unfold QuerySet.get. rewrite filter_filter, filter_none; [reflexivity|].
  intros x Hx. destruct (cond x) eqn:E; [|apply andb_false_r].
  now rewrite (H x Hx E).
Qed.

(** X6: a user who is neither license admin nor staff cannot reach a license
    whose license key belongs to another customer: renew, suspend, resume,
    cancel and change_status on it all end in 404 and leave the store as it
    was. *)
Theorem other_customers_license_is_not_found :
  forall (user : User.t) (pk : Z) (now : Z) (s : Store),
    User.is_license_admin user = false ->
    User.is_staff user = false ->
    (forall l, In l (licenses s) -> License.id l = pk ->
               license_key__customer_email s l (User.email user) = false) ->
    (forall new_expiration_date reason,
        LicenseViewSet.renew user pk new_expiration_date reason now s = (s, Raise Http404))
    /\ (forall reason, LicenseViewSet.suspend user pk reason now s = (s, Raise Http404))
    /\ LicenseViewSet.resume user pk s = (s, Raise Http404)
    /\ (forall reason, LicenseViewSet.cancel user pk reason now s = (s, Raise Http404))
    /\ (forall new_status,
           LicenseViewSet.change_status user pk new_status s = (s, Raise Http404)).
Proof.
  intros user pk now s Hadmin Hstaff Hother.
  assert (Hget : LicenseViewSet.get_object user pk s = Raise Http404).
  { unfold LicenseViewSet.get_object, LicenseViewSet.get_queryset.
    rewrite Hadmin, Hstaff. simpl. rewrite get_filtered_none; [reflexivity|].
    intros l Hl Hid. apply Z.eqb_eq in Hid. now apply Hother. }
  unfold LicenseViewSet.renew, LicenseViewSet.suspend, LicenseViewSet.resume,
    LicenseViewSet.cancel, LicenseViewSet.change_status.
  rewrite Hget. repeat split.
Qed.

Lemma other_customers_license_is_not_found_witness :
  LicenseViewSet.cancel (User.mk "testuser" "user@test.com" false false) 1
    "not mine" conftest.now (conftest.store_with conftest.license [conftest.activation])
  = (conftest.store_with conftest.license [conftest.activation], Raise Http404).
Proof.
  destruct (other_customers_license_is_not_found
              (User.mk "testuser" "user@test.com" false false) 1 conftest.now
              (conftest.store_with conftest.license [conftest.activation])
              eq_refl eq_refl) as (_ & _ & _ & Hcancel & _).
  - intros l [<- | []] _. reflexivity.
  - apply Hcancel.
Defined.

(** ** Deactivation *)

Section SaveOverRow.

Variables (a x : Activation.t) (rows : list Activation.t).
Hypothesis Hpk : NoDup (map Activation.id rows).
Hypothesis Hin : In a rows.
Hypothesis Hid : Activation.id x = Activation.id a.

(** With unique primary keys, saving [x] over the row [a] it was read from
    replaces that one row. *)
Lemma activation_save_split :
  exists pre post,
    rows = pre ++ a :: post
    /\ Activation.save x rows = pre ++ x :: post.
Proof.
  destruct (in_split _ _ Hin) as [pre [post Hrows]]. exists pre, post.
  split; [exact Hrows|]. unfold Activation.save.
  replace (existsb _ rows) with true
    by (symmetry; apply existsb_exists; exists a; split; [exact Hin|];
        apply Z.eqb_eq; congruence).
  pose proof Hpk as Hnd. rewrite Hrows, map_app in Hnd. simpl in Hnd.
  apply NoDup_remove_2 in Hnd.
  assert (Hkeep : forall part,
             (forall r, In r part -> Activation.id r <> Activation.id a) ->
             map (fun r => if Activation.id r =? Activation.id x then x else r) part = part).
  { intros part Hne. rewrite <- (map_id part) at 2. apply map_ext_in.
    intros r Hr. rewrite Hid. replace (Activation.id r =? Activation.id a) with false;
      [reflexivity|]. symmetry. apply Z.eqb_neq. now apply Hne. }
  assert (Hpre : forall r, In r pre -> Activation.id r <> Activation.id a).
  { intros r Hr Heq. apply Hnd. apply in_or_app. left. rewrite <- Heq. now apply in_map. }
  assert (Hpost : forall r, In r post -> Activation.id r <> Activation.id a).
  { intros r Hr Heq. apply Hnd. apply in_or_app. right. rewrite <- Heq. now apply in_map. }
  rewrite Hrows, map_app. simpl. rewrite Hid, Z.eqb_refl.
  rewrite <- Hid. rewrite (Hkeep pre), (Hkeep post); auto.
Qed.

Lemma activation_save_pks : map Activation.id (Activation.save x rows) = map Activation.id rows.
Proof.
  destruct activation_save_split as [pre [post [Hrows ->]]].
  rewrite Hrows, !map_app. simpl. now rewrite Hid.
Qed.

(** A query that does not tell [x] from [a] and found only [a] finds only [x]. *)
Lemma get_after_save (cond : Activation.t -> bool) :
  cond x = cond a ->
  QuerySet.get cond rows = Ok a ->
  QuerySet.get cond (Activation.save x rows) = Ok x.
Proof.
  intros Hcond Hget. apply get_Ok in Hget.
  destruct activation_save_split as [pre [post [Hrows ->]]].
  unfold QuerySet.get. rewrite Hrows, filter_app in Hget. rewrite filter_app.
  simpl in *. rewrite Hcond.
  destruct (cond a).
  - assert (Hlen : List.length (filter cond pre ++ a :: filter cond post) = 1%nat)
      by now rewrite Hget.
    rewrite length_app in Hlen. simpl in Hlen.
    destruct (filter cond pre); [|simpl in Hlen; lia].
    destruct (filter cond post); [reflexivity|simpl in Hlen; lia].
  - assert (Hmem : In a (filter cond pre ++ filter cond post))
      by (rewrite Hget; now left).
    apply in_app_or in Hmem.
    destruct Hmem as [Hmem | Hmem]; apply filter_In in Hmem as [Hmem _]; exfalso.
    + pose proof Hpk as Hnd. rewrite Hrows, map_app in Hnd. simpl in Hnd.
      apply NoDup_remove_2 in Hnd. apply Hnd. apply in_or_app. left. now apply in_map.
    + pose proof Hpk as Hnd. rewrite Hrows, map_app in Hnd. simpl in Hnd.
      apply NoDup_remove_2 in Hnd. apply Hnd. apply in_or_app. right. now apply in_map.
Qed.

(** Replacing an active row by an inactive copy takes one off the count of
    its own license and leaves every other count alone. *)
Lemma active_count_after_save (l : License.t) :
  Activation.license x = Activation.license a ->
  Activation.is_active a = true ->
  Activation.is_active x = false ->
  Spec.active_count l rows
  = ((if (Activation.license a =? License.id l)%Z then 1 else 0)
     + Spec.active_count l (Activation.save x rows))%nat.
Proof.
  intros Hlic Ha Hx.
  destruct activation_save_split as [pre [post [Hrows ->]]].
  rewrite Hrows, !active_count_app.
  change (a :: post) with ([a] ++ post). change (x :: post) with ([x] ++ post).
  rewrite !active_count_app. unfold Spec.active_count at 2 5. simpl.
  rewrite Hlic, Ha, Hx, andb_false_r.
  destruct (Activation.license a =? License.id l); simpl; lia.
Qed.

End SaveOverRow.

Lemma activation_get_object_after_save (user : User.t) (pk : Z) (s : Store)
    (a x : Activation.t) :
  NoDup (Invariant.activation_pks s) ->
  Activation.id x = Activation.id a ->
  Activation.license x = Activation.license a ->
  ActivationViewSet.get_object user pk s = Ok a ->
  ActivationViewSet.get_object user pk
    (with_activations (Activation.save x (activations s)) s) = Ok x.
Proof.
  intros Hpk Hid Hlic Hget.
  destruct (activation_get_object_In _ _ _ _ Hget) as [Hin Hpka].
  unfold ActivationViewSet.get_object, ActivationViewSet.get_queryset in *.
  cbn [activations with_activations].
  destruct (User.is_license_admin user || User.is_staff user).
  - destruct (QuerySet.get _ (activations s)) as [b|e] eqn:Hq;
      [injection Hget as ->|destruct e; discriminate].
    rewrite (get_after_save a x (activations s) Hpk Hin Hid _ (f_equal (fun i => i =? pk) Hid) Hq).
    reflexivity.
  - unfold QuerySet.get in *. rewrite filter_filter in *.
    set (cond := fun r => license__license_key__customer_email s r (User.email user)
                          && (Activation.id r =? pk)).
    assert (Hq : QuerySet.get cond (activations s) = Ok a).
    { unfold QuerySet.get. fold cond in Hget.
      destruct (filter cond (activations s)) as [|b [|b' rest]]; try discriminate.
      now injection Hget as ->. }
    assert (Hcond : cond x = cond a).
    { unfold cond, license__license_key__customer_email. now rewrite Hid, Hlic. }
    pose proof (get_after_save a x (activations s) Hpk Hin Hid cond Hcond Hq) as Hq'.
    apply get_Ok in Hq'.
    change (filter (fun r => license__license_key__customer_email
                               (with_activations (Activation.save x (activations s)) s)
                               r (User.email user) && (Activation.id r =? pk))
              (Activation.save x (activations s)))
      with (filter cond (Activation.save x (activations s))).
    now rewrite Hq'.
Qed.

(** X7: with unique primary keys, deactivating an activation a second time
    ends in the validation error "Activation is already deactivated." and
    leaves the store, with the first deactivation's reason and time, as it
    was. *)
Theorem deactivate_twice_is_refused :
  forall (user : User.t) (pk : Z) (reason again : option string) (now later : Z)
         (s : Store) (a : Activation.t),
    NoDup (Invariant.activation_pks s) ->
    ActivationViewSet.get_object user pk s = Ok a ->
    Activation.is_active a = true ->
    let s1 := fst (ActivationViewSet.deactivate user pk reason now s) in
    ActivationViewSet.get_object user pk s1 = Ok (Spec.deactivated a (or_empty reason) now)
    /\ ActivationViewSet.deactivate user pk again later s1
       = (s1, Raise (ValidationError "Activation is already deactivated.")).
Proof.
  intros user pk reason again now later s a Hpk Hget Hact s1.
  assert (Hs1 : s1 = with_activations
                       (Activation.save (Spec.deactivated a (or_empty reason) now)
                          (activations s)) s).
  { subst s1. unfold ActivationViewSet.deactivate. now rewrite Hget, Hact. }
  assert (Hget1 : ActivationViewSet.get_object user pk s1
                  = Ok (Spec.deactivated a (or_empty reason) now)).
  { rewrite Hs1. now apply activation_get_object_after_save with (a := a). }
  split; [exact Hget1|].
  unfold ActivationViewSet.deactivate. rewrite Hget1. reflexivity.
Qed.

Lemma deactivate_twice_is_refused_witness :
  let s := conftest.store_with conftest.license [conftest.activation] in
  let s1 := fst (ActivationViewSet.deactivate conftest.admin_user 1 (Some "Testing")
                   conftest.now s) in
  ActivationViewSet.deactivate conftest.admin_user 1 (Some "Again") (conftest.now + 1) s1
  = (s1, Raise (ValidationError "Activation is already deactivated.")).
Proof.
  intros s s1.
  destruct (deactivate_twice_is_refused conftest.admin_user 1 (Some "Testing") (Some "Again")
              conftest.now (conftest.now + 1) s conftest.activation) as [_ Hsecond].
  - simpl. constructor; [intros []|constructor].
  - reflexivity.
  - reflexivity.
  - exact Hsecond.
Defined.

(** X8: with unique primary keys, a successful deactivation takes exactly
    one activation off the active count of the activation's license and
    leaves the count of every other license alone; on a license that was not
    oversubscribed, [available_seats] goes up by exactly one. *)
Theorem deactivate_frees_one_seat :
  forall (user : User.t) (pk : Z) (reason : option string) (now : Z)
         (s : Store) (a : Activation.t) (l : License.t),
    NoDup (Invariant.activation_pks s) ->
    ActivationViewSet.get_object user pk s = Ok a ->
    Activation.is_active a = true ->
    let s1 := fst (ActivationViewSet.deactivate user pk reason now s) in
    (Activation.license a = License.id l ->
     Spec.active_count l (activations s) = S (Spec.active_count l (activations s1))
     /\ ((Spec.active_count l (activations s) <= License.seats l)%nat ->
         License.available_seats l (activations s1)
         = License.available_seats l (activations s) + 1))
    /\ (Activation.license a <> License.id l ->
        Spec.active_count l (activations s1) = Spec.active_count l (activations s)).
Proof.
  intros user pk reason now s a l Hpk Hget Hact s1.
  destruct (activation_get_object_In _ _ _ _ Hget) as [Hin _].
  assert (Hs1 : activations s1
                = Activation.save (Spec.deactivated a (or_empty reason) now) (activations s)).
  { subst s1. unfold ActivationViewSet.deactivate. now rewrite Hget, Hact. }
  pose proof (active_count_after_save a (Spec.deactivated a (or_empty reason) now)
                (activations s) Hpk Hin eq_refl l eq_refl Hact eq_refl) as Hcount.
  rewrite <- Hs1 in Hcount. split.
  - intros Hl. rewrite Hl, Z.eqb_refl in Hcount. split; [exact Hcount|].
    intros Hfit. rewrite !available_seats_active_count. lia.
  - intros Hl. apply Z.eqb_neq in Hl. rewrite Hl in Hcount. simpl in Hcount. lia.
Qed.

Lemma deactivate_frees_one_seat_witness :
  let s := conftest.store_with conftest.license [conftest.activation] in
  let s1 := fst (ActivationViewSet.deactivate conftest.admin_user 1 (Some "Testing")
                   conftest.now s) in
  License.available_seats conftest.license (activations s1)
  = License.available_seats conftest.license (activations s) + 1.
Proof.
  intros s s1.
  destruct (deactivate_frees_one_seat conftest.admin_user 1 (Some "Testing") conftest.now s
              conftest.activation conftest.license) as [Hown _].
  - simpl. constructor; [intros []|constructor].
  - reflexivity.
  - reflexivity.
  - destruct (Hown eq_refl) as [_ Hseats]. apply Hseats. vm_compute. lia.
Defined.

(** ** The seat ceiling *)

Lemma active_count_pk (l l' : License.t) (table : list Activation.t) :
  License.id l' = License.id l -> Spec.active_count l' table = Spec.active_count l table.
Proof. intros H. unfold Spec.active_count. now rewrite H. Qed.

Lemma active_count_save_le (l : License.t) (x : Activation.t) (rows : list Activation.t) :
  Activation.is_active x = false ->
  (Spec.active_count l (Activation.save x rows) <= Spec.active_count l rows)%nat.
Proof.
  intros Hx. unfold Activation.save. destruct (existsb _ rows).
  - unfold Spec.active_count. induction rows as [|r rows IH]; simpl; [lia|].
    destruct (Activation.id r =? Activation.id x).
    + rewrite Hx, andb_false_r.
      destruct ((Activation.license r =? License.id l) && Activation.is_active r);
        simpl; lia.
    + destruct ((Activation.license r =? License.id l) && Activation.is_active r);
        simpl; lia.
  - rewrite active_count_app. unfold Spec.active_count at 2. simpl.
    rewrite Hx, andb_false_r. simpl. lia.
Qed.

Lemma bulk_deactivate_loop_frees (user : User.t) (reason : string) (now : Z)
    (ids : list Z) (l : License.t) :
  forall (count : Z) (errors : list string) (s : Store),
    (Spec.active_count l
       (activations (snd (ActivationViewSet.bulk_deactivate_loop user reason now ids
                            count errors s)))
     <= Spec.active_count l (activations s))%nat.
Proof.
  induction ids as [|i ids IH]; intros count errors s; [simpl; lia|].
  cbn [ActivationViewSet.bulk_deactivate_loop].
  destruct (ActivationViewSet.get_owned user i s) as [a|e].
  - destruct (Activation.is_active a); [|apply IH].
    cbn [Activation.deactivate]. etransitivity; [apply IH|].
    cbn [activations with_activations]. now apply active_count_save_le.
  - destruct e; apply IH.
Qed.

Lemma license_save_members (l1 l' : License.t) (rows : list License.t) :
  In l' (License.save l1 rows) -> l' = l1 \/ In l' rows.
Proof.
  unfold License.save. destruct (existsb _ rows).
  - rewrite in_map_iff. intros [r [Hr Hin]].
    destruct (License.id r =? License.id l1); [now left|right; now subst].
  - rewrite in_app_iff. simpl. intuition congruence.
Qed.

Lemma license_save_pks (l0 l1 : License.t) (rows : list License.t) :
  In l0 rows -> License.id l1 = License.id l0 ->
  map License.id (License.save l1 rows) = map License.id rows.
Proof.
  intros Hin Hid. unfold License.save.
  replace (existsb _ rows) with true
    by (symmetry; apply existsb_exists; exists l0; split; [exact Hin|];
        apply Z.eqb_eq; congruence).
  rewrite map_map. apply map_ext. intros r.
  destruct (License.id r =? License.id l1) eqn:E; [|reflexivity].
  apply Z.eqb_eq in E. congruence.
Qed.

Lemma activate_resolve_In (license_key product_slug : string) (now : Z) (s : Store)
    (l : License.t) :
  LicenseServiceViewSet.activate_resolve license_key product_slug now s
  = LicenseServiceViewSet.Proceed l ->
  In l (licenses s).
Proof.
  unfold LicenseServiceViewSet.activate_resolve.
  destruct (LicenseServiceViewSet.validate_license_key license_key) as [key|]; [|discriminate].
  destruct (LicenseServiceViewSet.get_license_key key s) as [k|[]]; try discriminate.
  destruct (QuerySet.get _ _) as [l'|[]] eqn:Hget; try discriminate.
  intros [= <-]. apply get_Ok_In in Hget as [Hin _]. now apply filter_In in Hin.
Qed.

Lemma activate_check_Proceed (license_key product_slug instance_identifier : string)
    (now : Z) (s : Store) (l : License.t) :
  LicenseServiceViewSet.activate_check license_key product_slug instance_identifier now s
  = LicenseServiceViewSet.Proceed l ->
  LicenseServiceViewSet.activate_resolve license_key product_slug now s
  = LicenseServiceViewSet.Proceed l
  /\ 0 < License.available_seats l (activations s)
  /\ filter (fun a => (Activation.license a =? License.id l)
                      && String.eqb (Activation.instance_identifier a) instance_identifier
                      && Activation.is_active a) (activations s) = [].
Proof.
  unfold LicenseServiceViewSet.activate_check.
  destruct (LicenseServiceViewSet.activate_resolve _ _ now s) as [r|l']; [discriminate|].
  destruct (QuerySet.first _ _) eqn:Hfirst; [discriminate|].
  destruct (_ <=? 0) eqn:Hle; [discriminate|].
  intros [= ->]. apply first_None in Hfirst. apply Z.leb_gt in Hle. auto.
Qed.

Lemma check_status_reads_only (license_key : string)
    (product_slug instance_identifier : option string) (now : Z) (s : Store) :
  fst (LicenseServiceViewSet.check_status license_key product_slug instance_identifier
         now s) = s.
Proof.
  unfold LicenseServiceViewSet.check_status.
  destruct (LicenseServiceViewSet.validate_license_key license_key) as [key|]; [|reflexivity].
  destruct (LicenseServiceViewSet.get_license_key key s) as [k|[]]; try reflexivity.
  destruct (negb _); [reflexivity|].
  destruct (bind _ _); reflexivity.
Qed.

(** What a request can do to the store: nothing; save one license row over
    itself with its primary key and seats kept; free seats without touching
    the licenses; or insert one activation for a license that had a seat
    free. *)
Lemma dispatch_effect (req : urls.Request) (now : Z) (s : Store) :
  let s' := fst (urls.dispatch req now s) in
  s' = s
  \/ (exists l0 l1,
         In l0 (licenses s) /\ License.id l1 = License.id l0
         /\ License.seats l1 = License.seats l0
         /\ s' = with_licenses (License.save l1 (licenses s)) s)
  \/ (licenses s' = licenses s
      /\ forall l, (Spec.active_count l (activations s')
                    <= Spec.active_count l (activations s))%nat)
  \/ (exists l0 a,
         In l0 (licenses s) /\ 0 < License.available_seats l0 (activations s)
         /\ Activation.license a = License.id l0
         /\ s' = with_new_activation (activations s ++ [a]) s).
Proof.
  assert (Hsaved : forall (c : Lifecycle.Call) l0 l1 rows1,
             In l0 (licenses s) ->
             Lifecycle.call c l0 (licenses s) = Ok (l1, rows1) ->
             exists l0' l1',
               In l0' (licenses s) /\ License.id l1' = License.id l0'
               /\ License.seats l1' = License.seats l0'
               /\ with_licenses rows1 s = with_licenses (License.save l1' (licenses s)) s).
  { intros c l0 l1 rows1 Hin Hcall. exists l0, l1.
    pose proof (call_Ok _ _ _ _ _ Hcall) as (Hid & _ & _ & Hseats & _).
    repeat split; auto. f_equal.
    destruct c; simpl in Hcall;
      [apply renew_Ok in Hcall|apply suspend_Ok in Hcall
      |apply resume_Ok in Hcall|apply cancel_Ok in Hcall]; tauto. }
  destruct req as [user pk new reason|user pk reason|user pk|user pk reason
                  |user pk new_status|user pk reason|user ids reason
                  |key slug inst|key slug inst type];
    cbn [urls.dispatch].
  - unfold LicenseViewSet.renew.
    destruct (LicenseViewSet.get_object user pk s) as [l0|e] eqn:Hget; [|now left].
    apply license_get_object_In in Hget as [Hin _].
    destruct (new <=? now); [now left|].
    destruct (License.renew l0 new reason (licenses s)) as [[l1 rows1]|e] eqn:Hrun.
    + right. left. apply (Hsaved (Lifecycle.renew new reason) l0 l1 rows1 Hin Hrun).
    + left. apply failure_keeps_store.
  - unfold LicenseViewSet.suspend.
    destruct (LicenseViewSet.get_object user pk s) as [l0|e] eqn:Hget; [|now left].
    apply license_get_object_In in Hget as [Hin _].
    destruct (License.suspend l0 reason now (licenses s)) as [[l1 rows1]|e] eqn:Hrun.
    + right. left. apply (Hsaved (Lifecycle.suspend reason now) l0 l1 rows1 Hin Hrun).
    + left. apply failure_keeps_store.
  - unfold LicenseViewSet.resume.
    destruct (LicenseViewSet.get_object user pk s) as [l0|e] eqn:Hget; [|now left].
    apply license_get_object_In in Hget as [Hin _].
    destruct (License.resume l0 (licenses s)) as [[l1 rows1]|e] eqn:Hrun.
    + right. left. apply (Hsaved Lifecycle.resume l0 l1 rows1 Hin Hrun).
    + left. apply failure_keeps_store.
  - unfold LicenseViewSet.cancel.
    destruct (LicenseViewSet.get_object user pk s) as [l0|e] eqn:Hget; [|now left].
    apply license_get_object_In in Hget as [Hin _].
    destruct (License.cancel l0 reason now (licenses s)) as [[l1 rows1]|e] eqn:Hrun.
    + right. left. apply (Hsaved (Lifecycle.cancel reason now) l0 l1 rows1 Hin Hrun).
    + left. apply failure_keeps_store.
  - unfold LicenseViewSet.change_status.
    destruct (LicenseViewSet.get_object user pk s) as [l0|e] eqn:Hget; [|now left].
    apply license_get_object_In in Hget as [Hin _].
    destruct new_status as [x|]; [|now left].
    destruct (Status.of_str x) as [st|]; [|now left].
    right. left. exists l0, (License.set_status l0 st). repeat split; auto.
  - unfold ActivationViewSet.deactivate.
    destruct (ActivationViewSet.get_object user pk s) as [a|e]; [|now left].
    destruct (negb _); [now left|].
    right. right. left. cbn [Activation.deactivate fst licenses activations with_activations].
    split; [reflexivity|]. intros l. now apply active_count_save_le.
  - unfold ActivationViewSet.bulk_deactivate.
    destruct ids as [|i ids]; [now left|].
    pose proof (bulk_deactivate_loop_accounts user reason now (i :: ids) 0 [] s) as Hacc.
    pose proof (fun l => bulk_deactivate_loop_frees user reason now (i :: ids) l 0 [] s)
      as Hfree.
    destruct (ActivationViewSet.bulk_deactivate_loop user reason now (i :: ids) 0 [] s)
      as [[count errors] s1].
    right. right. left. destruct Hacc as [_ [_ Hlic]]. split; [exact Hlic|exact Hfree].
  - left. apply check_status_reads_only.
  - unfold LicenseServiceViewSet.activate.
    destruct (LicenseServiceViewSet.activate_check key slug inst now s) as [r|l0] eqn:Hcheck;
      [now left|].
    apply activate_check_Proceed in Hcheck as [Hres [Hseats _]].
    apply activate_resolve_In in Hres.
    unfold LicenseServiceViewSet.activate_create, Activation.create.
    destruct (existsb _ (activations s)); [now left|].
    right. right. right. eexists. eexists. repeat split; eauto.
Qed.

Lemma dispatch_respects_seats (req : urls.Request) (now : Z) (s : Store) :
  NoDup (Invariant.license_pks s) ->
  Invariant.seats_respected s ->
  NoDup (Invariant.license_pks (fst (urls.dispatch req now s)))
  /\ Invariant.seats_respected (fst (urls.dispatch req now s)).
Proof.
  intros Hpk Hinv. unfold Invariant.license_pks, Invariant.seats_respected in *.
  destruct (dispatch_effect req now s)
    as [-> | [(l0 & l1 & Hin & Hid & Hseats & ->) | [[Hlic Hfree]
       | (l0 & a & Hin & Hfreeseat & Hlica & ->)]]].
  - auto.
  - cbn [licenses activations with_licenses]. split.
    + now rewrite (license_save_pks l0 l1).
    + intros l Hl. apply license_save_members in Hl as [-> | Hl]; [|now apply Hinv].
      rewrite (active_count_pk l0 l1), Hseats; [now apply Hinv|exact Hid].
  - rewrite Hlic. split; [exact Hpk|].
    intros l Hl. etransitivity; [apply Hfree|now apply Hinv].
  - cbn [licenses activations with_new_activation]. split; [exact Hpk|].
    intros l Hl. rewrite active_count_app. unfold Spec.active_count at 2. simpl.
    destruct (Activation.license a =? License.id l) eqn:E.
    + apply Z.eqb_eq in E.
      assert (l = l0) by (apply (NoDup_map_eq License.id (licenses s)); auto; congruence).
      subst l. rewrite available_seats_active_count in Hfreeseat.
      destruct (Activation.is_active a); simpl; lia.
    + simpl. specialize (Hinv l Hl). lia.
Qed.

(** X9: served one after another, no sequence of renew, suspend, resume,
    cancel, change_status, deactivate, bulk_deactivate, check_status and
    activate requests oversubscribes a license: if the license primary keys
    are unique and no license has more active activations than seats, the
    same holds after all the requests. *)
Theorem serving_in_turn_respects_seats :
  forall (requests : list (urls.Request * Z)) (s : Store),
    NoDup (Invariant.license_pks s) ->
    Invariant.seats_respected s ->
    NoDup (Invariant.license_pks (Invariant.serve requests s))
    /\ Invariant.seats_respected (Invariant.serve requests s).
Proof.
  induction requests as [|[req now] requests IH]; intros s Hpk Hinv; simpl; [auto|].
  destruct (dispatch_respects_seats req now s Hpk Hinv) as [Hpk' Hinv'].
  now apply IH.
Qed.

Lemma serving_in_turn_respects_seats_witness :
  let req instance :=
    (urls.service_activate "TEST-LICENSE-KEY-12345" "test-product" instance "website",
     conftest.now) in
  Invariant.seats_respected
    (Invariant.serve [req "https://a.example.com"; req "https://b.example.com";
                      req "https://c.example.com"]
       (conftest.store_with (conftest.license_with Status.valid 2) [])).
Proof.
  intros req.
  apply (serving_in_turn_respects_seats
           [req "https://a.example.com"; req "https://b.example.com";
            req "https://c.example.com"]
           (conftest.store_with (conftest.license_with Status.valid 2) [])).
  - simpl. constructor; [intros []|constructor].
  - intros l [<- | []]. vm_compute. lia.
Defined.

(** ** Bulk deactivation, row by row *)

Lemma get_owned_Ok (user : User.t) (i : Z) (s : Store) (a : Activation.t) :
  ActivationViewSet.get_owned user i s = Ok a ->
  In a (activations s) /\ Activation.id a = i
  /\ license__license_key__customer_email s a (User.email user) = true.
Proof.
  intros H. apply get_Ok_In in H as [Hin Hcond].
  apply andb_prop in Hcond as [Hid Hown]. apply Z.eqb_eq in Hid. auto.
Qed.

Lemma get_owned_after_deactivate (user : User.t) (i : Z) (s : Store) (a x : Activation.t) :
  NoDup (Invariant.activation_pks s) ->
  Activation.id x = Activation.id a ->
  Activation.license x = Activation.license a ->
  ActivationViewSet.get_owned user i s = Ok a ->
  ActivationViewSet.get_owned user i (with_activations (Activation.save x (activations s)) s)
  = Ok x.
Proof.
  intros Hpk Hid Hlic Hget. destruct (get_owned_Ok _ _ _ _ Hget) as [Hin _].
  unfold ActivationViewSet.get_owned in *. cbn [activations with_activations].
  apply (get_after_save a x (activations s) Hpk Hin Hid); [|exact Hget].
  unfold license__license_key__customer_email. now rewrite Hid, Hlic.
Qed.

Section BulkRows.

Variables (user : User.t) (reason : string) (now : Z).

Let after (ids : list Z) (count : Z) (errors : list string) (s : Store) : Store :=
  snd (ActivationViewSet.bulk_deactivate_loop user reason now ids count errors s).

Lemma bulk_keeps_unlisted (a : Activation.t) (ids : list Z) :
  forall count errors s,
    In a (activations s) -> ~ In (Activation.id a) ids ->
    In a (activations (after ids count errors s)).
Proof.
  unfold after. induction ids as [|i ids IH]; intros count errors s Hin Hnot; [exact Hin|].
  cbn [ActivationViewSet.bulk_deactivate_loop].
  assert (Hrest : ~ In (Activation.id a) ids) by (intros H; apply Hnot; now right).
  destruct (ActivationViewSet.get_owned user i s) as [b|e] eqn:Hget.
  - destruct (Activation.is_active b); [|now apply IH].
    cbn [Activation.deactivate]. apply IH; [|exact Hrest].
    cbn [activations with_activations]. apply save_other_id; [|exact Hin].
    simpl. apply get_owned_Ok in Hget as (_ & Hid & _).
    intros Heq. apply Hnot. left. congruence.
  - destruct e; now apply IH.
Qed.

Lemma bulk_keeps_foreign (a : Activation.t) (ids : list Z) :
  forall count errors s,
    NoDup (Invariant.activation_pks s) ->
    In a (activations s) ->
    license__license_key__customer_email s a (User.email user) = false ->
    In a (activations (after ids count errors s)).
Proof.
  unfold after. induction ids as [|i ids IH]; intros count errors s Hpk Hin Hforeign;
    [exact Hin|].
  cbn [ActivationViewSet.bulk_deactivate_loop].
  destruct (ActivationViewSet.get_owned user i s) as [b|e] eqn:Hget.
  - destruct (Activation.is_active b); [|now apply IH].
    cbn [Activation.deactivate]. apply get_owned_Ok in Hget as (Hb & Hid & Hown).
    assert (Hne : Activation.id a <> Activation.id b).
    { intros Heq. assert (a = b)
        by (apply (NoDup_map_eq Activation.id (activations s)); auto).
      subst b. congruence. }
    apply IH.
    + unfold Invariant.activation_pks in *. cbn [activations with_activations].
      now rewrite (activation_save_pks b).
    + cbn [activations with_activations]. now apply save_other_id.
    + exact Hforeign.
  - destruct e; now apply IH.
Qed.

Lemma bulk_settles (ids : list Z) :
  forall count errors s,
    NoDup (Invariant.activation_pks s) ->
    (forall i a, ActivationViewSet.get_owned user i s = Ok a ->
                 Activation.is_active a = false ->
                 ActivationViewSet.get_owned user i (after ids count errors s) = Ok a)
    /\ (forall i a, In i ids ->
                    ActivationViewSet.get_owned user i s = Ok a ->
                    Activation.is_active a = true ->
                    ActivationViewSet.get_owned user i (after ids count errors s)
                    = Ok (Spec.deactivated a reason now)).
Proof.
  unfold after. induction ids as [|j ids IH]; intros count errors s Hpk.
  - split; [auto|intros i a []].
  - assert (Hstep : forall b, ActivationViewSet.get_owned user j s = Ok b ->
                              Activation.is_active b = true ->
                              ActivationViewSet.bulk_deactivate_loop user reason now (j :: ids)
                                count errors s
                              = ActivationViewSet.bulk_deactivate_loop user reason now ids
                                  (count + 1) errors
                                  (with_activations
                                     (Activation.save (Spec.deactivated b reason now)
                                        (activations s)) s))
      by (intros b; apply bulk_step_active).
    assert (Hskip : forall i a, ActivationViewSet.get_owned user i s = Ok a ->
                                (forall b, ActivationViewSet.get_owned user j s = Ok b ->
                                           Activation.is_active b = false) ->
                                exists count' errors',
                                  ActivationViewSet.bulk_deactivate_loop user reason now
                                    (j :: ids) count errors s
                                  = ActivationViewSet.bulk_deactivate_loop user reason now ids
                                      count' errors' s).
    { intros i a _ Hidle. cbn [ActivationViewSet.bulk_deactivate_loop].
      destruct (ActivationViewSet.get_owned user j s) as [b|e].
      - rewrite (Hidle b eq_refl). eauto.
      - destruct e; eauto. }
    assert (Hpk1 : forall b, ActivationViewSet.get_owned user j s = Ok b ->
                             NoDup (Invariant.activation_pks
                                      (with_activations
                                         (Activation.save (Spec.deactivated b reason now)
                                            (activations s)) s))).
    { intros b Hb. apply get_owned_Ok in Hb as (Hb & _).
      unfold Invariant.activation_pks in *. cbn [activations with_activations].
      now rewrite (activation_save_pks b). }
    split.
    + intros i a Hget Hidle_a.
      destruct (ActivationViewSet.get_owned user j s) as [b|e] eqn:Hj.
      * destruct (Activation.is_active b) eqn:Hb.
        -- rewrite (Hstep b eq_refl Hb).
           destruct (IH (count + 1) errors _ (Hpk1 b eq_refl)) as [IHidle _].
           apply IHidle; [|exact Hidle_a].
           apply get_owned_after_save; [|exact Hget]. simpl.
           pose proof (get_owned_Ok _ _ _ _ Hj) as (_ & Hjid & _).
           intros Heq. assert (Hji : j = i) by congruence.
           rewrite Hji, Hget in Hj. injection Hj as ->. congruence.
        -- destruct (Hskip i a Hget) as [c' [e' ->]];
             [intros b' [= <-]; exact Hb|].
           destruct (IH c' e' s Hpk) as [IHidle _]. now apply IHidle.
      * destruct (Hskip i a Hget) as [c' [e' ->]]; [intros b' Hb'; discriminate|].
        destruct (IH c' e' s Hpk) as [IHidle _]. now apply IHidle.
    + intros i a Hi Hget Hact.
      destruct (Z.eq_dec j i) as [-> | Hne].
      * rewrite (Hstep a Hget Hact).
        destruct (IH (count + 1) errors _ (Hpk1 a Hget)) as [IHidle _].
        apply IHidle; [|reflexivity].
        now apply get_owned_after_deactivate with (a := a).
      * destruct Hi as [Hi | Hi]; [contradiction|].
        destruct (ActivationViewSet.get_owned user j s) as [b|e] eqn:Hj.
        -- destruct (Activation.is_active b) eqn:Hb.
           ++ rewrite (Hstep b eq_refl Hb).
              destruct (IH (count + 1) errors _ (Hpk1 b eq_refl)) as [_ IHlisted].
              apply IHlisted; [exact Hi| |exact Hact].
              apply get_owned_after_save; [|exact Hget]. simpl.
              pose proof (get_owned_Ok _ _ _ _ Hj) as (_ & Hjid & _). congruence.
           ++ destruct (Hskip i a Hget) as [c' [e' ->]];
                [intros b' [= <-]; exact Hb|].
              destruct (IH c' e' s Hpk) as [_ IHlisted]. now apply IHlisted.
        -- destruct (Hskip i a Hget) as [c' [e' ->]]; [intros b' Hb'; discriminate|].
           destruct (IH c' e' s Hpk) as [_ IHlisted]. now apply IHlisted.
Qed.

End BulkRows.

Lemma bulk_deactivate_store (user : User.t) (ids : list Z) (reason : string) (now : Z)
    (s : Store) :
  fst (ActivationViewSet.bulk_deactivate user ids reason now s)
  = snd (ActivationViewSet.bulk_deactivate_loop user reason now ids 0 [] s).
Proof.
  unfold ActivationViewSet.bulk_deactivate. destruct ids as [|i ids]; [reflexivity|].
  destruct (ActivationViewSet.bulk_deactivate_loop _ _ _ _ _ _ _) as [[count errors] s1].
  reflexivity.
Qed.

(** X10: [bulk_deactivate] leaves alone every activation whose id is not in
    the batch, and, with unique primary keys, every activation whose license
    key belongs to another customer than the request user, whether or not
    the user is staff or license admin. *)
Theorem bulk_deactivate_touches_only_own_listed :
  forall (user : User.t) (ids : list Z) (reason : string) (now : Z) (s : Store)
         (a : Activation.t),
    In a (activations s) ->
    (~ In (Activation.id a) ids ->
     In a (activations (fst (ActivationViewSet.bulk_deactivate user ids reason now s))))
    /\ (NoDup (Invariant.activation_pks s) ->
        license__license_key__customer_email s a (User.email user) = false ->
        In a (activations (fst (ActivationViewSet.bulk_deactivate user ids reason now s)))).
Proof.
  intros user ids reason now s a Hin. rewrite bulk_deactivate_store. split.
  - intros Hnot. now apply bulk_keeps_unlisted.
  - intros Hpk Hforeign. now apply bulk_keeps_foreign.
Qed.

Lemma bulk_deactivate_touches_only_own_listed_witness :
  let s := conftest.store_with conftest.license
             [conftest.activation_with 1 "https://test1.example.com" true;
              conftest.activation_with 2 "https://test2.example.com" true] in
  In (conftest.activation_with 2 "https://test2.example.com" true)
     (activations (fst (ActivationViewSet.bulk_deactivate conftest.admin_user [1]
                          "Testing bulk deactivation" conftest.now s)))
  /\ In (conftest.activation_with 1 "https://test1.example.com" true)
        (activations (fst (ActivationViewSet.bulk_deactivate
                             (User.mk "staff" "staff@test.com" true true) [1; 2]
                             "Testing bulk deactivation" conftest.now s))).
Proof.
  intros s. split.
  - destruct (bulk_deactivate_touches_only_own_listed conftest.admin_user [1]
                "Testing bulk deactivation" conftest.now s
                (conftest.activation_with 2 "https://test2.example.com" true))
      as [Hunlisted _].
    + right. now left.
    + apply Hunlisted. simpl. intros [H | []]. discriminate H.
  - destruct (bulk_deactivate_touches_only_own_listed
                (User.mk "staff" "staff@test.com" true true) [1; 2]
                "Testing bulk deactivation" conftest.now s
                (conftest.activation_with 1 "https://test1.example.com" true))
      as [_ Hforeign].
    + now left.
    + apply Hforeign; [|reflexivity].
      simpl. constructor; [simpl; intros [H | []]; discriminate H|].
      constructor; [intros []|constructor].
Defined.

(** X11: with unique primary keys, every id of the batch that names one of
    the request user's activations ends inactive, however often the id
    occurs in the batch: an activation that was active carries the batch's
    reason and time, one that was already inactive is as it was. *)
Theorem bulk_deactivate_settles_every_owned_id :
  forall (user : User.t) (ids : list Z) (reason : string) (now : Z) (s : Store)
         (i : Z) (a : Activation.t),
    NoDup (Invariant.activation_pks s) ->
    In i ids ->
    ActivationViewSet.get_owned user i s = Ok a ->
    ActivationViewSet.get_owned user i
      (fst (ActivationViewSet.bulk_deactivate user ids reason now s))
    = Ok (if Activation.is_active a then Spec.deactivated a reason now else a).
Proof.
  intros user ids reason now s i a Hpk Hi Hget. rewrite bulk_deactivate_store.
  destruct (bulk_settles user reason now ids 0 [] s Hpk) as [Hidle Hlisted].
  destruct (Activation.is_active a) eqn:Ha; [now apply Hlisted|now apply Hidle].
Qed.

Lemma bulk_deactivate_settles_every_owned_id_witness :
  let s := conftest.store_with conftest.license
             [conftest.activation_with 1 "https://test1.example.com" true] in
  ActivationViewSet.get_owned conftest.admin_user 1
    (fst (ActivationViewSet.bulk_deactivate conftest.admin_user [1; 1]
            "Testing bulk deactivation" conftest.now s))
  = Ok (Spec.deactivated (conftest.activation_with 1 "https://test1.example.com" true)
          "Testing bulk deactivation" conftest.now).
Proof.
  intros s.
  apply (bulk_deactivate_settles_every_owned_id conftest.admin_user [1; 1]
           "Testing bulk deactivation" conftest.now s 1
           (conftest.activation_with 1 "https://test1.example.com" true)).
  - simpl. constructor; [intros []|constructor].
  - now left.
  - reflexivity.
Defined.

(** ** Activation, call after call *)

Lemma activation_save_members (x r : Activation.t) (rows : list Activation.t) :
  In r (Activation.save x rows) -> r = x \/ In r rows.
Proof.
  unfold Activation.save. destruct (existsb _ rows).
  - rewrite in_map_iff. intros [r0 [Hr0 Hin]].
    destruct (Activation.id r0 =? Activation.id x); [now left|right; now subst].
  - rewrite in_app_iff. simpl. intuition congruence.
Qed.

(** X17: when [activate] has created an activation, a further call for the
    same key, product and instance, made while the license still resolves,
    answers with the id of that activation and changes nothing, whatever
    instance type it carries. *)
Theorem activate_again_returns_same_activation :
  forall (license_key product_slug instance_identifier instance_type other_type : string)
         (now later : Z) (s s1 : Store) (l : License.t) (r : Response),
    LicenseServiceViewSet.activate_check license_key product_slug instance_identifier now s
    = LicenseServiceViewSet.Proceed l ->
    LicenseServiceViewSet.activate license_key product_slug instance_identifier
      instance_type now s = (s1, Ok r) ->
    LicenseServiceViewSet.activate_resolve license_key product_slug later s
    = LicenseServiceViewSet.Proceed l ->
    item "activation_id" (data r) = Some (VInt (activation_seq s))
    /\ LicenseServiceViewSet.activate license_key product_slug instance_identifier
         other_type later s1
       = (s1, Ok (mkResponse HTTP_200_OK
                    (VDict [("success", VBool true);
                            ("message", VStr "License already activated for this instance");
                            ("activation_id", VInt (activation_seq s))]))).
Proof.
  intros key slug inst type type2 now later s s1 l r Hcheck Hrun Hlater.
  destruct (activate_check_Proceed _ _ _ _ _ _ Hcheck) as (_ & _ & Hnone).
  unfold LicenseServiceViewSet.activate in Hrun. rewrite Hcheck in Hrun.
  unfold LicenseServiceViewSet.activate_create, Activation.create in Hrun.
  destruct (existsb _ (activations s)); [discriminate Hrun|].
  injection Hrun as <- <-. split; [reflexivity|].
  unfold LicenseServiceViewSet.activate, LicenseServiceViewSet.activate_check.
  change (LicenseServiceViewSet.activate_resolve key slug later
            (with_new_activation
               (activations s
                ++ [Activation.mk (activation_seq s) (License.id l) inst type true now None
                      EmptyString]) s))
    with (LicenseServiceViewSet.activate_resolve key slug later s).
  rewrite Hlater. cbn [activations with_new_activation].
  rewrite filter_app, Hnone. simpl.
  rewrite Z.eqb_refl, String.eqb_refl. reflexivity.
Qed.

Lemma activate_again_returns_same_activation_witness :
  let s := conftest.store_with conftest.license [] in
  let s1 := fst (LicenseServiceViewSet.activate "TEST-LICENSE-KEY-12345" "test-product"
                   "https://test.example.com" "website" conftest.now s) in
  LicenseServiceViewSet.activate "TEST-LICENSE-KEY-12345" "test-product"
    "https://test.example.com" "app" (conftest.now + 1) s1
  = (s1, Ok (mkResponse HTTP_200_OK
               (VDict [("success", VBool true);
                       ("message", VStr "License already activated for this instance");
                       ("activation_id", VInt 1)]))).
Proof.
  intros s s1.
  destruct (LicenseServiceViewSet.activate "TEST-LICENSE-KEY-12345" "test-product"
              "https://test.example.com" "website" conftest.now s) as [s1' [r|e]] eqn:Hrun;
    [|vm_compute in Hrun; discriminate Hrun].
  assert (Hcheck : LicenseServiceViewSet.activate_check "TEST-LICENSE-KEY-12345"
                     "test-product" "https://test.example.com" conftest.now s
                   = LicenseServiceViewSet.Proceed conftest.license) by reflexivity.
  assert (Hlater : LicenseServiceViewSet.activate_resolve "TEST-LICENSE-KEY-12345"
                     "test-product" (conftest.now + 1) s
                   = LicenseServiceViewSet.Proceed conftest.license) by reflexivity.
  destruct (activate_again_returns_same_activation _ _ _ _ "app" _ _ _ _ _ _
              Hcheck Hrun Hlater) as [_ Hagain].
  subst s1. simpl fst. exact Hagain.
Defined.

(** X16: with unique primary keys, the seat freed by a deactivation can be
    taken by another instance.  After an active activation of license [l]
    is deactivated, [activate] for an instance that has no activation row on
    [l] creates one, provided [l] was not oversubscribed and still resolves;
    the response reports seats - (active count before the deactivation) - 1
    available seats. *)
Theorem freed_seat_is_taken_by_another_instance :
  forall (user : User.t) (pk : Z) (reason : option string) (now later : Z) (s : Store)
         (a : Activation.t)
         (license_key product_slug instance_identifier instance_type : string)
         (l : License.t),
    NoDup (Invariant.activation_pks s) ->
    ActivationViewSet.get_object user pk s = Ok a ->
    Activation.is_active a = true ->
    let s1 := fst (ActivationViewSet.deactivate user pk reason now s) in
    LicenseServiceViewSet.activate_resolve license_key product_slug later s1
    = LicenseServiceViewSet.Proceed l ->
    Activation.license a = License.id l ->
    (Spec.active_count l (activations s) <= License.seats l)%nat ->
    (forall x, In x (activations s) -> Activation.license x = License.id l ->
               Activation.instance_identifier x <> instance_identifier) ->
    let created :=
      Activation.mk (activation_seq s) (License.id l) instance_identifier instance_type
        true later None EmptyString in
    LicenseServiceViewSet.activate license_key product_slug instance_identifier
      instance_type later s1
    = (with_new_activation (activations s1 ++ [created]) s1,
       Ok (mkResponse HTTP_200_OK
             (VDict [("success", VBool true);
                     ("message", VStr "License activated successfully");
                     ("activation_id", VInt (activation_seq s));
                     ("available_seats",
                      VInt (Z.of_nat (License.seats l)
                            - Z.of_nat (Spec.active_count l (activations s)) - 1))]))).
Proof.
  intros user pk reason now later s a key slug inst type l Hpk Hget Hact s1
         Hres Hl Hfit Hfresh created.
  destruct (activation_get_object_In _ _ _ _ Hget) as [Hin _].
  set (gone := Spec.deactivated a (or_empty reason) now).
  assert (Hs1 : s1 = with_activations (Activation.save gone (activations s)) s).
  { subst s1. unfold ActivationViewSet.deactivate. now rewrite Hget, Hact. }
  assert (Hcount : Spec.active_count l (activations s)
                   = S (Spec.active_count l (activations s1))).
  { pose proof (active_count_after_save a gone (activations s) Hpk Hin eq_refl l
                  eq_refl Hact eq_refl) as H.
    rewrite Hl, Z.eqb_refl in H. rewrite Hs1. exact H. }
  assert (Hrows : forall x, In x (activations s1) -> Activation.license x = License.id l ->
                            Activation.instance_identifier x <> inst).
  { intros x Hx Hxl. rewrite Hs1 in Hx. cbn [activations with_activations] in Hx.
    apply activation_save_members in Hx as [-> | Hx]; [|now apply Hfresh].
    simpl. now apply Hfresh. }
  assert (Hseq : activation_seq s1 = activation_seq s) by (now rewrite Hs1).
  assert (Hnone : filter (fun x => (Activation.license x =? License.id l)
                                   && String.eqb (Activation.instance_identifier x) inst
                                   && Activation.is_active x) (activations s1) = []).
  { apply filter_none. intros x Hx.
    destruct (Activation.license x =? License.id l) eqn:E1; [|reflexivity].
    destruct (String.eqb (Activation.instance_identifier x) inst) eqn:E2; [|reflexivity].
    apply Z.eqb_eq in E1. apply String.eqb_eq in E2. exfalso. now apply (Hrows x). }
  assert (Hnorow : existsb (fun x => (Activation.license x =? License.id l)
                                     && String.eqb (Activation.instance_identifier x) inst)
                     (activations s1) = false).
  { apply not_true_iff_false. intros Hex. apply existsb_exists in Hex as [x [Hx Hcond]].
    apply andb_prop in Hcond as [Hxl Hxi].
    apply Z.eqb_eq in Hxl. apply String.eqb_eq in Hxi. now apply (Hrows x). }
  assert (Hreport : License.available_seats l (activations s1 ++ [created]) - 1
                    = Z.of_nat (License.seats l)
                      - Z.of_nat (Spec.active_count l (activations s)) - 1).
  { rewrite available_seats_active_count, active_count_app.
    unfold Spec.active_count at 2. simpl. rewrite Z.eqb_refl. simpl. lia. }
  unfold LicenseServiceViewSet.activate, LicenseServiceViewSet.activate_check.
  rewrite Hres, Hnone.
  change (QuerySet.first Activation.activated_at []) with (@None Activation.t).
  cbv iota. rewrite available_seats_active_count.
  destruct (_ <=? 0) eqn:Hle; [apply Z.leb_le in Hle; lia|].
  unfold LicenseServiceViewSet.activate_create, Activation.create.
  rewrite Hnorow, Hseq. fold created.
  cbn [activations with_new_activation]. now rewrite Hreport.
Qed.

Lemma freed_seat_is_taken_by_another_instance_witness :
  let s := conftest.store_with (conftest.license_with Status.valid 1) [conftest.activation] in
  let s1 := fst (ActivationViewSet.deactivate conftest.admin_user 1 (Some "Testing")
                   conftest.now s) in
  snd (LicenseServiceViewSet.activate "TEST-LICENSE-KEY-12345" "test-product"
         "https://other.example.com" "website" (conftest.now + 1) s1)
  = Ok (mkResponse HTTP_200_OK
          (VDict [("success", VBool true);
                  ("message", VStr "License activated successfully");
                  ("activation_id", VInt 2);
                  ("available_seats", VInt (-1))])).
Proof.
  intros s s1. subst s1.
  rewrite (freed_seat_is_taken_by_another_instance conftest.admin_user 1 (Some "Testing")
             conftest.now (conftest.now + 1) s conftest.activation
             "TEST-LICENSE-KEY-12345" "test-product" "https://other.example.com" "website"
             (conftest.license_with Status.valid 1)).
  - reflexivity.
  - simpl. constructor; [intros []|constructor].
  - reflexivity.
  - reflexivity.
  - reflexivity.
  - reflexivity.
  - vm_compute. lia.
  - intros x [<- | []] _. discriminate.
Defined.

(** ** The entitlement query *)

Lemma map_result_Ok {A B : Type} (f : A -> Result B) (l : list A) (ys : list B) :
  LicenseServiceViewSet.map_result f l = Ok ys -> Forall2 (fun x y => f x = Ok y) l ys.
Proof.
  revert ys. induction l as [|x l IH]; simpl; intros ys H.
  - injection H as <-. constructor.
  - destruct (f x) as [y|e] eqn:Hx; simpl in H; [|discriminate].
    destruct (LicenseServiceViewSet.map_result f l) as [ys'|e]; simpl in H; [|discriminate].
    injection H as <-. constructor; auto.
Qed.

Lemma check_status_licenses_entitled (k : LicenseKey.t) (product_slug : option string)
    (now : Z) (s : Store) (l : License.t) :
  In l (LicenseServiceViewSet.check_status_licenses k product_slug now s) ->
  License.status l = Status.valid /\ now < License.expiration_date l.
Proof.
  unfold LicenseServiceViewSet.check_status_licenses. intros H.
  assert (Hin : In l (filter (fun l => Status.eqb (License.status l) Status.valid
                                       && (now <? License.expiration_date l))
                        (LicenseKey_licenses k s)))
    by (destruct (truthy product_slug); [now apply filter_In in H|exact H]).
  apply filter_In in Hin as [_ Hcond]. apply andb_prop in Hcond as [Hst Hexp].
  apply status_eqb_eq in Hst. apply Z.ltb_lt in Hexp. auto.
Qed.

(** X12: [check_status] never writes to the store.  When it answers 200,
    the response lists one entry per license of the key that passes the
    filter, and every entry has status "valid", an expiration date later
    than [now], the moment the view filters at, and an [available_seats]
    between 0 and its [seats].  (The [is_expired] flag of an entry comes
    from a clock read of its own, made after the filter, and is no part of
    the statement.) *)
Theorem check_status_reports_entitled_only :
  forall (license_key : string) (product_slug instance_identifier : option string)
         (now : Z) (s : Store),
    fst (LicenseServiceViewSet.check_status license_key product_slug instance_identifier
           now s) = s
    /\ forall r,
         snd (LicenseServiceViewSet.check_status license_key product_slug
                instance_identifier now s) = Ok r ->
         status_code r = HTTP_200_OK ->
         exists k rows,
           LicenseServiceViewSet.get_license_key license_key s = Ok k
           /\ item "licenses" (data r) = Some (VList rows)
           /\ rows <> []
           /\ List.length rows
              = List.length (LicenseServiceViewSet.check_status_licenses k product_slug now s)
           /\ Forall (fun row =>
                        item "status" row = Some (VStr "valid")
                        /\ (exists expiration,
                               item "expiration_date" row = Some (VTime expiration)
                               /\ now < expiration)
                        /\ exists seats available,
                             item "seats" row = Some (VInt seats)
                             /\ item "available_seats" row = Some (VInt available)
                             /\ 0 <= available <= seats) rows.
Proof.
  intros key slug inst now s. split; [apply check_status_reads_only|].
  intros r. unfold LicenseServiceViewSet.check_status.
  destruct (LicenseServiceViewSet.validate_license_key key) as [key'|] eqn:Hvalid;
    [|discriminate].
  assert (key' = key) as ->.
  { unfold LicenseServiceViewSet.validate_license_key in Hvalid.
    destruct (_ || _); [discriminate|now injection Hvalid]. }
  destruct (LicenseServiceViewSet.get_license_key key s) as [k|e] eqn:Hkey.
  2:{ destruct e; simpl; try discriminate. intros [= <-]. discriminate. }
  destruct (QuerySet.exists_ _) eqn:Hexists; simpl negb; cbv iota.
  2:{ simpl. intros [= <-]. discriminate. }
  destruct (QuerySet.get _ (brands s)) as [brand|e]; simpl bind; [|discriminate].
  destruct (LicenseServiceViewSet.map_result _ _) as [rows|e] eqn:Hrows; simpl bind;
    [|discriminate].
  simpl. intros [= <-] _. exists k, rows.
  apply map_result_Ok in Hrows.
  assert (Hlen : List.length rows
                 = List.length (LicenseServiceViewSet.check_status_licenses k slug now s)).
  { apply Forall2_length in Hrows. rewrite <- Hrows.
    clear. generalize (LicenseServiceViewSet.check_status_licenses k slug now s).
    intros ls. unfold QuerySet.order_desc.
    induction ls as [|x ls IH]; simpl; [reflexivity|]. rewrite <- IH.
    generalize (fold_right (QuerySet.insert_desc License.created_at) [] ls).
    intros sorted. induction sorted as [|y sorted IHs]; simpl; [reflexivity|].
    destruct (_ <? _); simpl; [reflexivity|]. now rewrite IHs. }
  split; [reflexivity|]. split; [reflexivity|]. split; [|split; [exact Hlen|]].
  - intros ->. simpl in Hlen.
    destruct (LicenseServiceViewSet.check_status_licenses k slug now s);
      [discriminate Hexists|discriminate Hlen].
  - assert (Hsrc : Forall (fun l => License.status l = Status.valid
                                    /\ now < License.expiration_date l)
                     (QuerySet.order_desc License.created_at
                        (LicenseServiceViewSet.check_status_licenses k slug now s))).
    { apply Forall_forall. intros l Hl. apply order_desc_In in Hl.
      now apply check_status_licenses_entitled in Hl. }
    revert Hsrc. clear Hlen.
    generalize dependent (QuerySet.order_desc License.created_at
                            (LicenseServiceViewSet.check_status_licenses k slug now s)).
    intros sorted Hrows.
    induction Hrows as [|l row ls rows' Hrow _ IH]; intros Hsrc; constructor.
    + inversion Hsrc as [|? ? [Hst Hexp] _]; subst.
      destruct (QuerySet.get _ (products s)) as [product|e]; simpl in Hrow; [|discriminate].
      injection Hrow as <-. simpl. rewrite Hst.
      split; [reflexivity|]. split; [now exists (License.expiration_date l)|].
      eexists. eexists. repeat split.
      * unfold License.available_seats. lia.
      * unfold License.available_seats, QuerySet.count. lia.
    + apply IH. now inversion Hsrc.
Qed.

Lemma check_status_reports_entitled_only_witness :
  let s := conftest.store_with conftest.license [conftest.activation] in
  exists r rows,
    LicenseServiceViewSet.check_status "TEST-LICENSE-KEY-12345" None None conftest.now s
    = (s, Ok r)
    /\ item "licenses" (data r) = Some (VList rows)
    /\ List.length rows = 1%nat
    /\ Forall (fun row => item "available_seats" row = Some (VInt 4)) rows.
Proof.
  intros s.
  destruct (check_status_reports_entitled_only "TEST-LICENSE-KEY-12345" None None
              conftest.now s) as [Hstore Hrows].
  destruct (LicenseServiceViewSet.check_status "TEST-LICENSE-KEY-12345" None None
              conftest.now s) as [s' [r|e]] eqn:Hrun;
    [|vm_compute in Hrun; discriminate Hrun].
  simpl in Hstore. subst s'.
  assert (Hcode : status_code r = HTTP_200_OK)
    by (vm_compute in Hrun; injection Hrun as <-; reflexivity).
  destruct (Hrows r eq_refl Hcode) as (k & rows & Hk & Hitem & _ & Hlen & _).
  exists r, rows. split; [reflexivity|]. split; [exact Hitem|].
  assert (Hk' : k = conftest.license_key) by (vm_compute in Hk; now injection Hk).
  subst k. split; [exact Hlen|].
  vm_compute in Hrun. injection Hrun as <-. simpl in Hitem. injection Hitem as <-.
  repeat constructor.
Defined.

(** X13: for requests whose fields are graphic ASCII strings within the
    lengths of the serializers' fields, which reach [validate_license_key]
    and the views as they were sent.  A license key of fewer than ten
    characters is rejected by both [check_status] and [activate] with the
    validation error "Invalid license key format."; a key of ten characters
    or more that no active license key row carries is answered 404 "Invalid
    or inactive license key" by both, whatever licenses hang on an inactive
    row.  Neither writes to the store. *)
Theorem unknown_or_inactive_key_is_refused :
  forall (license_key product_slug instance_identifier instance_type : string)
         (status_slug status_instance : option string) (now : Z) (s : Store),
    char_field 255 license_key = true ->
    char_field 100 product_slug = true ->
    char_field 500 instance_identifier = true ->
    char_field 100 instance_type = true ->
    optional_char_field 100 status_slug = true ->
    optional_char_field 500 status_instance = true ->
    ((String.length license_key < 10)%nat ->
     LicenseServiceViewSet.check_status license_key status_slug status_instance now s
     = (s, Raise (ValidationError "Invalid license key format."))
     /\ LicenseServiceViewSet.activate license_key product_slug instance_identifier
          instance_type now s
        = (s, Raise (ValidationError "Invalid license key format.")))
    /\ ((10 <= String.length license_key)%nat ->
        (forall k, In k (license_keys s) -> LicenseKey.key k = license_key ->
                   LicenseKey.is_active k = false) ->
        LicenseServiceViewSet.check_status license_key status_slug status_instance now s
        = (s, Ok (mkResponse HTTP_404_NOT_FOUND
                    (VDict [("valid", VBool false);
                            ("error", VStr "Invalid or inactive license key")])))
        /\ LicenseServiceViewSet.activate license_key product_slug instance_identifier
             instance_type now s
           = (s, Ok (mkResponse HTTP_404_NOT_FOUND
                       (VDict [("success", VBool false);
                               ("error", VStr "Invalid or inactive license key")])))).
Proof.
  intros key slug inst type oslug oinst now s _ _ _ _ _ _. split.
  - intros Hshort.
    assert (Hvalid : LicenseServiceViewSet.validate_license_key key
                     = Raise (ValidationError "Invalid license key format.")).
    { unfold LicenseServiceViewSet.validate_license_key.
      apply Nat.ltb_lt in Hshort. rewrite Hshort, orb_true_r. reflexivity. }
    split.
    + unfold LicenseServiceViewSet.check_status. now rewrite Hvalid.
    + unfold LicenseServiceViewSet.activate, LicenseServiceViewSet.activate_check,
        LicenseServiceViewSet.activate_resolve. now rewrite Hvalid.
  - intros Hlong Hnone.
    assert (Hvalid : LicenseServiceViewSet.validate_license_key key = Ok key).
    { unfold LicenseServiceViewSet.validate_license_key.
      replace (String.length key <? 10)%nat with false
        by (symmetry; apply Nat.ltb_ge; exact Hlong).
      destruct key; [simpl in Hlong; lia|reflexivity]. }
    assert (Hkey : LicenseServiceViewSet.get_license_key key s = Raise DoesNotExist).
    { unfold LicenseServiceViewSet.get_license_key, QuerySet.get.
      rewrite filter_none; [reflexivity|]. intros k Hk.
      destruct (String.eqb (LicenseKey.key k) key) eqn:E; [|reflexivity].
      apply String.eqb_eq in E. simpl. now apply Hnone. }
    split.
    + unfold LicenseServiceViewSet.check_status. now rewrite Hvalid, Hkey.
    + unfold LicenseServiceViewSet.activate, LicenseServiceViewSet.activate_check,
        LicenseServiceViewSet.activate_resolve. now rewrite Hvalid, Hkey.
Qed.

Lemma unknown_or_inactive_key_is_refused_witness :
  LicenseServiceViewSet.activate "TEST-LICENSE-KEY-99999" "test-product"
    "https://test.example.com" "website" conftest.now
    (conftest.store_with conftest.license [])
  = (conftest.store_with conftest.license [],
     Ok (mkResponse HTTP_404_NOT_FOUND
           (VDict [("success", VBool false);
                   ("error", VStr "Invalid or inactive license key")])))
  /\ LicenseServiceViewSet.check_status "SHORT" None None conftest.now
       (conftest.store_with conftest.license [])
     = (conftest.store_with conftest.license [],
        Raise (ValidationError "Invalid license key format.")).
Proof.
  split.
  - destruct (unknown_or_inactive_key_is_refused "TEST-LICENSE-KEY-99999" "test-product"
                "https://test.example.com" "website" None None conftest.now
                (conftest.store_with conftest.license [])
                eq_refl eq_refl eq_refl eq_refl eq_refl eq_refl) as [_ Hunknown].
    destruct Hunknown as [_ Hactivate].
    + simpl. lia.
    + intros k [<- | []] Hk. discriminate Hk.
    + apply Hactivate.
  - destruct (unknown_or_inactive_key_is_refused "SHORT" "test-product"
                "https://test.example.com" "website" None None conftest.now
                (conftest.store_with conftest.license [])
                eq_refl eq_refl eq_refl eq_refl eq_refl eq_refl) as [Hshort _].
    destruct Hshort as [Hcheck _]; [simpl; lia|apply Hcheck].
Defined.

(** ** Seats of a license key *)

Lemma sum_from (l : list Z) (start : Z) : fold_left Z.add l start = start + sum l.
Proof.
  unfold sum. revert start. induction l as [|x l IH]; intros start; simpl; [lia|].
  rewrite (IH (start + x)), (IH x). lia.
Qed.

Lemma sum_cons (x : Z) (l : list Z) : sum (x :: l) = x + sum l.
Proof. unfold sum at 1. simpl. now rewrite sum_from. Qed.

Lemma sum_between {A : Type} (f g : A -> Z) (l : list A) :
  (forall x, In x l -> 0 <= f x <= g x) ->
  0 <= sum (map f l) <= sum (map g l).
Proof.
  induction l as [|x l IH]; intros H; simpl; [unfold sum; simpl; lia|].
  rewrite !sum_cons. specialize (H x (or_introl eq_refl)) as Hx.
  assert (0 <= sum (map f l) <= sum (map g l)) by (apply IH; intros y Hy; apply H; now right).
  lia.
Qed.

(** X15: the [active_seats] a license key's detail reports is the sum of the
    available seats of its licenses; it lies between 0 and [total_seats],
    and equals [total_seats] when none of the key's licenses has an active
    activation. *)
Theorem active_seats_within_total_seats :
  forall (obj : LicenseKey.t) (s : Store),
    0 <= LicenseKeyDetailSerializer.get_active_seats obj s
      <= LicenseKeyDetailSerializer.get_total_seats obj s
    /\ ((forall l, In l (licenses s) -> License.license_key l = LicenseKey.id obj ->
                   Spec.active_count l (activations s) = 0%nat) ->
        LicenseKeyDetailSerializer.get_active_seats obj s
        = LicenseKeyDetailSerializer.get_total_seats obj s).
Proof.
  intros obj s.
  unfold LicenseKeyDetailSerializer.get_active_seats,
    LicenseKeyDetailSerializer.get_total_seats, LicenseKey_get_total_seats.
  split.
  - apply sum_between. intros l _. rewrite available_seats_active_count. lia.
  - intros Hidle. f_equal. apply map_ext_in. intros l Hl.
    unfold LicenseKey_licenses in Hl. apply filter_In in Hl as [Hl Hk].
    apply Z.eqb_eq in Hk. rewrite available_seats_active_count, (Hidle l Hl Hk). lia.
Qed.

Lemma active_seats_within_total_seats_witness :
  LicenseKeyDetailSerializer.get_active_seats conftest.license_key
    (conftest.store_with conftest.license [])
  = 5.
Proof.
  destruct (active_seats_within_total_seats conftest.license_key
              (conftest.store_with conftest.license [])) as [_ Hidle].
  rewrite Hidle; [reflexivity|]. intros l _ _. reflexivity.
Defined.

(** ** Provisioning *)

Section Provision.

Variables (user : option User.t) (data : LicenseServiceViewSet.ProvisionData)
          (fresh : LicenseServiceViewSet.Fresh) (now : Z) (s : Store).

(** The license row a successful [provision] inserts under license key [k]. *)
Let provisioned (k : LicenseKey.t) (pid expiration : Z) : License.t :=
  License.mk (LicenseServiceViewSet.license_pk fresh) (LicenseKey.id k) pid Status.valid
    (Z.to_nat (match LicenseServiceViewSet.seats data with Some n => n | None => 1 end))
    expiration None 0 EmptyString EmptyString None None now.

Lemma provision_Ok (s' : Store) (r : Response) :
  LicenseServiceViewSet.provision user data fresh now s
  = (s', LicenseServiceViewSet.Answered (Ok r)) ->
  exists email bid pid expiration product k,
    LicenseServiceViewSet.customer_email data = Some email
    /\ LicenseServiceViewSet.brand_id data = Some bid
    /\ LicenseServiceViewSet.product_id data = Some pid
    /\ LicenseServiceViewSet.expiration_date data = Some expiration
    /\ 0 <= match LicenseServiceViewSet.seats data with Some n => n | None => 1 end
    /\ In product (products s) /\ Product.id product = pid
    /\ ((license_keys s' = license_keys s
         /\ filter (fun k => String.eqb (LicenseKey.customer_email k) email
                             && (LicenseKey.brand k =? bid)) (license_keys s) = [k])
        \/ (license_keys s' = license_keys s ++ [k]
            /\ filter (fun k => String.eqb (LicenseKey.customer_email k) email
                                && (LicenseKey.brand k =? bid)) (license_keys s) = []
            /\ k = LicenseKey.mk (LicenseServiceViewSet.license_key_pk fresh)
                     (LicenseServiceViewSet.uuid4 fresh) email bid true
            /\ forall k0, In k0 (license_keys s) ->
                          LicenseKey.key k0 <> LicenseServiceViewSet.uuid4 fresh))
    /\ licenses s' = licenses s ++ [provisioned k pid expiration]
    /\ brands s' = brands s /\ products s' = products s
    /\ activations s' = activations s /\ activation_seq s' = activation_seq s
    /\ r = mkResponse LicenseServiceViewSet.HTTP_201_CREATED
             (VDict [("success", VBool true);
                     ("license_key", VStr (LicenseKey.key k));
                     ("license_id", VInt (LicenseServiceViewSet.license_pk fresh));
                     ("message", VStr "License provisioned successfully")]).
Proof.
  unfold LicenseServiceViewSet.provision.
  destruct (negb _); [discriminate|].
  destruct (LicenseServiceViewSet.customer_email data) as [email|]; [|discriminate].
  destruct (LicenseServiceViewSet.brand_id data) as [bid|]; [|discriminate].
  destruct (LicenseServiceViewSet.product_id data) as [pid|]; [|discriminate].
  destruct (LicenseServiceViewSet.expiration_date data) as [expiration|]; [|discriminate].
  destruct (negb _); [discriminate|].
  destruct (QuerySet.get _ (brands s)) as [brand|e] eqn:Hbrand; simpl bind.
  2:{ destruct e; discriminate. }
  apply get_Ok_In in Hbrand as [_ Hbrand]. apply andb_prop in Hbrand as [Hbid _].
  apply Z.eqb_eq in Hbid.
  destruct (QuerySet.get _ (products s)) as [product|e] eqn:Hproduct; simpl bind.
  2:{ destruct e; discriminate. }
  apply get_Ok_In in Hproduct as [Hpin Hpcond].
  apply andb_prop in Hpcond as [Hpcond _]. apply andb_prop in Hpcond as [Hpid _].
  apply Z.eqb_eq in Hpid.
  unfold LicenseServiceViewSet.get_or_create_license_key. rewrite Hbid.
  destruct (QuerySet.get _ (license_keys s)) as [k|e] eqn:Hk.
  - destruct (_ <? 0) eqn:Hneg; [discriminate|]. apply Z.ltb_ge in Hneg.
    intros [= <- <-]. apply get_Ok in Hk.
    exists email, bid, pid, expiration, product, k. rewrite Hpid.
    repeat split; auto.
  - destruct e; try discriminate.
    destruct (existsb _ (license_keys s)) eqn:Hdup; [discriminate|].
    destruct (_ <? 0) eqn:Hneg; [discriminate|]. apply Z.ltb_ge in Hneg.
    intros [= <- <-].
    exists email, bid, pid, expiration, product,
      (LicenseKey.mk (LicenseServiceViewSet.license_key_pk fresh)
         (LicenseServiceViewSet.uuid4 fresh) email bid true).
    rewrite Hpid. repeat split; auto. right. repeat split.
    + unfold QuerySet.get in Hk.
      destruct (filter _ (license_keys s)) as [|k1 [|k2 rest]]; [reflexivity| |]; discriminate.
    + intros k0 Hk0 Heq. apply not_true_iff_false in Hdup. apply Hdup.
      apply existsb_exists. exists k0. split; [exact Hk0|]. now apply String.eqb_eq.
Qed.

(** X18: [provision] is denied to an anonymous user and to a user who is
    neither license admin nor staff; whenever it does not answer with a
    response, the store is as it was; and when it answers, the rows that
    were in the store are still there, in place, with one license row added
    at the end whose status is valid. *)
Theorem provision_writes_only_on_success :
  (match user with
   | Some u => User.is_license_admin u = false /\ User.is_staff u = false
   | None => True
   end ->
   LicenseServiceViewSet.provision user data fresh now s
   = (s, LicenseServiceViewSet.Denied "Only license admins can provision licenses."))
  /\ (forall s' out,
         LicenseServiceViewSet.provision user data fresh now s = (s', out) ->
         (forall r, out <> LicenseServiceViewSet.Answered (Ok r)) ->
         s' = s)
  /\ (forall s' r,
         LicenseServiceViewSet.provision user data fresh now s
         = (s', LicenseServiceViewSet.Answered (Ok r)) ->
         status_code r = LicenseServiceViewSet.HTTP_201_CREATED
         /\ activations s' = activations s
         /\ (exists l, licenses s' = licenses s ++ [l]
                       /\ License.status l = Status.valid
                       /\ License.renewal_count l = 0%nat)
         /\ (license_keys s' = license_keys s
             \/ exists k, license_keys s' = license_keys s ++ [k]
                          /\ LicenseKey.is_active k = true)).
Proof.
  split; [|split].
  - intros Hdenied. unfold LicenseServiceViewSet.provision.
    destruct user as [u|]; [destruct Hdenied as [-> ->]|]; reflexivity.
  - intros s' out Hrun Hfail. unfold LicenseServiceViewSet.provision in Hrun.
    repeat match type of Hrun with
           | (if ?c then _ else _) = _ => destruct c
           | match ?x with _ => _ end = _ => destruct x
           | let '(_, _) := ?x in _ = _ => destruct x
           | (s, _) = _ => injection Hrun as <- _; reflexivity
           end.
    injection Hrun as _ <-. exfalso. eapply Hfail. reflexivity.
  - intros s' r Hrun.
    destruct (provision_Ok s' r Hrun)
      as (email & bid & pid & expiration & product & k & _ & _ & _ & _ & _ & _ & _
          & Hkeys & Hlic & _ & _ & Hact & _ & ->).
    split; [reflexivity|]. split; [exact Hact|]. split.
    + eexists. split; [exact Hlic|]. split; reflexivity.
    + destruct Hkeys as [[Hsame _] | [Hnew [_ [-> _]]]]; [now left|right].
      eexists. split; [exact Hnew|reflexivity].
Qed.

End Provision.

Lemma provision_writes_only_on_success_witness :
  LicenseServiceViewSet.provision (Some (User.mk "testuser" "user@test.com" false false))
    (LicenseServiceViewSet.mkProvisionData (Some "new@example.com") (Some 1) (Some 1)
       (Some 3) (Some (conftest.now + 365)))
    (LicenseServiceViewSet.mkFresh 2 "0b9e6c1e-5d3a-4f43-9d51-2f4f3c1f8a77" 2)
    conftest.now (conftest.store_with conftest.license [])
  = (conftest.store_with conftest.license [],
     LicenseServiceViewSet.Denied "Only license admins can provision licenses.").
Proof.
  destruct (provision_writes_only_on_success
              (Some (User.mk "testuser" "user@test.com" false false))
              (LicenseServiceViewSet.mkProvisionData (Some "new@example.com") (Some 1)
                 (Some 1) (Some 3) (Some (conftest.now + 365)))
              (LicenseServiceViewSet.mkFresh 2 "0b9e6c1e-5d3a-4f43-9d51-2f4f3c1f8a77" 2)
              conftest.now (conftest.store_with conftest.license [])) as [Hdenied _].
  apply Hdenied. split; reflexivity.
Defined.

Lemma get_Multiple {A : Type} (cond : A -> bool) (rows pre : list A) (x y : A) :
  filter cond rows = pre ++ [x; y] ->
  QuerySet.get cond rows = Raise MultipleObjectsReturned.
Proof.
  unfold QuerySet.get. intros ->. destruct pre as [|a [|b pre]]; reflexivity.
Qed.

Lemma provision_key_filter (user : option User.t)
    (request : LicenseServiceViewSet.ProvisionData) (fresh : LicenseServiceViewSet.Fresh)
    (now : Z) (s s' : Store) (r : Response) :
  LicenseServiceViewSet.provision user request fresh now s
  = (s', LicenseServiceViewSet.Answered (Ok r)) ->
  exists email bid pid expiration k,
    LicenseServiceViewSet.customer_email request = Some email
    /\ LicenseServiceViewSet.brand_id request = Some bid
    /\ LicenseServiceViewSet.product_id request = Some pid
    /\ LicenseServiceViewSet.expiration_date request = Some expiration
    /\ filter (fun k => String.eqb (LicenseKey.customer_email k) email
                        && (LicenseKey.brand k =? bid)) (license_keys s') = [k]
    /\ (filter (fun k => String.eqb (LicenseKey.customer_email k) email
                         && (LicenseKey.brand k =? bid)) (license_keys s) = [k]
        \/ filter (fun k => String.eqb (LicenseKey.customer_email k) email
                            && (LicenseKey.brand k =? bid)) (license_keys s) = [])
    /\ item "license_key" (data r) = Some (VStr (LicenseKey.key k))
    /\ products s' = products s /\ activations s' = activations s
    /\ activation_seq s' = activation_seq s
    /\ exists l,
         licenses s' = licenses s ++ [l]
         /\ License.id l = LicenseServiceViewSet.license_pk fresh
         /\ License.license_key l = LicenseKey.id k
         /\ License.product l = pid
         /\ License.status l = Status.valid
         /\ License.expiration_date l = expiration
         /\ License.seats l
            = Z.to_nat (match LicenseServiceViewSet.seats request with
                        | Some n => n
                        | None => 1
                        end).
Proof.
  intros Hrun.
  destruct (provision_Ok _ _ _ _ _ _ _ Hrun)
    as (email & bid & pid & expiration & product & k & He & Hb & Hp & Hx & _ & _ & _
        & Hkeys & Hlic & _ & Hprod & Hact & Hseq & ->).
  exists email, bid, pid, expiration, k. repeat split; auto.
  - destruct Hkeys as [[-> Hk] | [-> [Hk [-> _]]]]; [exact Hk|].
    rewrite filter_app, Hk. simpl. now rewrite String.eqb_refl, Z.eqb_refl.
  - destruct Hkeys as [[_ Hk] | [_ [Hk _]]]; auto.
  - eexists. split; [exact Hlic|]. repeat split.
Qed.

(** X19: [provision] adds a license every time it succeeds and never looks
    for one that is already there.  After two successful provisions for the
    same customer, brand and product, with both expirations in the future,
    [activate] for that customer's key and that product escapes with
    [MultipleObjectsReturned] and activates nothing. *)
Theorem provisioning_twice_breaks_activate :
  forall (user1 user2 : option User.t) (data1 data2 : LicenseServiceViewSet.ProvisionData)
         (fresh1 fresh2 : LicenseServiceViewSet.Fresh) (t1 t2 now : Z)
         (s s1 s2 : Store) (r1 r2 : Response)
         (license_key instance_identifier instance_type : string)
         (k : LicenseKey.t) (p : Product.t),
    LicenseServiceViewSet.provision user1 data1 fresh1 t1 s
    = (s1, LicenseServiceViewSet.Answered (Ok r1)) ->
    LicenseServiceViewSet.provision user2 data2 fresh2 t2 s1
    = (s2, LicenseServiceViewSet.Answered (Ok r2)) ->
    LicenseServiceViewSet.customer_email data2 = LicenseServiceViewSet.customer_email data1 ->
    LicenseServiceViewSet.brand_id data2 = LicenseServiceViewSet.brand_id data1 ->
    LicenseServiceViewSet.product_id data2 = LicenseServiceViewSet.product_id data1 ->
    (forall e, LicenseServiceViewSet.expiration_date data1 = Some e -> now < e) ->
    (forall e, LicenseServiceViewSet.expiration_date data2 = Some e -> now < e) ->
    LicenseServiceViewSet.validate_license_key license_key = Ok license_key ->
    LicenseServiceViewSet.get_license_key license_key s2 = Ok k ->
    LicenseServiceViewSet.customer_email data1 = Some (LicenseKey.customer_email k) ->
    LicenseServiceViewSet.brand_id data1 = Some (LicenseKey.brand k) ->
    In p (products s2) ->
    LicenseServiceViewSet.product_id data1 = Some (Product.id p) ->
    LicenseServiceViewSet.activate license_key (Product.slug p) instance_identifier
      instance_type now s2
    = (s2, Raise MultipleObjectsReturned).
Proof.
  intros user1 user2 data1 data2 fresh1 fresh2 t1 t2 now s s1 s2 r1 r2 key inst type k p
         Hrun1 Hrun2 Hemail Hbrand Hproduct Hexp1 Hexp2 Hvalid Hkey Hkemail Hkbrand Hp Hpid.
  destruct (provision_key_filter _ _ _ _ _ _ _ Hrun1)
    as (email & bid & pid & x1 & k1 & He1 & Hb1 & Hp1 & Hx1 & Hf1 & _ & _ & _ & _ & _
        & l1 & Hl1 & _ & Hl1k & Hl1p & Hl1s & Hl1x & _).
  destruct (provision_key_filter _ _ _ _ _ _ _ Hrun2)
    as (email2 & bid2 & pid2 & x2 & k2 & He2 & Hb2 & Hp2 & Hx2 & Hf2 & Hbefore & _ & _ & _
        & _ & l2 & Hl2 & _ & Hl2k & Hl2p & Hl2s & Hl2x & _).
  rewrite Hemail, He1 in He2. injection He2 as <-.
  rewrite Hbrand, Hb1 in Hb2. injection Hb2 as <-.
  rewrite Hproduct, Hp1 in Hp2. injection Hp2 as <-.
  rewrite He1 in Hkemail. injection Hkemail as ->.
  rewrite Hb1 in Hkbrand. injection Hkbrand as ->.
  rewrite Hp1 in Hpid. injection Hpid as ->.
  rewrite Hf1 in Hbefore. destruct Hbefore as [[= <-] | Hbefore]; [|discriminate].
  assert (Hk : k = k1).
  { apply get_Ok_In in Hkey as [Hkin _].
    assert (Hmem : In k (filter (fun k0 => String.eqb (LicenseKey.customer_email k0)
                                             (LicenseKey.customer_email k)
                                           && (LicenseKey.brand k0 =? LicenseKey.brand k))
                           (license_keys s2)))
      by (apply filter_In; split; [exact Hkin|]; now rewrite String.eqb_refl, Z.eqb_refl).
    rewrite Hf2 in Hmem. destruct Hmem as [<- | []]. reflexivity. }
  subst k1.
  assert (Hserved : forall l, License.license_key l = LicenseKey.id k ->
                              License.product l = Product.id p ->
                              License.status l = Status.valid ->
                              now < License.expiration_date l ->
                              (License.license_key l =? LicenseKey.id k) = true
                              /\ product__slug s2 l (Product.slug p)
                                 && Status.eqb (License.status l) Status.valid
                                 && (now <? License.expiration_date l) = true).
  { intros l Hlk Hlp Hls Hlx. split; [now apply Z.eqb_eq|].
    rewrite Hls. replace (now <? License.expiration_date l) with true
      by (symmetry; now apply Z.ltb_lt).
    rewrite !andb_true_r. unfold product__slug. apply existsb_exists. exists p.
    split; [exact Hp|]. now rewrite Hlp, Z.eqb_refl, String.eqb_refl. }
  destruct (Hserved l1 Hl1k Hl1p Hl1s) as [Hq1 Hc1]; [rewrite Hl1x; now apply Hexp1|].
  destruct (Hserved l2 Hl2k Hl2p Hl2s) as [Hq2 Hc2]; [rewrite Hl2x; now apply Hexp2|].
  unfold LicenseServiceViewSet.activate, LicenseServiceViewSet.activate_check,
    LicenseServiceViewSet.activate_resolve.
  rewrite Hvalid, Hkey.
  rewrite (get_Multiple _ _
             (filter (fun l => product__slug s2 l (Product.slug p)
                               && Status.eqb (License.status l) Status.valid
                               && (now <? License.expiration_date l))
                (filter (fun l => License.license_key l =? LicenseKey.id k) (licenses s)))
             l1 l2); [reflexivity|].
  unfold LicenseKey_licenses. rewrite Hl2, Hl1, !filter_app. simpl.
  rewrite Hq1, Hq2. simpl. rewrite Hc1, Hc2.
  now rewrite <- app_assoc.
Qed.

Lemma provisioning_twice_breaks_activate_witness :
  let request :=
    LicenseServiceViewSet.mkProvisionData (Some "new@example.com") (Some 1) (Some 1)
      (Some 3) (Some (conftest.now + 365)) in
  let s := conftest.store_with conftest.license [] in
  let s1 := fst (LicenseServiceViewSet.provision (Some conftest.admin_user) request
                   (LicenseServiceViewSet.mkFresh 2 "0b9e6c1e-5d3a-4f43-9d51-2f4f3c1f8a77" 2)
                   conftest.now s) in
  let s2 := fst (LicenseServiceViewSet.provision (Some conftest.admin_user) request
                   (LicenseServiceViewSet.mkFresh 3 "6d0c1b1e-9a57-4c0e-8a3e-5b1f7e2d9c10" 3)
                   conftest.now s1) in
  LicenseServiceViewSet.activate "0b9e6c1e-5d3a-4f43-9d51-2f4f3c1f8a77" "test-product"
    "https://new.example.com" "website" conftest.now s2
  = (s2, Raise MultipleObjectsReturned).
Proof.
  intros request s s1 s2.
  apply (provisioning_twice_breaks_activate
           (Some conftest.admin_user) (Some conftest.admin_user) request request
           (LicenseServiceViewSet.mkFresh 2 "0b9e6c1e-5d3a-4f43-9d51-2f4f3c1f8a77" 2)
           (LicenseServiceViewSet.mkFresh 3 "6d0c1b1e-9a57-4c0e-8a3e-5b1f7e2d9c10" 3)
           conftest.now conftest.now conftest.now s s1 s2
           (mkResponse LicenseServiceViewSet.HTTP_201_CREATED
              (VDict [("success", VBool true);
                      ("license_key", VStr "0b9e6c1e-5d3a-4f43-9d51-2f4f3c1f8a77");
                      ("license_id", VInt 2);
                      ("message", VStr "License provisioned successfully")]))
           (mkResponse LicenseServiceViewSet.HTTP_201_CREATED
              (VDict [("success", VBool true);
                      ("license_key", VStr "0b9e6c1e-5d3a-4f43-9d51-2f4f3c1f8a77");
                      ("license_id", VInt 3);
                      ("message", VStr "License provisioned successfully")]))
           "0b9e6c1e-5d3a-4f43-9d51-2f4f3c1f8a77" "https://new.example.com" "website"
           (LicenseKey.mk 2 "0b9e6c1e-5d3a-4f43-9d51-2f4f3c1f8a77" "new@example.com" 1 true)
           conftest.product);
    try reflexivity.
  - intros e [= <-]. vm_compute. reflexivity.
  - intros e [= <-]. vm_compute. reflexivity.
  - now left.
Defined.

(** X20: a license that [provision] has just created can be activated.
    When the provision asked for at least one seat and an expiration in the
    future, the customer's key resolves, no other license of that key for the
    product is valid and unexpired, and no activation row already points at
    the new license's primary key, [activate] for any instance creates an
    activation and reports seats - 2 available seats. *)
Theorem provisioned_license_can_be_activated :
  forall (user : option User.t) (request : LicenseServiceViewSet.ProvisionData)
         (fresh : LicenseServiceViewSet.Fresh) (t now : Z) (s s1 : Store) (r : Response)
         (license_key instance_identifier instance_type : string)
         (k : LicenseKey.t) (p : Product.t),
    LicenseServiceViewSet.provision user request fresh t s
    = (s1, LicenseServiceViewSet.Answered (Ok r)) ->
    (forall n, LicenseServiceViewSet.seats request = Some n -> 1 <= n) ->
    (forall e, LicenseServiceViewSet.expiration_date request = Some e -> now < e) ->
    LicenseServiceViewSet.validate_license_key license_key = Ok license_key ->
    LicenseServiceViewSet.get_license_key license_key s1 = Ok k ->
    LicenseServiceViewSet.customer_email request = Some (LicenseKey.customer_email k) ->
    LicenseServiceViewSet.brand_id request = Some (LicenseKey.brand k) ->
    In p (products s1) ->
    LicenseServiceViewSet.product_id request = Some (Product.id p) ->
    (forall l, In l (licenses s) -> License.license_key l = LicenseKey.id k ->
               product__slug s l (Product.slug p) = true -> Spec.entitled now l = false) ->
    (forall a, In a (activations s) ->
               Activation.license a <> LicenseServiceViewSet.license_pk fresh) ->
    let granted := match LicenseServiceViewSet.seats request with Some n => n | None => 1 end in
    let created :=
      Activation.mk (activation_seq s) (LicenseServiceViewSet.license_pk fresh)
        instance_identifier instance_type true now None EmptyString in
    LicenseServiceViewSet.activate license_key (Product.slug p) instance_identifier
      instance_type now s1
    = (with_new_activation (activations s ++ [created]) s1,
       Ok (mkResponse HTTP_200_OK
             (VDict [("success", VBool true);
                     ("message", VStr "License activated successfully");
                     ("activation_id", VInt (activation_seq s));
                     ("available_seats", VInt (granted - 2))]))).
Proof.
  intros user request fresh t now s s1 r key inst type k p Hrun Hseats Hexp Hvalid Hkey
         Hkemail Hkbrand Hp Hpid Hothers Hunused granted created.
  destruct (provision_key_filter _ _ _ _ _ _ _ Hrun)
    as (email & bid & pid & x & k1 & He & Hb & Hpr & Hx & Hf & _ & _ & Hprods & Hacts & Hseq
        & l & Hl & Hlid & Hlk & Hlp & Hls & Hlx & Hlseats).
  rewrite He in Hkemail. injection Hkemail as ->.
  rewrite Hb in Hkbrand. injection Hkbrand as ->.
  rewrite Hpr in Hpid. injection Hpid as ->.
  assert (Hk : k = k1).
  { apply get_Ok_In in Hkey as [Hkin _].
    assert (Hmem : In k (filter (fun k0 => String.eqb (LicenseKey.customer_email k0)
                                             (LicenseKey.customer_email k)
                                           && (LicenseKey.brand k0 =? LicenseKey.brand k))
                           (license_keys s1)))
      by (apply filter_In; split; [exact Hkin|]; now rewrite String.eqb_refl, Z.eqb_refl).
    rewrite Hf in Hmem. destruct Hmem as [<- | []]. reflexivity. }
  subst k1.
  assert (Hgranted : 1 <= granted).
  { subst granted. destruct (LicenseServiceViewSet.seats request) as [n|]; [|lia].
    now apply Hseats. }
  assert (Hlseats' : Z.of_nat (License.seats l) = granted)
    by (rewrite Hlseats; fold granted; lia).
  assert (Hresolve : LicenseServiceViewSet.activate_resolve key (Product.slug p) now s1
                     = LicenseServiceViewSet.Proceed l).
  { unfold LicenseServiceViewSet.activate_resolve. rewrite Hvalid, Hkey.
    unfold QuerySet.get, LicenseKey_licenses. rewrite Hl, !filter_app. simpl.
    rewrite Hlk, Z.eqb_refl. simpl. rewrite Hls, Hlx.
    replace (now <? x) with true by (symmetry; apply Z.ltb_lt; now apply Hexp).
    replace (product__slug s1 l (Product.slug p)) with true.
    - simpl. rewrite filter_filter, filter_none; [reflexivity|].
      intros l0 Hl0. destruct (License.license_key l0 =? LicenseKey.id k) eqn:Ek;
        [|reflexivity].
      apply Z.eqb_eq in Ek. simpl.
      destruct (product__slug s1 l0 (Product.slug p)) eqn:Eslug; [|reflexivity].
      simpl. apply (Hothers l0 Hl0 Ek).
      unfold product__slug in *. now rewrite <- Hprods.
    - symmetry. unfold product__slug. apply existsb_exists. exists p.
      split; [exact Hp|]. now rewrite Hlp, Z.eqb_refl, String.eqb_refl. }
  assert (Hidle : forall cond : Activation.t -> bool,
             filter (fun a => (Activation.license a =? License.id l) && cond a)
               (activations s) = []).
  { intros cond. apply filter_none. intros a Ha.
    replace (Activation.license a =? License.id l) with false; [reflexivity|].
    symmetry. apply Z.eqb_neq. rewrite Hlid. now apply Hunused. }
  assert (Hcount : Spec.active_count l (activations s) = 0%nat)
    by (unfold Spec.active_count; now rewrite Hidle).
  unfold LicenseServiceViewSet.activate, LicenseServiceViewSet.activate_check.
  rewrite Hresolve, Hacts.
  rewrite (filter_ext _ (fun a => (Activation.license a =? License.id l)
                                  && (String.eqb (Activation.instance_identifier a) inst
                                      && Activation.is_active a)))
    by (intros a; now rewrite andb_assoc).
  rewrite Hidle.
  change (QuerySet.first Activation.activated_at []) with (@None Activation.t).
  cbv iota. rewrite available_seats_active_count, Hcount.
  destruct (_ <=? 0) eqn:Hle; [apply Z.leb_le in Hle; lia|].
  assert (Hnorow : existsb (fun a => (Activation.license a =? License.id l)
                                     && String.eqb (Activation.instance_identifier a) inst)
                     (activations s) = false).
  { apply not_true_iff_false. intros Hex. apply existsb_exists in Hex as [a [Ha Hcond]].
    apply andb_prop in Hcond as [Hal _]. apply Z.eqb_eq in Hal.
    apply (Hunused a Ha). congruence. }
  unfold LicenseServiceViewSet.activate_create, Activation.create.
  rewrite Hacts, Hnorow, Hseq, Hlid. fold created.
  cbn [activations with_new_activation].
  rewrite available_seats_active_count, active_count_app, Hcount.
  unfold Spec.active_count. simpl. rewrite Hlid, Z.eqb_refl. simpl.
  rewrite Hlseats'. replace (Z.max 0 (granted - 1) - 1) with (granted - 2) by lia.
  reflexivity.
Qed.

Lemma provisioned_license_can_be_activated_witness :
  let s := conftest.store_with (conftest.license_with Status.cancelled 5) [] in
  let s1 := fst (LicenseServiceViewSet.provision (Some conftest.admin_user)
                   (LicenseServiceViewSet.mkProvisionData (Some "test@example.com") (Some 1)
                      (Some 1) (Some 3) (Some (conftest.now + 365)))
                   (LicenseServiceViewSet.mkFresh 2 "0b9e6c1e-5d3a-4f43-9d51-2f4f3c1f8a77" 2)
                   conftest.now s) in
  snd (LicenseServiceViewSet.activate "TEST-LICENSE-KEY-12345" "test-product"
         "https://test.example.com" "website" conftest.now s1)
  = Ok (mkResponse HTTP_200_OK
          (VDict [("success", VBool true);
                  ("message", VStr "License activated successfully");
                  ("activation_id", VInt 1);
                  ("available_seats", VInt 1)])).
Proof.
  intros s s1. change "test-product" with (Product.slug conftest.product).
  rewrite (provisioned_license_can_be_activated (Some conftest.admin_user)
             (LicenseServiceViewSet.mkProvisionData (Some "test@example.com") (Some 1)
                (Some 1) (Some 3) (Some (conftest.now + 365)))
             (LicenseServiceViewSet.mkFresh 2 "0b9e6c1e-5d3a-4f43-9d51-2f4f3c1f8a77" 2)
             conftest.now conftest.now s s1
             (mkResponse LicenseServiceViewSet.HTTP_201_CREATED
                (VDict [("success", VBool true);
                        ("license_key", VStr "TEST-LICENSE-KEY-12345");
                        ("license_id", VInt 2);
                        ("message", VStr "License provisioned successfully")]))
             "TEST-LICENSE-KEY-12345" "https://test.example.com" "website"
             conftest.license_key conftest.product); try reflexivity.
  - intros n [= <-]. lia.
  - intros e [= <-]. vm_compute. reflexivity.
  - now left.
  - intros l [<- | []] _ _. reflexivity.
  - intros a [].
Defined.

(** X21: [provision] reuses the customer's license key for the brand even
    when that key has been deactivated.  With unique key strings, the key the
    201 response hands back is then refused by [activate] with 404 "Invalid
    or inactive license key", so the license just provisioned cannot be
    activated. *)
Theorem provision_under_inactive_key_is_unusable :
  forall (user : option User.t) (request : LicenseServiceViewSet.ProvisionData)
         (fresh : LicenseServiceViewSet.Fresh) (t now : Z) (s s1 : Store) (r : Response)
         (k : LicenseKey.t),
    LicenseServiceViewSet.provision user request fresh t s
    = (s1, LicenseServiceViewSet.Answered (Ok r)) ->
    NoDup (map LicenseKey.key (license_keys s)) ->
    In k (license_keys s) ->
    LicenseServiceViewSet.customer_email request = Some (LicenseKey.customer_email k) ->
    LicenseServiceViewSet.brand_id request = Some (LicenseKey.brand k) ->
    LicenseKey.is_active k = false ->
    (10 <= String.length (LicenseKey.key k))%nat ->
    item "license_key" (data r) = Some (VStr (LicenseKey.key k))
    /\ license_keys s1 = license_keys s
    /\ forall product_slug instance_identifier instance_type,
         LicenseServiceViewSet.activate (LicenseKey.key k) product_slug instance_identifier
           instance_type now s1
         = (s1, Ok (mkResponse HTTP_404_NOT_FOUND
                      (VDict [("success", VBool false);
                              ("error", VStr "Invalid or inactive license key")]))).
Proof.
  intros user request fresh t now s s1 r k Hrun Hnd Hin Hemail Hbrand Hoff Hlong.
  destruct (provision_Ok _ _ _ _ _ _ _ Hrun)
    as (email & bid & pid & x & product & k1 & He & Hb & _ & _ & _ & _ & _ & Hkeys & _ & _
        & _ & _ & _ & ->).
  rewrite He in Hemail. injection Hemail as ->.
  rewrite Hb in Hbrand. injection Hbrand as ->.
  assert (Hmem : In k (filter (fun k0 => String.eqb (LicenseKey.customer_email k0)
                                           (LicenseKey.customer_email k)
                                         && (LicenseKey.brand k0 =? LicenseKey.brand k))
                         (license_keys s)))
    by (apply filter_In; split; [exact Hin|]; now rewrite String.eqb_refl, Z.eqb_refl).
  destruct Hkeys as [[Hsame Hk] | [_ [Hk _]]]; rewrite Hk in Hmem; [|destruct Hmem].
  destruct Hmem as [<- | []].
  split; [reflexivity|]. split; [exact Hsame|].
  intros slug inst type.
  unfold LicenseServiceViewSet.activate, LicenseServiceViewSet.activate_check,
    LicenseServiceViewSet.activate_resolve.
  replace (LicenseServiceViewSet.validate_license_key (LicenseKey.key k1))
    with (@Ok string (LicenseKey.key k1)).
  - replace (LicenseServiceViewSet.get_license_key (LicenseKey.key k1) s1)
      with (@Raise LicenseKey.t DoesNotExist); [reflexivity|].
    symmetry. unfold LicenseServiceViewSet.get_license_key, QuerySet.get.
    rewrite Hsame, filter_none; [reflexivity|]. intros k0 Hk0.
    destruct (String.eqb (LicenseKey.key k0) (LicenseKey.key k1)) eqn:E; [|reflexivity].
    apply String.eqb_eq in E.
    replace k0 with k1 by (apply (NoDup_map_eq LicenseKey.key (license_keys s)); auto).
    simpl. exact Hoff.
  - unfold LicenseServiceViewSet.validate_license_key.
    replace (String.length (LicenseKey.key k1) <? 10)%nat with false
      by (symmetry; apply Nat.ltb_ge; exact Hlong).
    destruct (LicenseKey.key k1); [simpl in Hlong; lia|reflexivity].
Qed.

Lemma provision_under_inactive_key_is_unusable_witness :
  let off := LicenseKey.mk 1 "TEST-LICENSE-KEY-12345" "test@example.com" 1 false in
  let s := mkStore [conftest.brand] [conftest.product] [off] [] [] 1 in
  let s1 := fst (LicenseServiceViewSet.provision (Some conftest.admin_user)
                   (LicenseServiceViewSet.mkProvisionData (Some "test@example.com") (Some 1)
                      (Some 1) (Some 3) (Some (conftest.now + 365)))
                   (LicenseServiceViewSet.mkFresh 2 "0b9e6c1e-5d3a-4f43-9d51-2f4f3c1f8a77" 1)
                   conftest.now s) in
  List.length (licenses s1) = 1%nat
  /\ LicenseServiceViewSet.activate "TEST-LICENSE-KEY-12345" "test-product"
       "https://test.example.com" "website" conftest.now s1
     = (s1, Ok (mkResponse HTTP_404_NOT_FOUND
                  (VDict [("success", VBool false);
                          ("error", VStr "Invalid or inactive license key")]))).
Proof.
  intros off s s1. split; [reflexivity|].
  destruct (provision_under_inactive_key_is_unusable (Some conftest.admin_user)
              (LicenseServiceViewSet.mkProvisionData (Some "test@example.com") (Some 1)
                 (Some 1) (Some 3) (Some (conftest.now + 365)))
              (LicenseServiceViewSet.mkFresh 2 "0b9e6c1e-5d3a-4f43-9d51-2f4f3c1f8a77" 1)
              conftest.now conftest.now s s1
              (mkResponse LicenseServiceViewSet.HTTP_201_CREATED
                 (VDict [("success", VBool true);
                         ("license_key", VStr "TEST-LICENSE-KEY-12345");
                         ("license_id", VInt 1);
                         ("message", VStr "License provisioned successfully")]))
              off) as (_ & _ & Hrefused).
  - reflexivity.
  - simpl. constructor; [intros []|constructor].
  - now left.
  - reflexivity.
  - reflexivity.
  - reflexivity.
  - simpl. lia.
  - apply Hrefused.
Defined.

(** How [activate] resolves the license a provision has just created, when
    the customer's key has no other valid, unexpired license for the
    product. *)
Lemma provisioned_license_lookup (user : option User.t)
    (request : LicenseServiceViewSet.ProvisionData) (fresh : LicenseServiceViewSet.Fresh)
    (t now : Z) (s s1 : Store) (r : Response) (license_key : string)
    (k : LicenseKey.t) (p : Product.t) :
  LicenseServiceViewSet.provision user request fresh t s
  = (s1, LicenseServiceViewSet.Answered (Ok r)) ->
  LicenseServiceViewSet.validate_license_key license_key = Ok license_key ->
  LicenseServiceViewSet.get_license_key license_key s1 = Ok k ->
  LicenseServiceViewSet.customer_email request = Some (LicenseKey.customer_email k) ->
  LicenseServiceViewSet.brand_id request = Some (LicenseKey.brand k) ->
  In p (products s1) ->
  LicenseServiceViewSet.product_id request = Some (Product.id p) ->
  (forall l, In l (licenses s) -> License.license_key l = LicenseKey.id k ->
             product__slug s l (Product.slug p) = true -> Spec.entitled now l = false) ->
  exists l x,
    LicenseServiceViewSet.expiration_date request = Some x
    /\ License.id l = LicenseServiceViewSet.license_pk fresh
    /\ License.seats l
       = Z.to_nat (match LicenseServiceViewSet.seats request with
                   | Some n => n
                   | None => 1
                   end)
    /\ activations s1 = activations s
    /\ LicenseServiceViewSet.activate_resolve license_key (Product.slug p) now s1
       = if now <? x
         then LicenseServiceViewSet.Proceed l
         else LicenseServiceViewSet.Respond
                (Ok (mkResponse HTTP_404_NOT_FOUND
                       (VDict [("success", VBool false);
                               ("error", VStr "No valid license found for this product")]))).
Proof.
  intros Hrun Hvalid Hkey Hkemail Hkbrand Hp Hpid Hothers.
  destruct (provision_key_filter _ _ _ _ _ _ _ Hrun)
    as (email & bid & pid & x & k1 & He & Hb & Hpr & Hx & Hf & _ & _ & Hprods & Hacts & _
        & l & Hl & Hlid & Hlk & Hlp & Hls & Hlx & Hlseats).
  rewrite He in Hkemail. injection Hkemail as ->.
  rewrite Hb in Hkbrand. injection Hkbrand as ->.
  rewrite Hpr in Hpid. injection Hpid as ->.
  assert (Hk : k = k1).
  { apply get_Ok_In in Hkey as [Hkin _].
    assert (Hmem : In k (filter (fun k0 => String.eqb (LicenseKey.customer_email k0)
                                             (LicenseKey.customer_email k)
                                           && (LicenseKey.brand k0 =? LicenseKey.brand k))
                           (license_keys s1)))
      by (apply filter_In; split; [exact Hkin|]; now rewrite String.eqb_refl, Z.eqb_refl).
    rewrite Hf in Hmem. destruct Hmem as [<- | []]. reflexivity. }
  subst k1. exists l, x. repeat split; auto.
  unfold LicenseServiceViewSet.activate_resolve. rewrite Hvalid, Hkey.
  unfold QuerySet.get, LicenseKey_licenses. rewrite Hl, !filter_app. simpl.
  rewrite Hlk, Z.eqb_refl. simpl. rewrite Hls, Hlx.
  replace (product__slug s1 l (Product.slug p)) with true.
  - rewrite filter_filter, filter_none.
    + simpl. destruct (now <? x); reflexivity.
    + intros l0 Hl0. destruct (License.license_key l0 =? LicenseKey.id k) eqn:Ek;
        [|reflexivity].
      apply Z.eqb_eq in Ek. simpl.
      destruct (product__slug s1 l0 (Product.slug p)) eqn:Eslug; [|reflexivity].
      simpl. apply (Hothers l0 Hl0 Ek). unfold product__slug in *. now rewrite <- Hprods.
  - symmetry. unfold product__slug. apply existsb_exists. exists p.
    split; [exact Hp|]. now rewrite Hlp, Z.eqb_refl, String.eqb_refl.
Qed.

(** X22: [provision] checks neither the seat count nor the expiration it is
    given.  A license provisioned with an expiration that is not in the
    future is answered 404 "No valid license found for this product" by
    [activate]; a license provisioned with 0 seats is answered 400 "No
    available seats for this license" for every instance. *)
Theorem provision_checks_neither_seats_nor_expiration :
  forall (user : option User.t) (request : LicenseServiceViewSet.ProvisionData)
         (fresh : LicenseServiceViewSet.Fresh) (t now : Z) (s s1 : Store) (r : Response)
         (license_key : string) (k : LicenseKey.t) (p : Product.t),
    LicenseServiceViewSet.provision user request fresh t s
    = (s1, LicenseServiceViewSet.Answered (Ok r)) ->
    LicenseServiceViewSet.validate_license_key license_key = Ok license_key ->
    LicenseServiceViewSet.get_license_key license_key s1 = Ok k ->
    LicenseServiceViewSet.customer_email request = Some (LicenseKey.customer_email k) ->
    LicenseServiceViewSet.brand_id request = Some (LicenseKey.brand k) ->
    In p (products s1) ->
    LicenseServiceViewSet.product_id request = Some (Product.id p) ->
    (forall l, In l (licenses s) -> License.license_key l = LicenseKey.id k ->
               product__slug s l (Product.slug p) = true -> Spec.entitled now l = false) ->
    ((forall x, LicenseServiceViewSet.expiration_date request = Some x -> x <= now) ->
     forall instance_identifier instance_type,
       LicenseServiceViewSet.activate license_key (Product.slug p) instance_identifier
         instance_type now s1
       = (s1, Ok (mkResponse HTTP_404_NOT_FOUND
                    (VDict [("success", VBool false);
                            ("error", VStr "No valid license found for this product")]))))
    /\ (LicenseServiceViewSet.seats request = Some 0 ->
        (forall x, LicenseServiceViewSet.expiration_date request = Some x -> now < x) ->
        (forall a, In a (activations s) ->
                   Activation.license a <> LicenseServiceViewSet.license_pk fresh) ->
        forall instance_identifier instance_type,
          LicenseServiceViewSet.activate license_key (Product.slug p) instance_identifier
            instance_type now s1
          = (s1, Ok (mkResponse HTTP_400_BAD_REQUEST
                       (VDict [("success", VBool false);
                               ("error", VStr "No available seats for this license")])))).
Proof.
  intros user request fresh t now s s1 r key k p Hrun Hvalid Hkey Hkemail Hkbrand Hp Hpid
         Hothers.
  destruct (provisioned_license_lookup _ _ _ _ _ _ _ _ _ _ _ Hrun Hvalid Hkey Hkemail
              Hkbrand Hp Hpid Hothers) as (l & x & Hx & Hlid & Hlseats & Hacts & Hres).
  split.
  - intros Hpast inst type.
    unfold LicenseServiceViewSet.activate, LicenseServiceViewSet.activate_check.
    rewrite Hres. replace (now <? x) with false; [reflexivity|].
    symmetry. apply Z.ltb_ge. now apply Hpast.
  - intros Hzero Hfuture Hunused inst type.
    replace (now <? x) with true in Hres by (symmetry; apply Z.ltb_lt; now apply Hfuture).
    unfold LicenseServiceViewSet.activate, LicenseServiceViewSet.activate_check.
    rewrite Hres, Hacts, filter_none.
    + change (QuerySet.first Activation.activated_at []) with (@None Activation.t).
      cbv iota. rewrite available_seats_active_count, Hlseats, Hzero.
      destruct (_ <=? 0) eqn:Hle; [reflexivity|]. apply Z.leb_gt in Hle. simpl in Hle. lia.
    + intros a Ha. replace (Activation.license a =? License.id l) with false; [reflexivity|].
      symmetry. apply Z.eqb_neq. rewrite Hlid. now apply Hunused.
Qed.

Lemma provision_checks_neither_seats_nor_expiration_witness :
  let s := conftest.store_with (conftest.license_with Status.cancelled 5) [] in
  let s1 := fst (LicenseServiceViewSet.provision (Some conftest.admin_user)
                   (LicenseServiceViewSet.mkProvisionData (Some "test@example.com") (Some 1)
                      (Some 1) (Some 0) (Some (conftest.now + 365)))
                   (LicenseServiceViewSet.mkFresh 2 "0b9e6c1e-5d3a-4f43-9d51-2f4f3c1f8a77" 2)
                   conftest.now s) in
  List.length (licenses s1) = 2%nat
  /\ LicenseServiceViewSet.activate "TEST-LICENSE-KEY-12345" (Product.slug conftest.product)
       "https://test.example.com" "website" conftest.now s1
     = (s1, Ok (mkResponse HTTP_400_BAD_REQUEST
                  (VDict [("success", VBool false);
                          ("error", VStr "No available seats for this license")]))).
Proof.
  intros s s1. split; [reflexivity|].
  destruct (provision_checks_neither_seats_nor_expiration (Some conftest.admin_user)
              (LicenseServiceViewSet.mkProvisionData (Some "test@example.com") (Some 1)
                 (Some 1) (Some 0) (Some (conftest.now + 365)))
              (LicenseServiceViewSet.mkFresh 2 "0b9e6c1e-5d3a-4f43-9d51-2f4f3c1f8a77" 2)
              conftest.now conftest.now s s1
              (mkResponse LicenseServiceViewSet.HTTP_201_CREATED
                 (VDict [("success", VBool true);
                         ("license_key", VStr "TEST-LICENSE-KEY-12345");
                         ("license_id", VInt 2);
                         ("message", VStr "License provisioned successfully")]))
              "TEST-LICENSE-KEY-12345" conftest.license_key conftest.product)
    as [_ Hnoseats].
  - reflexivity.
  - reflexivity.
  - reflexivity.
  - reflexivity.
  - reflexivity.
  - now left.
  - reflexivity.
  - intros l [<- | []] _ _. reflexivity.
  - apply Hnoseats.
    + reflexivity.
    + intros x [= <-]. vm_compute. reflexivity.
    + intros a [].
Defined.

(** ** Active licenses of a key *)

(** X23: the licenses [check_status] reports for a key, when no product is
    given, are exactly those of [LicenseKey.get_active_licenses] whose
    expiration is in the future; a license that is valid but past its
    expiration is still among the key's active licenses. *)
Theorem check_status_licenses_are_unexpired_active_licenses :
  forall (k : LicenseKey.t) (now : Z) (s : Store) (l : License.t),
    (In l (LicenseServiceViewSet.check_status_licenses k None now s)
     <-> In l (LicenseKey_get_active_licenses k s) /\ License.is_expired l now = false
         /\ License.expiration_date l <> now)
    /\ (In l (licenses s) -> License.license_key l = LicenseKey.id k ->
        License.status l = Status.valid ->
        In l (LicenseKey_get_active_licenses k s)).
Proof.
  intros k now s l.
  unfold LicenseServiceViewSet.check_status_licenses, LicenseKey_get_active_licenses,
    LicenseKey_licenses, License.is_expired. simpl.
  rewrite !filter_In, andb_true_iff, status_eqb_eq, Z.ltb_lt, Z.eqb_eq, Z.ltb_ge.
  split; [split|].
  - intros [[Hl Hk] [Hst Hexp]]. repeat split; auto; lia.
  - intros [[[Hl Hk] Hst] [Hle Hne]]. repeat split; auto; lia.
  - intros Hl Hk Hst. auto.
Qed.

Lemma check_status_licenses_are_unexpired_active_licenses_witness :
  In conftest.license (LicenseKey_get_active_licenses conftest.license_key
                         (conftest.store_with conftest.license [])).
Proof.
  destruct (check_status_licenses_are_unexpired_active_licenses conftest.license_key
              conftest.now (conftest.store_with conftest.license []) conftest.license)
    as [_ Hactive].
  apply Hactive; [now left|reflexivity|reflexivity].
Defined.

(** ** Renewal and entitlement *)

Lemma license_save_row (x r : License.t) (rows : list License.t) :
  In r (License.save x rows) -> License.id r = License.id x -> r = x.
Proof.
  unfold License.save. destruct (existsb _ rows) eqn:Hex.
  - rewrite in_map_iff. intros [r0 [Hr0 _]] Hid.
    destruct (License.id r0 =? License.id x) eqn:E; [now symmetry|].
    subst r0. apply Z.eqb_neq in E. contradiction.
  - rewrite in_app_iff. intros [Hr | [<- | []]] Hid; [|reflexivity].
    exfalso. apply not_true_iff_false in Hex. apply Hex.
    apply existsb_exists. exists r. split; [exact Hr|]. now apply Z.eqb_eq.
Qed.

Lemma activate_resolve_valid (license_key product_slug : string) (now : Z) (s : Store)
    (l : License.t) :
  LicenseServiceViewSet.activate_resolve license_key product_slug now s
  = LicenseServiceViewSet.Proceed l ->
  License.status l = Status.valid.
Proof.
  unfold LicenseServiceViewSet.activate_resolve.
  destruct (LicenseServiceViewSet.validate_license_key license_key) as [key|]; [|discriminate].
  destruct (LicenseServiceViewSet.get_license_key key s) as [k|[]]; try discriminate.
  destruct (QuerySet.get _ _) as [l'|[]] eqn:Hget; try discriminate.
  intros [= <-]. apply get_Ok_In in Hget as [_ Hcond].
  apply andb_prop in Hcond as [Hcond _]. apply andb_prop in Hcond as [_ Hst].
  now apply status_eqb_eq.
Qed.

(** X14: a renewal takes the license out of service.  After the renew view
    has answered 200 for license [pk], [activate] never proceeds with that
    license and [check_status] never lists it, for any key, product or time,
    because its stored status is now renewed. *)
Theorem renewed_license_is_out_of_service :
  forall (user : User.t) (pk new_expiration_date : Z) (reason : option string) (t : Z)
         (s s1 : Store) (r : Response),
    LicenseViewSet.renew user pk new_expiration_date reason t s = (s1, Ok r) ->
    status_code r = HTTP_200_OK ->
    (forall l, In l (licenses s1) -> License.id l = pk ->
               License.status l = Status.renewed
               /\ License.expiration_date l = new_expiration_date)
    /\ (forall license_key product_slug now l,
           LicenseServiceViewSet.activate_resolve license_key product_slug now s1
           = LicenseServiceViewSet.Proceed l ->
           License.id l <> pk)
    /\ (forall k product_slug now l,
           In l (LicenseServiceViewSet.check_status_licenses k product_slug now s1) ->
           License.id l <> pk).
Proof.
  intros user pk new reason t s s1 r Hrun Hcode.
  assert (Hrows : forall l, In l (licenses s1) -> License.id l = pk ->
                            License.status l = Status.renewed
                            /\ License.expiration_date l = new).
  { unfold LicenseViewSet.renew in Hrun.
    destruct (LicenseViewSet.get_object user pk s) as [l0|e] eqn:Hget; [|discriminate].
    apply license_get_object_In in Hget as [_ Hid0].
    destruct (new <=? t); [discriminate|].
    destruct (License.renew l0 new reason (licenses s)) as [[l1 rows1]|e] eqn:Hrenew.
    - injection Hrun as <- _.
      assert (Hexp : License.expiration_date l1 = new).
      { unfold License.renew in Hrenew. destruct (negb _); [discriminate|].
        now injection Hrenew as <- _. }
      apply renew_Ok in Hrenew as [-> [Hid1 [_ Hto]]].
      intros l Hl Hid. cbn [licenses with_licenses] in Hl.
      apply license_save_row in Hl; [now subst l|congruence].
    - destruct e; simpl in Hrun; try discriminate.
      injection Hrun as _ <-. discriminate Hcode. }
  split; [exact Hrows|]. split.
  - intros key slug now l Hres Hid.
    pose proof (activate_resolve_valid _ _ _ _ _ Hres) as Hvalid.
    apply activate_resolve_In in Hres.
    destruct (Hrows l Hres Hid) as [Hst _]. congruence.
  - intros k slug now l Hl Hid.
    pose proof (check_status_licenses_entitled _ _ _ _ _ Hl) as [Hvalid _].
    assert (Hin : In l (licenses s1)).
    { unfold LicenseServiceViewSet.check_status_licenses, LicenseKey_licenses in Hl.
      destruct (truthy slug); repeat (apply filter_In in Hl as [Hl _]); exact Hl. }
    destruct (Hrows l Hin Hid) as [Hst _]. congruence.
Qed.

Lemma renewed_license_is_out_of_service_witness :
  Forall (fun l => License.status l = Status.renewed
                   /\ License.expiration_date l = conftest.now + 395)
    (licenses (fst (LicenseViewSet.renew conftest.admin_user 1 (conftest.now + 395) None
                      conftest.now (conftest.store_with conftest.license [])))).
Proof.
  destruct (LicenseViewSet.renew conftest.admin_user 1 (conftest.now + 395) None
              conftest.now (conftest.store_with conftest.license []))
    as [s1 [r|e]] eqn:Hrun; [|vm_compute in Hrun; discriminate Hrun].
  assert (Hcode : status_code r = HTTP_200_OK)
    by (vm_compute in Hrun; injection Hrun as _ <-; reflexivity).
  destruct (renewed_license_is_out_of_service _ _ _ _ _ _ _ _ Hrun Hcode) as (Hrows & _).
  apply Forall_forall. intros l Hl. apply Hrows; [exact Hl|].
  vm_compute in Hrun. injection Hrun as <- _. destruct Hl as [<- | []]. reflexivity.
Defined.

(** ** Who writes the status of a license, over every route *)

Lemma Forall2_In_r {A : Type} (R : A -> A -> Prop) (l l' : list A) (y : A) :
  Forall2 R l l' -> In y l' -> exists x, In x l /\ R x y.
Proof.
  induction 1 as [|x y' l l' Hxy _ IH]; simpl; [tauto|].
  intros [<- | Hy].
  - exists x. auto.
  - destruct (IH Hy) as [x' [Hx' HR]]. exists x'. auto.
Qed.

Lemma provision_licenses (user : option User.t) (data : LicenseServiceViewSet.ProvisionData)
    (fresh : LicenseServiceViewSet.Fresh) (now : Z) (s : Store) :
  let s' := fst (LicenseServiceViewSet.provision user data fresh now s) in
  licenses s' = licenses s
  \/ exists l, licenses s' = licenses s ++ [l]
               /\ License.id l = LicenseServiceViewSet.license_pk fresh
               /\ License.status l = Status.valid.
Proof.
  unfold LicenseServiceViewSet.provision.
  repeat match goal with
         | |- context [if ?c then _ else _] => destruct c
         | |- context [match ?x with _ => _ end] => destruct x
         end;
    simpl; auto;
    right; eexists; (split; [reflexivity|]); split; reflexivity.
Qed.

Lemma license_is_valid_Ok (partial : bool) (instance : option License.t)
    (data validated : LicenseSerializer.Data) (now : Z) (s : Store) :
  LicenseSerializer.is_valid partial instance data now s = Ok validated -> validated = data.
Proof.
  unfold LicenseSerializer.is_valid, LicenseSerializer.validate.
  repeat match goal with
         | |- context [if ?c then _ else _] => destruct c
         end; intros [=]; auto.
Qed.

(** The mixins write what the serializer and the cascade write. *)
Section MixinsWrite.

Context {Row Data Fresh : Type}.
Variables (get_object : User.t -> Z -> Store -> Result Row)
          (is_valid : bool -> option Row -> Data -> Z -> Store -> Result Data)
          (serializer_create : Data -> Fresh -> Z -> Store -> Result Store)
          (serializer_update : Row -> Data -> Store -> Result Store)
          (delete : Row -> Store -> Store).

Lemma create_keeps_licenses (user : User.t) (data : Data) (fresh : Fresh) (now : Z)
    (s : Store) :
  (forall validated s', serializer_create validated fresh now s = Ok s' ->
                        licenses s' = licenses s) ->
  licenses (router.left_by (ModelViewSet.create is_valid serializer_create
                              user data fresh now s) s)
  = licenses s.
Proof.
  intros Hcreate. unfold ModelViewSet.create.
  destruct (is_valid false None data now s) as [validated|e]; simpl; [|reflexivity].
  destruct (serializer_create validated fresh now s) as [s'|e] eqn:Hrun; simpl;
    [|reflexivity].
  now apply Hcreate with (validated := validated).
Qed.

Lemma update_keeps_licenses (partial : bool) (user : User.t) (pk : Z) (data : Data)
    (now : Z) (s : Store) :
  (forall instance validated s', serializer_update instance validated s = Ok s' ->
                                 licenses s' = licenses s) ->
  licenses (router.left_by (ModelViewSet.update get_object is_valid serializer_update
                              partial user pk data now s) s)
  = licenses s.
Proof.
  intros Hupdate. unfold ModelViewSet.update.
  destruct (get_object user pk s) as [instance|e]; simpl; [|reflexivity].
  destruct (is_valid partial (Some instance) data now s) as [validated|e]; simpl;
    [|reflexivity].
  destruct (serializer_update instance validated s) as [s'|e] eqn:Hrun; simpl;
    [|reflexivity].
  now apply Hupdate with (instance := instance) (validated := validated).
Qed.

Lemma destroy_drops_licenses (user : User.t) (pk : Z) (s : Store) (l : License.t) :
  (forall instance, In l (licenses (delete instance s)) -> In l (licenses s)) ->
  In l (licenses (router.left_by (ModelViewSet.destroy get_object delete user pk s) s)) ->
  In l (licenses s).
Proof.
  intros Hdelete. unfold ModelViewSet.destroy.
  destruct (get_object user pk s) as [instance|e]; simpl; [|auto].
  apply Hdelete.
Qed.

End MixinsWrite.

Lemma of_licenses_drops (doomed : License.t -> bool) (s : Store) (l : License.t) :
  In l (licenses (Delete.of_licenses doomed s)) -> In l (licenses s).
Proof. simpl. intros H. now apply filter_In in H. Qed.

(** C9 (amended): over a licenses table with unique primary keys and every
    route of the router.  A license row found in the store after a request
    either was inserted by that request (create of the License resource,
    provision), or was in the store before it under the same primary key,
    and then its stored status is the one it had, or was moved by renew,
    suspend, resume or cancel on that license under the guard of the model
    method, or is the status that a change_status, an update or a partial
    update of that license names, whichever of the six it is.  No other
    route changes the status of a stored license. *)
Theorem status_changes_by_lifecycle_or_free_write :
  forall (route : router.Route) (now : Z) (s : Store),
    NoDup (map License.id (licenses s)) ->
    forall l' : License.t,
      In l' (licenses (router.store_after route now s)) ->
      (exists l : License.t,
          In l (licenses s)
          /\ License.id l' = License.id l
          /\ (License.status l' = License.status l
              \/ router.lifecycle_transition route (License.id l) (License.status l)
                   (License.status l')
              \/ router.free_write route (License.id l) (License.status l')))
      \/ router.inserted route l'.
Proof.
  intros route now s Hnd l' Hin.
  assert (Hkept : In l' (licenses s) ->
                  exists l : License.t,
                    In l (licenses s)
                    /\ License.id l' = License.id l
                    /\ (License.status l' = License.status l
                        \/ router.lifecycle_transition route (License.id l)
                             (License.status l) (License.status l')
                        \/ router.free_write route (License.id l) (License.status l')))
    by (intros H; exists l'; auto).
  destruct route as [user|r user|r user pk|r user pk
                    |user data pk|partial user pk data
                    |user data pk|partial user pk data
                    |user data pk uuid4|partial user pk data
                    |user email
                    |user data pk|partial user pk data
                    |user data|partial user pk data
                    |req|user data fresh];
    cbn [router.store_after] in Hin.
  - left. auto.
  - left. auto.
  - left. auto.
  - (* destroy *)
    left. apply Hkept.
    destruct r; eapply destroy_drops_licenses; try exact Hin; intros instance;
      try apply of_licenses_drops; auto.
  - left. apply Hkept. rewrite create_keeps_licenses in Hin; [exact Hin|].
    unfold BrandSerializer.create. now intros validated s' [= <-].
  - left. apply Hkept. rewrite update_keeps_licenses in Hin; [exact Hin|].
    unfold BrandSerializer.update. now intros instance validated s' [= <-].
  - left. apply Hkept. rewrite create_keeps_licenses in Hin; [exact Hin|].
    unfold ProductSerializer.create. intros validated s'.
    destruct (ProductSerializer.brand_id validated); [|discriminate].
    destruct (ProductSerializer.accepted _ s); [|discriminate]. now intros [= <-].
  - left. apply Hkept. rewrite update_keeps_licenses in Hin; [exact Hin|].
    unfold ProductSerializer.update. intros instance validated s'.
    destruct (ProductSerializer.accepted _ s); [|discriminate]. now intros [= <-].
  - left. apply Hkept. rewrite create_keeps_licenses in Hin; [exact Hin|].
    unfold LicenseKeySerializer.create. intros validated s'.
    destruct (LicenseKeySerializer.brand_id validated); [|discriminate].
    destruct (LicenseKeySerializer.accepted _ s); [|discriminate]. now intros [= <-].
  - left. apply Hkept. rewrite update_keeps_licenses in Hin; [exact Hin|].
    unfold LicenseKeySerializer.update. intros instance validated s'.
    destruct (LicenseKeySerializer.accepted _ s); [|discriminate]. now intros [= <-].
  - left. auto.
  - (* create of a license *)
    unfold router.left_by, ModelViewSet.create in Hin.
    destruct (LicenseSerializer.is_valid false None data now s) as [validated|e] eqn:Hvalid;
      simpl bind in Hin; [|left; auto].
    apply license_is_valid_Ok in Hvalid. subst validated.
    unfold LicenseSerializer.create in Hin.
    destruct (LicenseSerializer.license_key_id data); [|left; auto].
    destruct (LicenseSerializer.product_id data); [|left; auto].
    destruct (LicenseSerializer.expiration_date data); [|left; auto].
    destruct (_ && _); [|left; auto].
    cbn [licenses with_licenses] in Hin. apply in_app_or in Hin as [Hin | [<- | []]].
    + left. auto.
    + right. split; reflexivity.
  - (* update and partial update of a license *)
    left. unfold router.left_by, ModelViewSet.update in Hin.
    destruct (LicenseViewSet.get_object user pk s) as [l0|e] eqn:Hget;
      simpl bind in Hin; [|auto].
    apply license_get_object_In in Hget as [Hl0 Hid].
    destruct (LicenseSerializer.is_valid partial (Some l0) data now s)
      as [validated|e] eqn:Hvalid; simpl bind in Hin; [|auto].
    apply license_is_valid_Ok in Hvalid. subst validated.
    unfold LicenseSerializer.update in Hin.
    destruct (_ && _); [|auto].
    cbn [licenses with_licenses] in Hin.
    apply license_save_members in Hin as [-> | Hin]; [|auto].
    exists l0. split; [exact Hl0|]. split; [reflexivity|]. cbn [License.status License.id].
    destruct (LicenseSerializer.status data) as [st|] eqn:Hst; [|now left].
    right. right. cbn. auto.
  - left. apply Hkept. rewrite create_keeps_licenses in Hin; [exact Hin|].
    unfold ActivationSerializer.create. intros validated s'.
    destruct (ActivationSerializer.license_id validated); [|discriminate].
    destruct (ActivationSerializer.accepted _ s); [|discriminate]. now intros [= <-].
  - left. apply Hkept. rewrite update_keeps_licenses in Hin; [exact Hin|].
    unfold ActivationSerializer.update. intros instance validated s'.
    destruct (ActivationSerializer.accepted _ s); [|discriminate]. now intros [= <-].
  - (* the nine actions *)
    left. pose proof (action_status_changes req now s Hnd) as Hrows.
    destruct (Forall2_In_r _ _ _ _ Hrows Hin) as [l [Hl [Hid Hst]]].
    exists l. split; [exact Hl|]. split; [exact Hid|]. exact Hst.
  - (* provision *)
    destruct (provision_licenses user data fresh now s) as [Hsame | [l [Hnew [Hid Hst]]]].
    + left. apply Hkept. now rewrite Hsame in Hin.
    + rewrite Hnew in Hin. apply in_app_or in Hin as [Hin | [<- | []]].
      * left. auto.
      * right. split; assumption.
Qed.

Lemma status_changes_by_lifecycle_or_free_write_witness :
  let s := conftest.store_with (conftest.license_with Status.cancelled 5) [] in
  let route := router.license_update true conftest.admin_user 1
                 (LicenseSerializer.mkData None None (Some Status.valid) None None) in
  NoDup (map License.id (licenses s))
  /\ map License.status (licenses (router.store_after route conftest.now s)) = [Status.valid]
  /\ Forall
       (fun l' =>
          (exists l : License.t,
              In l (licenses s)
              /\ License.id l' = License.id l
              /\ (License.status l' = License.status l
                  \/ router.lifecycle_transition route (License.id l) (License.status l)
                       (License.status l')
                  \/ router.free_write route (License.id l) (License.status l')))
          \/ router.inserted route l')
       (licenses (router.store_after route conftest.now s)).
Proof.
  intros s route.
  assert (Hnd : NoDup (map License.id (licenses s)))
    by (simpl; constructor; [intros []|constructor]).
  split; [exact Hnd|]. split; [reflexivity|].
  apply Forall_forall. intros l' Hin.
  exact (status_changes_by_lifecycle_or_free_write route conftest.now s Hnd l' Hin).
Defined.

(** The generic endpoints of the License resource at the fixtures: a partial
    update that names only a status stores it; an update that leaves out a
    required field is refused; a delete takes the license's activations
    with it; a create adds a row with the model's defaults. *)
Example license_endpoints_at_the_fixtures :
  let s := conftest.store_with conftest.license [conftest.activation] in
  let only_status := LicenseSerializer.mkData None None (Some Status.expired) None None in
  map License.status
    (licenses (router.store_after
                 (router.license_update true conftest.admin_user 1 only_status)
                 conftest.now s)) = [Status.expired]
  /\ router.store_after (router.license_update false conftest.admin_user 1 only_status)
       conftest.now s = s
  /\ (let s' := router.store_after (router.destroy router.license conftest.admin_user 1)
                  conftest.now s in
      licenses s' = [] /\ activations s' = [])
  /\ licenses (router.store_after
                 (router.license_create conftest.admin_user
                    (LicenseSerializer.mkData (Some 1) (Some 1) None None
                       (Some (conftest.now + 30))) 2)
                 conftest.now s)
     = [conftest.license;
        License.mk 2 1 1 Status.valid 1 (conftest.now + 30) None 0 EmptyString EmptyString
          None None conftest.now].
Proof. repeat split. Qed.
